(** * midi-mixer: the synchronisation core of [main.py]

    A shallow embedding of the three classes of [main.py] that carry the
    program's logic -- [MIDIHandler] (control-surface adapter),
    [WindowsAudioMixer] (audio registry) and the slots and timer loop of
    [MainWindow] -- together with the theorems that relate them to the
    written specification.

    Python objects are mutable and shared; the embedding threads one
    [World] through every method (a state monad with exceptions) and
    records what leaves the program (signals, backend calls, MIDI output,
    printed diagnostics) in a chronological trace. *)

From Stdlib Require Import ZArith List Bool Lia String Sorted.
From Stdlib Require Import PrimFloat FloatOps SpecFloat Uint63.
From stdpp Require Import base list gmap.

Open Scope Z_scope.

(** ** Python values *)

(** The exceptions that the modelled code can meet. *)
Inductive exn : Type :=
| IndexError
| ValueError
| OverflowError
| IOError
| COMError.

(** A Python call either returns a value or raises. *)
Inductive outcome (A : Type) : Type :=
| Ret (a : A)
| Raise (e : exn).
Arguments Ret {A} a.
Arguments Raise {A} e.

(** [float(r)] for a Python int [r]; exact for [|r| < 2^53], which covers
    every MIDI data byte. *)
Definition py_float (r : Z) : float :=
  if r <? 0 then PrimFloat.opp (PrimFloat.of_uint63 (Uint63.of_Z (- r)))
  else PrimFloat.of_uint63 (Uint63.of_Z r).

(** [r / d] with an int on the left and a float on the right: the int is
    converted and the division is IEEE binary64. *)
Definition py_truediv (r : Z) (d : float) : float :=
  PrimFloat.div (py_float r) d.

(** [int(f)]: truncation towards zero; infinities and NaN raise. *)
Definition py_int (f : float) : outcome Z :=
  match Prim2SF f with
  | S754_zero _ => Ret 0
  | S754_finite s m e =>
      let a := if 0 <=? e then Z.pos m * 2 ^ e else Z.pos m / 2 ^ (- e) in
      Ret (if s then - a else a)
  | S754_infinity _ => Raise OverflowError
  | S754_nan => Raise ValueError
  end.

(** A Python float handed to a parameter declared [c_float]: the
    nearest binary32 value, ties to even, an overflow giving an infinity;
    the result is held as the binary64 that equals it, which is also
    what reading a C [float] back into Python gives. *)
Definition c_float (f : float) : float :=
  match Prim2SF f with
  | S754_finite s m e => SF2Prim (binary_round 24 128 s m e)
  | _ => f
  end.

(** [l[i]] and [l[i] = x] on a Python list: a negative index counts from
    the end, an index outside the list raises [IndexError]. *)
Definition py_index {A} (l : list A) (i : Z) : option nat :=
  let n := Z.of_nat (length l) in
  let j := if i <? 0 then i + n else i in
  if (0 <=? j) && (j <? n) then Some (Z.to_nat j) else None.

Definition py_getitem {A} (l : list A) (i : Z) : outcome A :=
  match py_index l i with
  | Some j => match l !! j with Some x => Ret x | None => Raise IndexError end
  | None => Raise IndexError
  end.

Definition py_setitem {A} (l : list A) (i : Z) (x : A) : outcome (list A) :=
  match py_index l i with
  | Some j => Ret (<[j := x]> l)
  | None => Raise IndexError
  end.

(** ** Data model *)

(** A message as [mido] hands it over.  Only [msg.type], [msg.control] and
    [msg.value] are inspected by the program. *)
Inductive midi_msg : Type :=
| control_change (channel control value : Z)
| other_message (type : string).

(** [ChannelStrip]: the per-channel slot.  The binding of a slot is the
    data of the current item of its [app_selector] combo box ([None] for
    the item "Not Assigned"); [fader] is the slider position in percent. *)
Module ChannelStrip.
Record t : Type := mk {
  channel_idx : Z;
  app_selector : option Z;
  is_muted : bool;
  fader : Z
}.

Definition get_selected_session (self : t) : option Z := app_selector self.

(** [value_percent = int(value * 100)], then [QSlider.setValue], which
    keeps the position between the slider's minimum 0 and maximum 100. *)
Definition set_fader_value (self : t) (value : float) : outcome t :=
  match py_int (PrimFloat.mul value 100) with
  | Ret value_percent =>
      Ret (mk (channel_idx self) (app_selector self) (is_muted self)
              (Z.max 0 (Z.min 100 value_percent)))
  | Raise e => Raise e
  end.

Definition set_mute_state (self : t) (muted : bool) : t :=
  mk (channel_idx self) (app_selector self) muted (fader self).
End ChannelStrip.

(** [MIDIHandler]: the two ports (the name of the open port, or [None])
    and the values remembered per physical control. *)
Module MIDIHandler.
Record t : Type := mk {
  midi_in : option string;
  midi_out : option string;
  device_name : string;
  fader_values : list float;
  button_states : list bool;
  knob_values : list float
}.

(** [__init__] *)
Definition init : t :=
  mk None None EmptyString (replicate 8 0%float) (replicate 24 false)
     (replicate 8 0%float).
End MIDIHandler.

(** The volume and mute of one audio control as the operating system
    holds it. *)
Record AudioCtl : Type := mkCtl {
  ctl_volume : float;
  ctl_mute : bool
}.

(** One audio session of the operating system: the name of its process
    ([None] when [session.Process] is [None]) and its control. *)
Record AudioSession : Type := mkSession {
  process_name : option string;
  session_ctl : AudioCtl
}.

(** [WindowsAudioMixer]: [sessions] holds handles on the sessions found by
    the last [update_sessions]; the sessions themselves live in the
    operating system and change behind the program's back. *)
Module WindowsAudioMixer.
Record t : Type := mk {
  sessions : list nat
}.
End WindowsAudioMixer.

(** The signals of [MIDIHandler]. [raw_message_received] carries the
    message whose [str] the program emits. *)
Inductive Signal : Type :=
| fader_moved (channel : Z) (value : float)
| button_pressed (channel : Z) (state : bool)
| knob_turned (channel : Z) (value : float)
| raw_message_received (msg : midi_msg).

Inductive mixer_method : Type :=
| m_set_volume
| m_toggle_mute
| m_is_muted
| m_get_volume.

(** What an observer of the program sees, in order. *)
Inductive Event : Type :=
| Emitted (s : Signal)
| MixerCall (method : mixer_method) (session_idx : Z)
| MidiOut (control value : Z)
| Printed (text : string).

(** The program state together with its environment: the MIDI transport
    (port names that can be opened, messages queued on the input port) and
    the audio sessions of the operating system ([os_store] maps a handle
    to its live session; a handle without an entry is a session that has
    ended, on which every COM call fails; [os_master] is the speaker
    endpoint, [None] when it cannot be reached). *)
Record World : Type := mkWorld {
  midi_handler : MIDIHandler.t;
  audio_mixer : WindowsAudioMixer.t;
  channel_strips : list ChannelStrip.t;
  input_names : list string;
  output_names : list string;
  pending : list midi_msg;
  os_sessions : list nat;
  os_store : gmap nat AudioSession;
  os_master : option AudioCtl;
  trace : list Event
}.

Definition with_midi_handler (h : MIDIHandler.t) (w : World) : World :=
  mkWorld h (audio_mixer w) (channel_strips w) (input_names w)
          (output_names w) (pending w) (os_sessions w) (os_store w)
          (os_master w) (trace w).

Definition with_audio_mixer (m : WindowsAudioMixer.t) (w : World) : World :=
  mkWorld (midi_handler w) m (channel_strips w) (input_names w)
          (output_names w) (pending w) (os_sessions w) (os_store w)
          (os_master w) (trace w).

Definition with_channel_strips (l : list ChannelStrip.t) (w : World) : World :=
  mkWorld (midi_handler w) (audio_mixer w) l (input_names w)
          (output_names w) (pending w) (os_sessions w) (os_store w)
          (os_master w) (trace w).

Definition with_pending (p : list midi_msg) (w : World) : World :=
  mkWorld (midi_handler w) (audio_mixer w) (channel_strips w) (input_names w)
          (output_names w) p (os_sessions w) (os_store w)
          (os_master w) (trace w).

Definition with_os_store (s : gmap nat AudioSession) (w : World) : World :=
  mkWorld (midi_handler w) (audio_mixer w) (channel_strips w) (input_names w)
          (output_names w) (pending w) (os_sessions w) s
          (os_master w) (trace w).

Definition with_os_master (c : option AudioCtl) (w : World) : World :=
  mkWorld (midi_handler w) (audio_mixer w) (channel_strips w) (input_names w)
          (output_names w) (pending w) (os_sessions w) (os_store w)
          c (trace w).

Definition with_trace (t : list Event) (w : World) : World :=
  mkWorld (midi_handler w) (audio_mixer w) (channel_strips w) (input_names w)
          (output_names w) (pending w) (os_sessions w) (os_store w)
          (os_master w) t.

(** ** The monad of method bodies *)

Definition M (A : Type) : Type := World -> outcome A * World.

Definition ret {A} (a : A) : M A := fun w => (Ret a, w).

Definition bind {A B} (m : M A) (k : A -> M B) : M B :=
  fun w =>
    match m w with
    | (Ret a, w') => k a w'
    | (Raise e, w') => (Raise e, w')
    end.

Definition raise {A} (e : exn) : M A := fun w => (Raise e, w).

Definition lift {A} (o : outcome A) : M A := fun w => (o, w).

Definition gets {A} (f : World -> A) : M A := fun w => (Ret (f w), w).

Definition modify (f : World -> World) : M unit := fun w => (Ret tt, f w).

(** [try: body  except Exception as e: handler e] *)
Definition try_except {A} (body : M A) (handler : exn -> M A) : M A :=
  fun w =>
    match body w with
    | (Ret a, w') => (Ret a, w')
    | (Raise e, w') => handler e w'
    end.

Declare Scope py_scope.
Delimit Scope py_scope with py.
Bind Scope py_scope with M.
Notation "x <- c1 ;; c2" := (bind c1 (fun x => c2))
  (at level 100, c1 at next level, c2 at level 200, right associativity)
  : py_scope.
Notation "c1 ;; c2" := (bind c1 (fun _ => c2))
  (at level 100, c2 at level 200, right associativity) : py_scope.
Open Scope py_scope.

(** [for x in l: body x] *)
Fixpoint for_each {A} (l : list A) (body : A -> M unit) : M unit :=
  match l with
  | [] => ret tt
  | x :: l' => body x ;; for_each l' body
  end.

Definition log (e : Event) : M unit :=
  modify (fun w => with_trace (trace w ++ [e]) w).

Definition print (text : string) : M unit := log (Printed text).

(** ** WindowsAudioMixer *)

(** *** The COM interfaces behind it

    [IAudioEndpointVolume] of the speakers and [ISimpleAudioVolume] of a
    session.  A call on an endpoint that cannot be reached or on a session
    that has ended raises; so does a volume outside [0,1].  The level
    parameters are C [float]s: a control holds the level it was given in
    single precision. *)

Definition valid_level (v : float) : bool :=
  PrimFloat.leb 0 v && PrimFloat.leb v 1.

Definition master_read {A} (f : AudioCtl -> A) : M A :=
  fun w =>
    match os_master w with
    | Some c => (Ret (f c), w)
    | None => (Raise COMError, w)
    end.

Definition master_write (f : AudioCtl -> AudioCtl) : M unit :=
  fun w =>
    match os_master w with
    | Some c => (Ret tt, with_os_master (Some (f c)) w)
    | None => (Raise COMError, w)
    end.

Definition session_read {A} (session : nat) (f : AudioCtl -> A) : M A :=
  fun w =>
    match os_store w !! session with
    | Some s => (Ret (f (session_ctl s)), w)
    | None => (Raise COMError, w)
    end.

Definition session_write (session : nat) (f : AudioCtl -> AudioCtl) : M unit :=
  fun w =>
    match os_store w !! session with
    | Some s =>
        (Ret tt,
         with_os_store
           (<[session := mkSession (process_name s) (f (session_ctl s))]>
              (os_store w)) w)
    | None => (Raise COMError, w)
    end.

Definition set_ctl_volume (v : float) (c : AudioCtl) : AudioCtl :=
  mkCtl v (ctl_mute c).

Definition set_ctl_mute (b : bool) (c : AudioCtl) : AudioCtl :=
  mkCtl (ctl_volume c) b.

Definition SetMasterVolumeLevelScalar (volume : float) : M unit :=
  let fLevel := c_float volume in
  if valid_level fLevel then master_write (set_ctl_volume fLevel)
  else raise COMError.

Definition GetMasterVolumeLevelScalar : M float := master_read ctl_volume.

Definition master_GetMute : M bool := master_read ctl_mute.

Definition master_SetMute (b : bool) : M unit := master_write (set_ctl_mute b).

(** [session._ctl.QueryInterface(ISimpleAudioVolume)] *)
Definition QueryInterface (session : nat) : M nat :=
  session_read session (fun _ => session).

Definition SetMasterVolume (volume_interface : nat) (volume : float) : M unit :=
  let fLevel := c_float volume in
  if valid_level fLevel then
    session_write volume_interface (set_ctl_volume fLevel)
  else raise COMError.

Definition GetMasterVolume (volume_interface : nat) : M float :=
  session_read volume_interface ctl_volume.

Definition GetMute (volume_interface : nat) : M bool :=
  session_read volume_interface ctl_mute.

Definition SetMute (volume_interface : nat) (b : bool) : M unit :=
  session_write volume_interface (set_ctl_mute b).

(** *** The methods *)

Definition mixer_sessions : M (list nat) :=
  gets (fun w => WindowsAudioMixer.sessions (audio_mixer w)).

(** [0 <= session_idx < len(self.sessions)] *)
Definition valid_session_idx (sessions : list nat) (session_idx : Z) : bool :=
  (0 <=? session_idx) && (session_idx <? Z.of_nat (length sessions)).

(** The name under which a session is listed: [session.Process.name()]
    when [session.Process] is there and the name is not empty. *)
Definition listed_name (store : gmap nat AudioSession) (session : nat)
  : option string :=
  match store !! session with
  | Some s =>
      match process_name s with
      | Some name => if String.eqb name EmptyString then None else Some name
      | None => None
      end
  | None => None
  end.

(** The loop [for i, session in enumerate(self.sessions)], from index [i]. *)
Fixpoint app_list_from (store : gmap nat AudioSession) (i : Z)
  (sessions : list nat) : list (Z * string) :=
  match sessions with
  | [] => []
  | session :: rest =>
      match listed_name store session with
      | Some name => (i, name) :: app_list_from store (i + 1) rest
      | None => app_list_from store (i + 1) rest
      end
  end.

Definition update_sessions : M (list (Z * string)) :=
  all_sessions <- gets os_sessions ;;
  modify (with_audio_mixer (WindowsAudioMixer.mk all_sessions)) ;;
  store <- gets os_store ;;
  ret ((-1, "Master Volume"%string) :: app_list_from store 0 all_sessions).

Definition set_volume (session_idx : Z) (volume : float) : M unit :=
  log (MixerCall m_set_volume session_idx) ;;
  try_except
    (if session_idx =? -1 then SetMasterVolumeLevelScalar volume
     else
       sessions <- mixer_sessions ;;
       if valid_session_idx sessions session_idx then
         session <- lift (py_getitem sessions session_idx) ;;
         volume_interface <- QueryInterface session ;;
         SetMasterVolume volume_interface volume
       else ret tt)
    (fun e => print "Error setting volume").

(** The body of a [try] that either returns a value from inside
    ([Some]) or falls through to the statement after the [try] ([None]). *)
Definition toggle_mute (session_idx : Z) : M bool :=
  log (MixerCall m_toggle_mute session_idx) ;;
  returned <-
    try_except
      (if session_idx =? -1 then
         current_mute <- master_GetMute ;;
         master_SetMute (negb current_mute) ;;
         ret (Some (negb current_mute))
       else
         sessions <- mixer_sessions ;;
         if valid_session_idx sessions session_idx then
           session <- lift (py_getitem sessions session_idx) ;;
           volume_interface <- QueryInterface session ;;
           current_mute <- GetMute volume_interface ;;
           SetMute volume_interface (negb current_mute) ;;
           ret (Some (negb current_mute))
         else ret None)
      (fun e => print "Error toggling mute" ;; ret None) ;;
  match returned with
  | Some new_state => ret new_state
  | None => ret false
  end.

Definition is_muted (session_idx : Z) : M bool :=
  log (MixerCall m_is_muted session_idx) ;;
  returned <-
    try_except
      (if session_idx =? -1 then
         muted <- master_GetMute ;;
         ret (Some muted)
       else
         sessions <- mixer_sessions ;;
         if valid_session_idx sessions session_idx then
           session <- lift (py_getitem sessions session_idx) ;;
           volume_interface <- QueryInterface session ;;
           muted <- GetMute volume_interface ;;
           ret (Some muted)
         else ret None)
      (fun e => print "Error checking mute status" ;; ret None) ;;
  match returned with
  | Some muted => ret muted
  | None => ret false
  end.

Definition get_volume (session_idx : Z) : M float :=
  log (MixerCall m_get_volume session_idx) ;;
  returned <-
    try_except
      (if session_idx =? -1 then
         volume <- GetMasterVolumeLevelScalar ;;
         ret (Some volume)
       else
         sessions <- mixer_sessions ;;
         if valid_session_idx sessions session_idx then
           session <- lift (py_getitem sessions session_idx) ;;
           volume_interface <- QueryInterface session ;;
           volume <- GetMasterVolume volume_interface ;;
           ret (Some volume)
         else ret None)
      (fun e => print "Error getting volume" ;; ret None) ;;
  match returned with
  | Some volume => ret volume
  | None => ret 0%float
  end.

(** ** MIDIHandler: feedback and connection *)

Definition handler : M MIDIHandler.t := gets midi_handler.

Definition set_midi_in (p : option string) (h : MIDIHandler.t) : MIDIHandler.t :=
  MIDIHandler.mk p (MIDIHandler.midi_out h) (MIDIHandler.device_name h)
    (MIDIHandler.fader_values h) (MIDIHandler.button_states h)
    (MIDIHandler.knob_values h).

Definition set_midi_out (p : option string) (h : MIDIHandler.t) : MIDIHandler.t :=
  MIDIHandler.mk (MIDIHandler.midi_in h) p (MIDIHandler.device_name h)
    (MIDIHandler.fader_values h) (MIDIHandler.button_states h)
    (MIDIHandler.knob_values h).

Definition set_device_name (n : string) (h : MIDIHandler.t) : MIDIHandler.t :=
  MIDIHandler.mk (MIDIHandler.midi_in h) (MIDIHandler.midi_out h) n
    (MIDIHandler.fader_values h) (MIDIHandler.button_states h)
    (MIDIHandler.knob_values h).

Definition set_fader_values (l : list float) (h : MIDIHandler.t) : MIDIHandler.t :=
  MIDIHandler.mk (MIDIHandler.midi_in h) (MIDIHandler.midi_out h)
    (MIDIHandler.device_name h) l (MIDIHandler.button_states h)
    (MIDIHandler.knob_values h).

Definition set_button_states (l : list bool) (h : MIDIHandler.t) : MIDIHandler.t :=
  MIDIHandler.mk (MIDIHandler.midi_in h) (MIDIHandler.midi_out h)
    (MIDIHandler.device_name h) (MIDIHandler.fader_values h) l
    (MIDIHandler.knob_values h).

Definition set_knob_values (l : list float) (h : MIDIHandler.t) : MIDIHandler.t :=
  MIDIHandler.mk (MIDIHandler.midi_in h) (MIDIHandler.midi_out h)
    (MIDIHandler.device_name h) (MIDIHandler.fader_values h)
    (MIDIHandler.button_states h) l.

Definition modify_handler (f : MIDIHandler.t -> MIDIHandler.t) : M unit :=
  modify (fun w => with_midi_handler (f (midi_handler w)) w).

(** [mido.Message('control_change', control=cc, value=value)] checks that
    both data bytes are in 0..127; an open port accepts every message. *)
Definition send_led_feedback (button_idx : Z) (state : bool) : M unit :=
  h <- handler ;;
  match MIDIHandler.midi_out h with
  | None => ret tt
  | Some _ =>
      let cc := 32 + button_idx in
      let value := if state then 127 else 0 in
      if (0 <=? cc) && (cc <=? 127) then log (MidiOut cc value)
      else raise ValueError
  end.

Definition close : M unit :=
  h <- handler ;;
  match MIDIHandler.midi_in h with
  | Some _ => modify_handler (set_midi_in None)
  | None => ret tt
  end ;;
  h <- handler ;;
  match MIDIHandler.midi_out h with
  | Some _ => modify_handler (set_midi_out None)
  | None => ret tt
  end.

(** [mido.open_input(name)] / [mido.open_output(name)]: the port opens
    when the transport lists the name. *)
Definition open_port (names : list string) (name : string) : M string :=
  if existsb (String.eqb name) names then ret name else raise IOError.

Definition connect_device (input_device_name output_device_name : string)
  : M bool :=
  try_except
    (close ;;
     inputs <- gets input_names ;;
     port_in <- open_port inputs input_device_name ;;
     modify_handler (set_midi_in (Some port_in)) ;;
     outputs <- gets output_names ;;
     port_out <- open_port outputs output_device_name ;;
     modify_handler (set_midi_out (Some port_out)) ;;
     modify_handler (set_device_name input_device_name) ;;
     ret true)
    (fun e => print "Error connecting to MIDI device" ;; ret false).

(** ** MainWindow: the slots *)

(** [self.channel_strips[channel]] is an object mutated in place. *)
Definition strip_at (channel : Z) : M ChannelStrip.t :=
  strips <- gets channel_strips ;;
  lift (py_getitem strips channel).

Definition with_strip (channel : Z)
  (method : ChannelStrip.t -> outcome ChannelStrip.t) : M unit :=
  strip <- strip_at channel ;;
  strip' <- lift (method strip) ;;
  strips <- gets channel_strips ;;
  strips' <- lift (py_setitem strips channel strip') ;;
  modify (with_channel_strips strips').

Definition len_channel_strips : M Z :=
  gets (fun w => Z.of_nat (length (channel_strips w))).

Definition on_midi_fader_moved (channel : Z) (value : float) : M unit :=
  n <- len_channel_strips ;;
  if (0 <=? channel) && (channel <? n) then
    with_strip channel (fun strip => ChannelStrip.set_fader_value strip value) ;;
    strip <- strip_at channel ;;
    match ChannelStrip.get_selected_session strip with
    | Some session_idx => set_volume session_idx value
    | None => ret tt
    end
  else ret tt.

Definition on_midi_button_pressed (channel : Z) (state : bool) : M unit :=
  n <- len_channel_strips ;;
  if (0 <=? channel) && (channel <? n) then
    strip <- strip_at channel ;;
    match ChannelStrip.get_selected_session strip with
    | Some session_idx =>
        new_mute_state <- toggle_mute session_idx ;;
        with_strip channel
          (fun strip => Ret (ChannelStrip.set_mute_state strip new_mute_state)) ;;
        send_led_feedback channel new_mute_state
    | None => ret tt
    end
  else ret tt.

(** Appends to the text of the debug tab; no state of the core. *)
Definition on_raw_message_received (message : midi_msg) : M unit := ret tt.

(** [signal.emit(...)]: the slots connected in [MainWindow.__init__] run
    at once, in the emitter's thread; [knob_turned] has no slot. *)
Definition emit (s : Signal) : M unit :=
  log (Emitted s) ;;
  match s with
  | fader_moved channel value => on_midi_fader_moved channel value
  | button_pressed channel state => on_midi_button_pressed channel state
  | knob_turned _ _ => ret tt
  | raw_message_received message => on_raw_message_received message
  end.

(** ** MIDIHandler: decoding *)

Definition process_control_change (control value : Z) : M unit :=
  if (0 <=? control) && (control <=? 7) then
    let channel := control in
    let value := py_truediv value 127 in
    h <- handler ;;
    l <- lift (py_setitem (MIDIHandler.fader_values h) channel value) ;;
    modify_handler (set_fader_values l) ;;
    emit (fader_moved channel value)
  else if (16 <=? control) && (control <=? 23) then
    let channel := control - 16 in
    let value := py_truediv value 127 in
    h <- handler ;;
    l <- lift (py_setitem (MIDIHandler.knob_values h) channel value) ;;
    modify_handler (set_knob_values l) ;;
    emit (knob_turned channel value)
  else if (32 <=? control) && (control <=? 39) then
    let channel := control - 32 in
    let state := 64 <=? value in
    h <- handler ;;
    previous <- lift (py_getitem (MIDIHandler.button_states h) channel) ;;
    if negb (Bool.eqb previous state) then
      l <- lift (py_setitem (MIDIHandler.button_states h) channel state) ;;
      modify_handler (set_button_states l) ;;
      emit (button_pressed channel state)
    else ret tt
  else ret tt.

(** One turn of [for msg in self.midi_in.iter_pending()]: the message
    leaves the queue, then the body runs. *)
Definition poll_one (msg : midi_msg) : M unit :=
  modify (fun w => with_pending (tail (pending w)) w) ;;
  match msg with
  | control_change _ control value => process_control_change control value
  | other_message _ => ret tt
  end ;;
  emit (raw_message_received msg).

Definition poll_messages : M unit :=
  h <- handler ;;
  match MIDIHandler.midi_in h with
  | None => ret tt
  | Some _ =>
      queued <- gets pending ;;
      for_each queued poll_one
  end.

(** ** MainWindow: the timer loop *)

(** The body of [for strip in self.channel_strips] in [update_loop]. *)
Definition reflect_strip (i : nat) : M unit :=
  strip <- strip_at (Z.of_nat i) ;;
  match ChannelStrip.get_selected_session strip with
  | Some session_idx =>
      muted <- is_muted session_idx ;;
      if negb (Bool.eqb muted (ChannelStrip.is_muted strip)) then
        with_strip (Z.of_nat i)
          (fun strip => Ret (ChannelStrip.set_mute_state strip muted))
      else ret tt
  | None => ret tt
  end.

(** The second half of [update_loop]: "Update UI to reflect audio state". *)
Definition reflect_audio_state : M unit :=
  n <- gets (fun w => length (channel_strips w)) ;;
  for_each (seq 0 n) reflect_strip.

Definition update_loop : M unit :=
  poll_messages ;;
  reflect_audio_state.

(** ** Scenarios

    Worlds on which the definitions above are evaluated. *)

(** The eight strips built by [setup_main_tab], nothing assigned. *)
Definition fresh_strips : list ChannelStrip.t :=
  (fun i => ChannelStrip.mk i None false 0) <$> [0; 1; 2; 3; 4; 5; 6; 7].

(** The user picks an entry in the combo box of a strip. *)
Definition assign (channel : nat) (session_idx : Z)
  (strips : list ChannelStrip.t) : list ChannelStrip.t :=
  match strips !! channel with
  | Some strip =>
      <[channel := ChannelStrip.mk (ChannelStrip.channel_idx strip)
                     (Some session_idx) (ChannelStrip.is_muted strip)
                     (ChannelStrip.fader strip)]> strips
  | None => strips
  end.

Definition nano : string := "nanoKONTROL2"%string.

Definition connected_handler : MIDIHandler.t :=
  set_device_name nano
    (set_midi_out (Some nano) (set_midi_in (Some nano) MIDIHandler.init)).

Definition app (name : string) (muted : bool) : AudioSession :=
  mkSession (Some name) (mkCtl 1%float muted).

(** Three sessions were found by the last enumeration: a browser, a
    session without a process and a player.  Strip 0 is assigned to the
    browser (index 0), strip 3 to the player (index 2), strip 7 to the
    master volume. *)
Definition studio_store : gmap nat AudioSession :=
  <[10%nat := app "browser.exe" false]>
    (<[11%nat := mkSession None (mkCtl 1%float false)]>
       (<[12%nat := app "player.exe" false]> ∅)).

Definition studio : World :=
  mkWorld connected_handler
    (WindowsAudioMixer.mk [10%nat; 11%nat; 12%nat])
    (assign 0 0 (assign 3 2 (assign 7 (-1) fresh_strips)))
    [nano] [nano] []
    [10%nat; 11%nat; 12%nat] studio_store
    (Some (mkCtl 1%float false)) [].

(** The browser has been closed since the enumeration: its handle is
    still in [sessions], the session is gone. *)
Definition studio_browser_closed : World :=
  with_os_store (delete 10%nat studio_store) studio.

(** The player has muted itself. *)
Definition studio_player_muted : World :=
  with_os_store (<[12%nat := app "player.exe" true]> studio_store) studio.

(** The surface was unplugged while the button of channel 0 was held. *)
Definition studio_button_held : World :=
  with_midi_handler
    (set_midi_out None
       (set_midi_in None
          (set_button_states (<[0%nat := true]> (replicate 24 false))
             connected_handler)))
    studio.

(** The button of channel 0 is pressed and released. *)
Definition studio_press_release : World :=
  with_pending [control_change 0 32 127; control_change 0 32 0] studio.

(** The fader of channel 0 is moved three times after the browser has
    been closed. *)
Definition studio_three_moves : World :=
  with_pending
    [control_change 0 0 10; control_change 0 0 20; control_change 0 0 30]
    studio_browser_closed.

(** The player unmutes itself, behind the program's back. *)
Definition player_unmutes (w : World) : World :=
  with_os_store (<[12%nat := app "player.exe" false]> (os_store w)) w.

(** ** Observations *)

(** The mute flag the registry holds for an identifier: that of the
    master endpoint or of the session behind the index, [false] when
    there is none to read. *)
Definition registry_mute (w : World) (session_idx : Z) : bool :=
  let sessions := WindowsAudioMixer.sessions (audio_mixer w) in
  if session_idx =? -1 then
    match os_master w with
    | Some c => ctl_mute c
    | None => false
    end
  else if valid_session_idx sessions session_idx then
    match py_getitem sessions session_idx with
    | Ret session =>
        match os_store w !! session with
        | Some s => ctl_mute (session_ctl s)
        | None => false
        end
    | Raise _ => false
    end
  else false.

(** A strip once the loop has looked at it. *)
Definition reflected (w : World) (strip : ChannelStrip.t) : ChannelStrip.t :=
  match ChannelStrip.get_selected_session strip with
  | Some session_idx =>
      ChannelStrip.set_mute_state strip (registry_mute w session_idx)
  | None => strip
  end.

(** What the adapter remembers of the physical controls. *)
Definition remembered (w : World) : list float * list bool * list float :=
  (MIDIHandler.fader_values (midi_handler w),
   MIDIHandler.button_states (midi_handler w),
   MIDIHandler.knob_values (midi_handler w)).

Definition is_signal (e : Event) : bool :=
  match e with Emitted _ => true | _ => false end.

Definition is_led (e : Event) : bool :=
  match e with MidiOut _ _ => true | _ => false end.

Definition is_toggle_call (e : Event) : bool :=
  match e with MixerCall m_toggle_mute _ => true | _ => false end.

Definition is_error (e : Event) : bool :=
  match e with Printed _ => true | _ => false end.

(** The part of the trace that satisfies [p]. *)
Definition seen (p : Event -> bool) (w : World) : list Event :=
  List.filter p (trace w).

(** The bindings of the eight slots. *)
Definition bindings (w : World) : list (option Z) :=
  ChannelStrip.get_selected_session <$> channel_strips w.

(** The audio state held by the operating system. *)
Definition audio_state (w : World) : gmap nat AudioSession * option AudioCtl :=
  (os_store w, os_master w).

(** The invariant of [MIDIHandler] set up by [__init__]. *)
Definition handler_ok (h : MIDIHandler.t) : Prop :=
  length (MIDIHandler.fader_values h) = 8%nat /\
  length (MIDIHandler.button_states h) = 24%nat /\
  length (MIDIHandler.knob_values h) = 8%nat.

(** The program's own state, as opposed to the audio state and the
    trace. *)
Definition program_state (w : World) :=
  (midi_handler w, audio_mixer w, channel_strips w, pending w).

(** The data bytes of MIDI, 0..127. *)
Definition data_bytes : list Z := Z.of_nat <$> seq 0 128.

(** [|f - r/127| <= 2^-52], in exact integer arithmetic on the mantissa
    and exponent of [f]. *)
Definition near_quotient (r : Z) (f : float) : bool :=
  match Prim2SF f with
  | S754_zero _ => r =? 0
  | S754_finite false m e =>
      (e <? 0) &&
      (Z.abs (127 * Z.pos m - r * 2 ^ (- e)) * 2 ^ 52 <=? 127 * 2 ^ (- e))
  | _ => false
  end.

Definition percent_defined (f : float) : bool :=
  match py_int (PrimFloat.mul f 100) with
  | Ret z => (0 <=? z) && (z <=? 100)
  | Raise _ => false
  end.

(** [m] leaves the observation [f] as it was, however it ends. *)
Definition keeps {A B} (f : World -> B) (m : M A) : Prop :=
  forall w, f (snd (m w)) = f w.

(** [m] never raises. *)
Definition returns {A} (m : M A) : Prop :=
  forall w, exists a, fst (m w) = Ret a.

(** [session_idx] is neither the master sentinel nor an index into the
    sessions of the last enumeration. *)
Definition stale (w : World) (session_idx : Z) : Prop :=
  session_idx <> -1 /\
  ~ (0 <= session_idx
     < Z.of_nat (length (WindowsAudioMixer.sessions (audio_mixer w)))).

(** The state once the call of a mixer method has been recorded. *)
Definition called (method : mixer_method) (session_idx : Z) (w : World)
  : World :=
  with_trace (trace w ++ [MixerCall method session_idx]) w.

(** The call raised. *)
Definition raised {A} (r : outcome A * World) : Prop :=
  exists e, fst r = Raise e.

(** ** The rest of the program

    [update_app_list] of [MainWindow], the device-selection dialog and
    the observations used to describe the mixer. *)

(** The control an identifier addresses: the speaker endpoint for -1,
    the session behind a valid index while it is alive. *)
Definition addressed (w : World) (session_idx : Z) : option AudioCtl :=
  let sessions := WindowsAudioMixer.sessions (audio_mixer w) in
  if session_idx =? -1 then os_master w
  else if valid_session_idx sessions session_idx then
    match py_getitem sessions session_idx with
    | Ret session =>
        match os_store w !! session with
        | Some s => Some (session_ctl s)
        | None => None
        end
    | Raise _ => None
    end
  else None.

(** A backend error: the identifier names a control -- the master, or
    a session of the last enumeration -- that cannot be reached. *)
Definition unreachable (w : World) (session_idx : Z) : bool :=
  ((session_idx =? -1)
   || valid_session_idx (WindowsAudioMixer.sessions (audio_mixer w))
        session_idx)
  && match addressed w session_idx with
     | Some _ => false
     | None => true
     end.

(** The audio state once the control addressed by an identifier has
    been replaced by [c]. *)
Definition write_ctl (w : World) (session_idx : Z) (c : AudioCtl)
  : gmap nat AudioSession * option AudioCtl :=
  if session_idx =? -1 then (os_store w, Some c)
  else
    match py_getitem (WindowsAudioMixer.sessions (audio_mixer w)) session_idx with
    | Ret session =>
        match os_store w !! session with
        | Some s =>
            (<[session := mkSession (process_name s) c]> (os_store w),
             os_master w)
        | None => audio_state w
        end
    | Raise _ => audio_state w
    end.

Definition is_mixer_call (e : Event) : bool :=
  match e with MixerCall _ _ => true | _ => false end.

(** The lengths of the three lists of [MIDIHandler]. *)
Definition lengths (w : World) : nat * nat * nat :=
  (length (MIDIHandler.fader_values (midi_handler w)),
   length (MIDIHandler.button_states (midi_handler w)),
   length (MIDIHandler.knob_values (midi_handler w))).

(** A message as [mido] builds it: both data bytes of a control-change
    are in 0..127. *)
Definition well_formed (msg : midi_msg) : Prop :=
  match msg with
  | control_change _ control value => 0 <= control <= 127 /\ 0 <= value <= 127
  | other_message _ => True
  end.

(** The reports of [raw_message_received] in the trace. *)
Definition is_raw (e : Event) : bool :=
  match e with Emitted (raw_message_received _) => true | _ => false end.

Definition reported (msg : midi_msg) : Event :=
  Emitted (raw_message_received msg).

(** [w'] differs from [w] in at most the one control that
    [session_idx] names. *)
Definition one_write (w w' : World) (session_idx : Z) : Prop :=
  audio_state w' = audio_state w \/
  (session_idx = -1 /\ os_store w' = os_store w) \/
  (0 <= session_idx /\ os_master w' = os_master w /\
   exists session s,
     WindowsAudioMixer.sessions (audio_mixer w) !! Z.to_nat session_idx
       = Some session /\
     os_store w' = <[session := s]> (os_store w)).

(** *** ChannelStrip.set_app_options and MainWindow.update_app_list

    While [update_app_list] runs, the combo box of a strip is its list of
    items (text and data); what stays of it in [ChannelStrip.t] is the
    data of the current item. *)

(** The items after [set_app_options(apps)]: "Not Assigned" with no
    data, then one item per entry.  The combo box was cleared first, so
    the current item is the first one. *)
Definition set_app_options (apps : list (Z * string))
  : list (string * option Z) :=
  ("Not Assigned"%string, None)
    :: ((fun entry => (snd entry, Some (fst entry))) <$> apps).

(** [QComboBox.findData(data)]: the index of the first item that carries
    [data], -1 when there is none. *)
Fixpoint findData_from (i : Z) (items : list (string * option Z)) (data : Z)
  : Z :=
  match items with
  | [] => -1
  | (_, item_data) :: rest =>
      match item_data with
      | Some d => if d =? data then i else findData_from (i + 1) rest data
      | None => findData_from (i + 1) rest data
      end
  end.

Definition findData (items : list (string * option Z)) (data : Z) : Z :=
  findData_from 0 items data.

Definition set_selector (strip : ChannelStrip.t) (data : option Z)
  : ChannelStrip.t :=
  ChannelStrip.mk (ChannelStrip.channel_idx strip) data
    (ChannelStrip.is_muted strip) (ChannelStrip.fader strip).

(** The body of [for strip in self.channel_strips] in
    [update_app_list]. *)
Definition restore_selection (apps : list (Z * string))
  (strip : ChannelStrip.t) : ChannelStrip.t :=
  let current_app := ChannelStrip.get_selected_session strip in
  let items := set_app_options apps in
  let strip := set_selector strip None in
  match current_app with
  | Some data =>
      let index := findData items data in
      if 0 <=? index then
        match items !! Z.to_nat index with
        | Some (_, item_data) => set_selector strip item_data
        | None => strip
        end
      else strip
  | None => strip
  end.

Definition update_app_list : M unit :=
  apps <- update_sessions ;;
  n <- gets (fun w => length (channel_strips w)) ;;
  for_each (seq 0 n)
    (fun i =>
       with_strip (Z.of_nat i) (fun strip => Ret (restore_selection apps strip))).

(** The binding a slot keeps through a refresh that lists [apps]. *)
Definition kept_binding (apps : list (Z * string)) (binding : option Z)
  : option Z :=
  match binding with
  | Some session_idx =>
      if existsb (fun entry => fst entry =? session_idx) apps
      then Some session_idx else None
  | None => None
  end.

(** The studio after the browser was closed and the system refreshed its
    session list: the player is now the second session. *)
Definition studio_after_close : World :=
  mkWorld connected_handler
    (WindowsAudioMixer.mk [10%nat; 11%nat; 12%nat])
    (assign 0 0 (assign 3 2 (assign 7 (-1) fresh_strips)))
    [nano] [nano] []
    [11%nat; 12%nat] (delete 10%nat studio_store)
    (Some (mkCtl 1%float false)) [].

(** [name in names] for the port names of the transport. *)
Definition listed (names : list string) (name : string) : bool :=
  existsb (String.eqb name) names.

(** [|f - r/127| <= 2^-24], in exact integer arithmetic on the mantissa
    and exponent of [f]: [f] stands for [r/127] in single precision. *)
Definition near_single (r : Z) (f : float) : bool :=
  match Prim2SF f with
  | S754_zero _ => r =? 0
  | S754_finite false m e =>
      (e <? 0) &&
      (Z.abs (127 * Z.pos m - r * 2 ^ (- e)) * 2 ^ 24 <=? 127 * 2 ^ (- e))
  | _ => false
  end.

(** The level that reaches the backend for data byte [r]. *)
Definition level_of_byte (r : Z) : float := c_float (py_truediv r 127).

Definition level_of_byte_ok (r : Z) : bool :=
  valid_level (level_of_byte r) && near_single r (level_of_byte r).

(** The slider shows the whole percents of [r/127]. *)
Definition percent_is_floor (r : Z) : bool :=
  match py_int (PrimFloat.mul (py_truediv r 127) 100) with
  | Ret z => Z.max 0 (Z.min 100 z) =? 100 * r / 127
  | Raise _ => false
  end.

(** *** DeviceSelectionDialog

    A [QComboBox] of device names: its items and the index of the
    current one, -1 when there is none. *)
Module QComboBox.
Record t : Type := mk {
  items : list string;
  currentIndex : Z
}.

(** [clear()] *)
Definition clear (self : t) : t := mk [] (-1).

(** [addItem(text)]: the first item of an empty box becomes current. *)
Definition addItem (self : t) (text : string) : t :=
  mk (items self ++ [text])
     (match items self with
      | [] => 0
      | _ :: _ => currentIndex self
      end).

Definition count (self : t) : nat := length (items self).

(** [itemText(i)]: the empty string outside the items. *)
Definition itemText (self : t) (i : Z) : string :=
  if 0 <=? i then
    match items self !! Z.to_nat i with
    | Some text => text
    | None => EmptyString
    end
  else EmptyString.

Definition setCurrentIndex (self : t) (i : Z) : t :=
  mk (items self)
     (if (0 <=? i) && (i <? Z.of_nat (count self)) then i else -1).

Definition currentText (self : t) : string := itemText self (currentIndex self).
End QComboBox.

Module DeviceSelectionDialog.
Record t : Type := mk {
  input_combo : QComboBox.t;
  output_combo : QComboBox.t
}.
End DeviceSelectionDialog.

(** [needle in haystack] on Python strings. *)
Definition py_in (needle haystack : string) : bool :=
  match String.index 0 needle haystack with
  | Some _ => true
  | None => false
  end.

Definition nano_name : string := "nanoKONTROL2"%string.

(** [for i in range(combo.count()): if nano_name in combo.itemText(i):
    combo.setCurrentIndex(i); break] *)
Fixpoint select_first_nano (combo : QComboBox.t) (range : list nat)
  : QComboBox.t :=
  match range with
  | [] => combo
  | i :: rest =>
      if py_in nano_name (QComboBox.itemText combo (Z.of_nat i))
      then QComboBox.setCurrentIndex combo (Z.of_nat i)
      else select_first_nano combo rest
  end.

Definition auto_select_nanokontrol (self : DeviceSelectionDialog.t)
  : DeviceSelectionDialog.t :=
  let input := DeviceSelectionDialog.input_combo self in
  let output := DeviceSelectionDialog.output_combo self in
  DeviceSelectionDialog.mk
    (select_first_nano input (seq 0 (QComboBox.count input)))
    (select_first_nano output (seq 0 (QComboBox.count output))).

(** [MIDIHandler.get_available_devices]: the port names of the
    transport, two empty lists if asking for them fails. *)
Definition get_available_devices : M (list string * list string) :=
  try_except
    (input_devices <- gets input_names ;;
     output_devices <- gets output_names ;;
     ret (input_devices, output_devices))
    (fun e => print "Error getting MIDI devices" ;; ret ([], [])).

Definition refresh_device_lists (self : DeviceSelectionDialog.t)
  : M DeviceSelectionDialog.t :=
  devices <- get_available_devices ;;
  let input := QComboBox.clear (DeviceSelectionDialog.input_combo self) in
  let output := QComboBox.clear (DeviceSelectionDialog.output_combo self) in
  let input := fold_left QComboBox.addItem (fst devices) input in
  let output := fold_left QComboBox.addItem (snd devices) output in
  ret (auto_select_nanokontrol (DeviceSelectionDialog.mk input output)).

Definition get_selected_devices (self : DeviceSelectionDialog.t)
  : string * string :=
  (QComboBox.currentText (DeviceSelectionDialog.input_combo self),
   QComboBox.currentText (DeviceSelectionDialog.output_combo self)).

(** *** MainWindow.show_device_selection

    What [MainWindow] holds besides the strips: whether [update_timer]
    runs, the text of the status label and the device named by the
    device label ([None] stands for "No device connected"). *)
Module MainWindow.
Record t : Type := mk {
  update_timer_active : bool;
  status_label : string;
  device_info_label : option string
}.
End MainWindow.

(** [user] stands for [dialog.exec()]: what the user makes of the
    dialog, and whether the dialog is accepted. *)
Definition show_device_selection
  (user : DeviceSelectionDialog.t -> DeviceSelectionDialog.t * bool)
  (self : MainWindow.t) : M MainWindow.t :=
  let self := MainWindow.mk false (MainWindow.status_label self)
                (MainWindow.device_info_label self) in
  close ;;
  dialog <- refresh_device_lists
              (DeviceSelectionDialog.mk (QComboBox.mk [] (-1))
                 (QComboBox.mk [] (-1))) ;;
  let (dialog, accepted) := user dialog in
  if accepted then
    let (input_device, output_device) := get_selected_devices dialog in
    connected <- connect_device input_device output_device ;;
    if connected then
      let self := MainWindow.mk true "Connected to MIDI device"
                    (Some input_device) in
      update_app_list ;;
      ret self
    else
      ret (MainWindow.mk (MainWindow.update_timer_active self)
             "Failed to connect to MIDI device"
             (MainWindow.device_info_label self))
  else ret self.

(** The surface is plugged in next to another device. *)
Definition two_devices : World :=
  mkWorld MIDIHandler.init (WindowsAudioMixer.mk []) fresh_strips
    ["Midi Through"%string; "nanoKONTROL2 1 SLIDER/KNOB"%string]
    ["Midi Through"%string; "nanoKONTROL2 1 CTRL"%string] []
    [10%nat; 11%nat; 12%nat] studio_store
    (Some (mkCtl 1%float false)) [].

(** The index of the current item is one of the items'. *)
Definition has_current (combo : QComboBox.t) : Prop :=
  0 <= QComboBox.currentIndex combo < Z.of_nat (QComboBox.count combo).

(** [after] is [before] with the first item that contains
    "nanoKONTROL2" made current, or [before] itself when no item does. *)
Definition first_nano_selected (before after : QComboBox.t) : Prop :=
  QComboBox.items after = QComboBox.items before /\
  ((forall i text,
      QComboBox.items before !! i = Some text ->
      py_in nano_name text = false) ->
   after = before) /\
  (forall i text,
     QComboBox.items before !! i = Some text ->
     py_in nano_name text = true ->
     (forall j other,
        (j < i)%nat -> QComboBox.items before !! j = Some other ->
        py_in nano_name other = false) ->
     QComboBox.currentIndex after = Z.of_nat i).

(** * Theorems *)

(** ** Frame rules of the monad *)

Section Frame.
Context {B : Type} (f : World -> B).

Lemma keeps_ret {A} (a : A) : keeps f (ret a).
Proof. intros w. reflexivity. Qed.

Lemma keeps_raise {A} (e : exn) : keeps f (@raise A e).
Proof. intros w. reflexivity. Qed.

Lemma keeps_lift {A} (o : outcome A) : keeps f (lift o).
Proof. intros w. reflexivity. Qed.

Lemma keeps_gets {A} (g : World -> A) : keeps f (gets g).
Proof. intros w. reflexivity. Qed.

Lemma keeps_modify (g : World -> World) :
  (forall w, f (g w) = f w) -> keeps f (modify g).
Proof. intros H w. apply H. Qed.

Lemma keeps_bind {A C} (m : M A) (k : A -> M C) :
  keeps f m -> (forall a, keeps f (k a)) -> keeps f (bind m k).
Proof.
  intros Hm Hk w. unfold bind. specialize (Hm w).
  destruct (m w) as [[a | e] w1]; simpl in *.
  - rewrite Hk. exact Hm.
  - exact Hm.
Qed.

Lemma keeps_try_except {A} (body : M A) (handler : exn -> M A) :
  keeps f body -> (forall e, keeps f (handler e)) ->
  keeps f (try_except body handler).
Proof.
  intros Hm Hk w. unfold try_except. specialize (Hm w).
  destruct (body w) as [[a | e] w1]; simpl in *.
  - exact Hm.
  - rewrite Hk. exact Hm.
Qed.

Lemma keeps_for_each {A} (l : list A) (body : A -> M unit) :
  (forall x, keeps f (body x)) -> keeps f (for_each l body).
Proof.
  intros Hb. induction l as [| x l IH]; simpl.
  - apply keeps_ret.
  - apply keeps_bind; [apply Hb | intros _; exact IH].
Qed.
End Frame.

Lemma returns_ret {A} (a : A) : returns (ret a).
Proof. intros w. exists a. reflexivity. Qed.

Lemma returns_gets {A} (g : World -> A) : returns (gets g).
Proof. intros w. exists (g w). reflexivity. Qed.

Lemma returns_modify (g : World -> World) : returns (modify g).
Proof. intros w. exists tt. reflexivity. Qed.

Lemma returns_bind {A C} (m : M A) (k : A -> M C) :
  returns m -> (forall a, returns (k a)) -> returns (bind m k).
Proof.
  intros Hm Hk w. unfold bind. destruct (Hm w) as [a Ha].
  destruct (m w) as [o w1]; simpl in Ha; subst o. apply Hk.
Qed.

Lemma returns_try_except {A} (body : M A) (handler : exn -> M A) :
  (forall e, returns (handler e)) -> returns (try_except body handler).
Proof.
  intros Hk w. unfold try_except.
  destruct (body w) as [[a | e] w1].
  - exists a. reflexivity.
  - apply Hk.
Qed.

(** What a call that returns makes of the state. *)
Lemma returns_run {A} (m : M A) (w : World) :
  returns m -> exists a, m w = (Ret a, snd (m w)).
Proof.
  intros H. destruct (H w) as [a Ha]. exists a.
  destruct (m w) as [o w1]; simpl in *. now subst o.
Qed.

Lemma bind_run {A C} (m : M A) (k : A -> M C) (w w1 : World) (a : A) :
  m w = (Ret a, w1) -> bind m k w = k a w1.
Proof. intros H. unfold bind. now rewrite H. Qed.

Lemma bind_gets {A C} (g : World -> A) (k : A -> M C) (w : World) :
  bind (gets g) k w = k (g w) w.
Proof. reflexivity. Qed.

(** ** Frame properties of the methods *)

Lemma seen_log (p : Event -> bool) (e : Event) (w : World) :
  seen p (snd (log e w)) = seen p w ++ (if p e then [e] else []).
Proof.
  unfold seen, log, modify; simpl. rewrite List.filter_app. simpl.
  now destruct (p e).
Qed.

Lemma keeps_seen_log (p : Event -> bool) (e : Event) :
  p e = false -> keeps (seen p) (log e).
Proof. intros H w. rewrite seen_log, H. apply app_nil_r. Qed.

(** Decomposes a frame goal along the structure of the method body. *)
Ltac frame_leaf :=
  first
    [ apply keeps_seen_log; reflexivity
    | intros ?w; reflexivity
    | intros ?w;
      unfold master_read, master_write, session_read, session_write;
      repeat case_match; reflexivity ].

Ltac frame_step :=
  match goal with
  | |- keeps _ (bind _ _) => apply keeps_bind; [| intros ?]
  | |- keeps _ (try_except _ _) => apply keeps_try_except; [| intros ?]
  | |- keeps _ (for_each _ _) => apply keeps_for_each; intros ?
  | |- keeps _ (ret _) => apply keeps_ret
  | |- keeps _ (raise _) => apply keeps_raise
  | |- keeps _ (lift _) => apply keeps_lift
  | |- keeps _ (gets _) => apply keeps_gets
  | |- keeps _ (if ?b then _ else _) => destruct b
  | |- keeps _ (match ?x with _ => _ end) => destruct x
  | |- keeps _ _ => solve [auto with frame]
  | |- keeps _ _ => frame_leaf
  end.

Ltac frame := repeat frame_step.

Ltac unfold_com :=
  unfold SetMasterVolumeLevelScalar, GetMasterVolumeLevelScalar,
    master_GetMute, master_SetMute, QueryInterface, SetMasterVolume,
    GetMasterVolume, GetMute, SetMute, mixer_sessions, print.

Create HintDb frame.

(** The mixer never touches the strips, the adapter or the queue. *)

Lemma set_volume_keeps_program idx v : keeps program_state (set_volume idx v).
Proof. unfold set_volume. unfold_com. frame. Qed.

Lemma toggle_mute_keeps_program idx : keeps program_state (toggle_mute idx).
Proof. unfold toggle_mute. unfold_com. frame. Qed.

Lemma is_muted_keeps_program idx : keeps program_state (is_muted idx).
Proof. unfold is_muted. unfold_com. frame. Qed.

Lemma get_volume_keeps_program idx : keeps program_state (get_volume idx).
Proof. unfold get_volume. unfold_com. frame. Qed.

(** The mixer emits no signal and writes nothing to the surface. *)
Lemma set_volume_keeps_signals idx v : keeps (seen is_signal) (set_volume idx v).
Proof. unfold set_volume. unfold_com. frame. Qed.

Lemma toggle_mute_keeps_signals idx : keeps (seen is_signal) (toggle_mute idx).
Proof. unfold toggle_mute. unfold_com. frame. Qed.

Lemma set_volume_keeps_leds idx v : keeps (seen is_led) (set_volume idx v).
Proof. unfold set_volume. unfold_com. frame. Qed.

Lemma toggle_mute_keeps_leds idx : keeps (seen is_led) (toggle_mute idx).
Proof. unfold toggle_mute. unfold_com. frame. Qed.

Lemma is_muted_keeps_leds idx : keeps (seen is_led) (is_muted idx).
Proof. unfold is_muted. unfold_com. frame. Qed.

Lemma is_muted_keeps_toggle_calls idx :
  keeps (seen is_toggle_call) (is_muted idx).
Proof. unfold is_muted. unfold_com. frame. Qed.

Lemma set_volume_keeps_toggle_calls idx v :
  keeps (seen is_toggle_call) (set_volume idx v).
Proof. unfold set_volume. unfold_com. frame. Qed.

(** Reading the mute flag changes no audio state. *)
Lemma is_muted_keeps_audio idx : keeps audio_state (is_muted idx).
Proof. unfold is_muted. unfold_com. frame. Qed.

(** The mixer methods catch every exception. *)
Lemma returns_log e : returns (log e).
Proof. apply returns_modify. Qed.

Lemma set_volume_returns idx v : returns (set_volume idx v).
Proof.
  unfold set_volume. apply returns_bind; [apply returns_log | intros _].
  apply returns_try_except. intros e. apply returns_log.
Qed.

Lemma returned_or_default_returns {A} (body : M (option A)) (text : string)
  (default : A) :
  returns (returned <-
             try_except body (fun e => print text ;; ret None) ;;
           match returned with
           | Some a => ret a
           | None => ret default
           end).
Proof.
  apply returns_bind.
  - apply returns_try_except. intros e.
    apply returns_bind; [apply returns_log | intros _; apply returns_ret].
  - intros [a |]; apply returns_ret.
Qed.

Lemma toggle_mute_returns idx : returns (toggle_mute idx).
Proof.
  unfold toggle_mute. apply returns_bind; [apply returns_log | intros _].
  apply returned_or_default_returns.
Qed.

Lemma is_muted_returns idx : returns (is_muted idx).
Proof.
  unfold is_muted. apply returns_bind; [apply returns_log | intros _].
  apply returned_or_default_returns.
Qed.

Lemma get_volume_returns idx : returns (get_volume idx).
Proof.
  unfold get_volume. apply returns_bind; [apply returns_log | intros _].
  apply returned_or_default_returns.
Qed.

(** ** Identifiers outside the last enumeration *)

Arguments valid_session_idx : simpl never.

Lemma stale_not_master w idx : stale w idx -> (idx =? -1) = false.
Proof. intros [H _]. now apply Z.eqb_neq. Qed.

Lemma stale_not_valid w idx :
  stale w idx ->
  valid_session_idx (WindowsAudioMixer.sessions (audio_mixer w)) idx = false.
Proof.
  intros [_ H]. unfold valid_session_idx. apply andb_false_iff.
  rewrite Z.leb_nle, Z.ltb_nlt. lia.
Qed.

(** C3, as the code has it. For an identifier that is neither the master
    sentinel nor a valid index into the last enumeration no method raises
    and none touches the audio state: [set_volume] returns nothing,
    [get_volume] returns 0.0, [is_muted] and [toggle_mute] return
    [False]; the call is all that is recorded. *)
Theorem stale_identifier_defaults (w : World) (idx : Z) (v : float) :
  stale w idx ->
  set_volume idx v w = (Ret tt, called m_set_volume idx w) /\
  get_volume idx w = (Ret 0%float, called m_get_volume idx w) /\
  is_muted idx w = (Ret false, called m_is_muted idx w) /\
  toggle_mute idx w = (Ret false, called m_toggle_mute idx w).
Proof.
  intros H.
  pose proof (stale_not_master w idx H) as Hm.
  pose proof (stale_not_valid w idx H) as Hv.
  unfold set_volume, get_volume, is_muted, toggle_mute, mixer_sessions,
    bind, try_except, log, modify, gets, ret, called, with_trace.
  simpl. rewrite Hm. simpl. rewrite Hv. repeat split; reflexivity.
Qed.

Lemma stale_identifier_defaults_witness :
  stale studio 5 /\
  toggle_mute 5 studio = (Ret false, called m_toggle_mute 5 studio).
Proof.
  assert (H : stale studio 5) by (split; simpl; lia).
  split; [exact H |].
  apply (stale_identifier_defaults studio 5 0%float H).
Defined.

(** C3, as the specification has it, fails: index 5 is not in the
    enumeration of three sessions, yet none of the four methods raises. *)
Lemma stale_identifier_no_error :
  stale studio 5 /\
  ~ raised (set_volume 5 0.5%float studio) /\
  ~ raised (get_volume 5 studio) /\
  ~ raised (is_muted 5 studio) /\
  ~ raised (toggle_mute 5 studio).
Proof.
  split; [split; simpl; lia |].
  repeat split; intros [e He]; vm_compute in He; discriminate He.
Qed.

(** ** The enumeration *)

Lemma app_list_from_index store i sessions entry :
  In entry (app_list_from store i sessions) ->
  i <= fst entry < i + Z.of_nat (length sessions).
Proof.
  revert i. induction sessions as [| session rest IH]; intros i; simpl.
  - intros [].
  - destruct (listed_name store session).
    + intros [<- | Hin]; simpl; [lia |].
      specialize (IH _ Hin). lia.
    + intros Hin. specialize (IH _ Hin). lia.
Qed.

(** C9. The enumeration starts with the master entry, whose identifier
    is -1; every other entry carries an index into the new session list,
    so it is non-negative and differs from the master's. *)
Theorem update_sessions_master_first (w : World) :
  exists rest w',
    update_sessions w = (Ret ((-1, "Master Volume"%string) :: rest), w') /\
    WindowsAudioMixer.sessions (audio_mixer w') = os_sessions w /\
    Forall (fun entry : Z * string =>
              0 <= fst entry
              < Z.of_nat (length (WindowsAudioMixer.sessions (audio_mixer w')))
              /\ fst entry <> -1) rest.
Proof.
  eexists _, _. split; [reflexivity |]. split; [reflexivity |].
  simpl. apply List.Forall_forall. intros entry Hin.
  apply app_list_from_index in Hin. lia.
Qed.

(** ** Python lists inside their bounds *)

Lemma py_index_valid {A} (l : list A) (i : Z) :
  0 <= i < Z.of_nat (length l) -> py_index l i = Some (Z.to_nat i).
Proof.
  intros H. unfold py_index.
  destruct (Z.ltb_spec i 0) as [? | _]; [lia |].
  destruct (Z.leb_spec 0 i); [| lia].
  destruct (Z.ltb_spec i (Z.of_nat (length l))); [| lia].
  reflexivity.
Qed.

Lemma py_getitem_valid {A} (l : list A) (i : Z) :
  0 <= i < Z.of_nat (length l) ->
  exists x, l !! Z.to_nat i = Some x /\ py_getitem l i = Ret x.
Proof.
  intros H. unfold py_getitem. rewrite py_index_valid by exact H.
  destruct (lookup_lt_is_Some_2 l (Z.to_nat i)) as [x Hx]; [lia |].
  exists x. now rewrite Hx.
Qed.

Lemma py_setitem_valid {A} (l : list A) (i : Z) (x : A) :
  0 <= i < Z.of_nat (length l) ->
  py_setitem l i x = Ret (<[Z.to_nat i := x]> l).
Proof. intros H. unfold py_setitem. now rewrite py_index_valid. Qed.

Lemma py_getitem_lookup {A} (l : list A) (i : Z) (x : A) :
  py_getitem l i = Ret x -> exists j, py_index l i = Some j /\ l !! j = Some x.
Proof.
  unfold py_getitem. destruct (py_index l i) as [j |]; [| discriminate].
  destruct (l !! j) as [y |] eqn:E; [| discriminate].
  intros [= <-]. now exists j.
Qed.

(** ** The strips *)

Lemma strip_at_run (w : World) (channel : Z) :
  0 <= channel < Z.of_nat (length (channel_strips w)) ->
  exists strip,
    channel_strips w !! Z.to_nat channel = Some strip /\
    strip_at channel w = (Ret strip, w).
Proof.
  intros H. destruct (py_getitem_valid _ _ H) as (strip & Hl & Hg).
  exists strip. split; [exact Hl |].
  unfold strip_at, bind, gets, lift. now rewrite Hg.
Qed.

Lemma with_strip_run (w : World) (channel : Z) method strip strip' :
  0 <= channel ->
  channel_strips w !! Z.to_nat channel = Some strip ->
  method strip = Ret strip' ->
  with_strip channel method w =
    (Ret tt,
     with_channel_strips (<[Z.to_nat channel := strip']> (channel_strips w)) w).
Proof.
  intros H0 Hl Hm.
  assert (Hr : 0 <= channel < Z.of_nat (length (channel_strips w))).
  { apply lookup_lt_Some in Hl. lia. }
  destruct (strip_at_run w channel Hr) as (s & Hs & Hrun).
  rewrite Hl in Hs. injection Hs as <-.
  unfold with_strip. rewrite (bind_run _ _ _ _ _ Hrun).
  unfold bind, lift, gets, modify. rewrite Hm.
  now rewrite (py_setitem_valid _ _ _ Hr).
Qed.

Lemma with_strip_keeps_handler channel method :
  keeps midi_handler (with_strip channel method).
Proof. unfold with_strip, strip_at. frame. Qed.

Lemma with_strip_keeps_seen p channel method :
  keeps (seen p) (with_strip channel method).
Proof. unfold with_strip, strip_at. frame. Qed.

Lemma with_strip_keeps_audio channel method :
  keeps audio_state (with_strip channel method).
Proof. unfold with_strip, strip_at. frame. Qed.

Lemma with_strip_keeps_mixer channel method :
  keeps audio_mixer (with_strip channel method).
Proof. unfold with_strip, strip_at. frame. Qed.

(** A method that leaves the combo box alone leaves the bindings alone. *)
Lemma with_strip_keeps_bindings channel method :
  (forall strip strip',
     method strip = Ret strip' ->
     ChannelStrip.app_selector strip' = ChannelStrip.app_selector strip) ->
  keeps bindings (with_strip channel method).
Proof.
  intros Hm w. unfold with_strip, strip_at, bind, gets, lift, modify.
  destruct (py_getitem (channel_strips w) channel) as [strip | e] eqn:Hg;
    [| reflexivity].
  destruct (method strip) as [strip' | e] eqn:Hs; [| reflexivity].
  apply py_getitem_lookup in Hg as (j & Hj & Hl).
  unfold py_setitem. rewrite Hj. unfold bindings; simpl.
  rewrite list_fmap_insert. apply list_insert_id.
  rewrite list_lookup_fmap, Hl. simpl. f_equal.
  unfold ChannelStrip.get_selected_session. symmetry. now apply Hm.
Qed.

Lemma set_fader_value_selector value strip strip' :
  ChannelStrip.set_fader_value strip value = Ret strip' ->
  ChannelStrip.app_selector strip' = ChannelStrip.app_selector strip.
Proof.
  unfold ChannelStrip.set_fader_value.
  destruct (py_int _); [| discriminate]. now intros [= <-].
Qed.

Lemma set_mute_state_selector muted strip strip' :
  Ret (ChannelStrip.set_mute_state strip muted) = Ret strip' ->
  ChannelStrip.app_selector strip' = ChannelStrip.app_selector strip.
Proof. now intros [= <-]. Qed.

#[local] Hint Resolve with_strip_keeps_handler with_strip_keeps_seen
  with_strip_keeps_audio with_strip_keeps_mixer
  set_volume_keeps_signals toggle_mute_keeps_signals set_volume_keeps_leds
  toggle_mute_keeps_leds is_muted_keeps_leds is_muted_keeps_toggle_calls
  set_volume_keeps_toggle_calls is_muted_keeps_audio : frame.

Lemma keeps_component {A B C} (f : World -> B) (g : B -> C) (m : M A) :
  keeps f m -> keeps (fun w => g (f w)) m.
Proof. intros H w. now rewrite H. Qed.

Lemma set_volume_keeps_handler idx v : keeps midi_handler (set_volume idx v).
Proof.
  exact (keeps_component program_state (fun s => fst (fst (fst s))) _
           (set_volume_keeps_program idx v)).
Qed.

Lemma toggle_mute_keeps_handler idx : keeps midi_handler (toggle_mute idx).
Proof.
  exact (keeps_component program_state (fun s => fst (fst (fst s))) _
           (toggle_mute_keeps_program idx)).
Qed.

Lemma set_volume_keeps_strips idx v : keeps channel_strips (set_volume idx v).
Proof.
  exact (keeps_component program_state (fun s => snd (fst s)) _
           (set_volume_keeps_program idx v)).
Qed.

Lemma toggle_mute_keeps_strips idx : keeps channel_strips (toggle_mute idx).
Proof.
  exact (keeps_component program_state (fun s => snd (fst s)) _
           (toggle_mute_keeps_program idx)).
Qed.

Lemma is_muted_keeps_strips idx : keeps channel_strips (is_muted idx).
Proof.
  exact (keeps_component program_state (fun s => snd (fst s)) _
           (is_muted_keeps_program idx)).
Qed.

Lemma is_muted_keeps_mixer idx : keeps audio_mixer (is_muted idx).
Proof.
  exact (keeps_component program_state (fun s => snd (fst (fst s))) _
           (is_muted_keeps_program idx)).
Qed.

Lemma set_volume_keeps_bindings idx v : keeps bindings (set_volume idx v).
Proof.
  exact (keeps_component channel_strips
           (fmap ChannelStrip.get_selected_session) _
           (set_volume_keeps_strips idx v)).
Qed.

Lemma toggle_mute_keeps_bindings idx : keeps bindings (toggle_mute idx).
Proof.
  exact (keeps_component channel_strips
           (fmap ChannelStrip.get_selected_session) _
           (toggle_mute_keeps_strips idx)).
Qed.

Lemma is_muted_keeps_bindings idx : keeps bindings (is_muted idx).
Proof.
  exact (keeps_component channel_strips
           (fmap ChannelStrip.get_selected_session) _
           (is_muted_keeps_strips idx)).
Qed.

#[local] Hint Resolve set_volume_keeps_handler toggle_mute_keeps_handler
  set_volume_keeps_bindings toggle_mute_keeps_bindings
  is_muted_keeps_bindings is_muted_keeps_mixer : frame.

Lemma send_led_feedback_keeps_handler idx state :
  keeps midi_handler (send_led_feedback idx state).
Proof. unfold send_led_feedback, handler. frame. Qed.

Lemma send_led_feedback_keeps_signals idx state :
  keeps (seen is_signal) (send_led_feedback idx state).
Proof. unfold send_led_feedback, handler. frame. Qed.

Lemma send_led_feedback_keeps_bindings idx state :
  keeps bindings (send_led_feedback idx state).
Proof. unfold send_led_feedback, handler. frame. Qed.

#[local] Hint Resolve send_led_feedback_keeps_handler
  send_led_feedback_keeps_signals send_led_feedback_keeps_bindings : frame.

(** The slots leave the adapter alone and emit no signal of their own. *)
Lemma on_midi_fader_moved_keeps_handler channel value :
  keeps midi_handler (on_midi_fader_moved channel value).
Proof. unfold on_midi_fader_moved, len_channel_strips, strip_at. frame. Qed.

Lemma on_midi_fader_moved_keeps_signals channel value :
  keeps (seen is_signal) (on_midi_fader_moved channel value).
Proof. unfold on_midi_fader_moved, len_channel_strips, strip_at. frame. Qed.

Lemma on_midi_fader_moved_keeps_leds channel value :
  keeps (seen is_led) (on_midi_fader_moved channel value).
Proof. unfold on_midi_fader_moved, len_channel_strips, strip_at. frame. Qed.

Lemma on_midi_fader_moved_keeps_toggle_calls channel value :
  keeps (seen is_toggle_call) (on_midi_fader_moved channel value).
Proof. unfold on_midi_fader_moved, len_channel_strips, strip_at. frame. Qed.

Lemma on_midi_fader_moved_keeps_bindings channel value :
  keeps bindings (on_midi_fader_moved channel value).
Proof.
  unfold on_midi_fader_moved, len_channel_strips, strip_at. frame.
  apply with_strip_keeps_bindings. intros strip strip'.
  apply set_fader_value_selector.
Qed.

Lemma on_midi_button_pressed_keeps_handler channel state :
  keeps midi_handler (on_midi_button_pressed channel state).
Proof. unfold on_midi_button_pressed, len_channel_strips, strip_at. frame. Qed.

Lemma on_midi_button_pressed_keeps_signals channel state :
  keeps (seen is_signal) (on_midi_button_pressed channel state).
Proof. unfold on_midi_button_pressed, len_channel_strips, strip_at. frame. Qed.

Lemma on_midi_button_pressed_keeps_bindings channel state :
  keeps bindings (on_midi_button_pressed channel state).
Proof.
  unfold on_midi_button_pressed, len_channel_strips, strip_at. frame.
  apply with_strip_keeps_bindings. intros strip strip'.
  apply set_mute_state_selector.
Qed.

(** ** The slots return *)

Lemma send_led_feedback_returns (button_idx : Z) (state : bool) :
  -32 <= button_idx <= 95 -> returns (send_led_feedback button_idx state).
Proof.
  intros H w. unfold send_led_feedback, handler, bind, gets.
  destruct (MIDIHandler.midi_out (midi_handler w)).
  - destruct (Z.leb_spec 0 (32 + button_idx)); [| lia].
    destruct (Z.leb_spec (32 + button_idx) 127); [| lia].
    exists tt. reflexivity.
  - exists tt. reflexivity.
Qed.

Lemma guard_true (lo hi n : Z) :
  (lo <=? n) && (n <? hi) = true -> lo <= n < hi.
Proof. intros H. apply andb_true_iff in H as [? ?]. lia. Qed.

Lemma on_midi_fader_moved_returns (channel : Z) (value : float) (z : Z) :
  py_int (PrimFloat.mul value 100) = Ret z ->
  returns (on_midi_fader_moved channel value).
Proof.
  intros Hz w. unfold on_midi_fader_moved, len_channel_strips.
  rewrite bind_gets.
  destruct ((0 <=? channel) && (channel <? _)) eqn:G;
    [| exists tt; reflexivity].
  apply guard_true in G.
  destruct (strip_at_run w channel G) as (strip & Hl & _).
  assert (Hs : ChannelStrip.set_fader_value strip value
               = Ret (ChannelStrip.mk (ChannelStrip.channel_idx strip)
                        (ChannelStrip.app_selector strip)
                        (ChannelStrip.is_muted strip)
                        (Z.max 0 (Z.min 100 z)))).
  { unfold ChannelStrip.set_fader_value. now rewrite Hz. }
  rewrite (bind_run _ _ _ _ _
             (with_strip_run w channel _ strip _ (proj1 G) Hl Hs)).
  set (w1 := with_channel_strips _ w).
  assert (G1 : 0 <= channel < Z.of_nat (length (channel_strips w1))).
  { unfold w1; simpl. rewrite length_insert. exact G. }
  destruct (strip_at_run w1 channel G1) as (strip1 & _ & Hr1).
  rewrite (bind_run _ _ _ _ _ Hr1).
  destruct (ChannelStrip.get_selected_session strip1).
  - destruct (set_volume_returns z0 value w1) as [[] H]. now exists tt.
  - exists tt. reflexivity.
Qed.

Lemma on_midi_button_pressed_returns (channel : Z) (state : bool) :
  channel <= 95 -> returns (on_midi_button_pressed channel state).
Proof.
  intros Hc w. unfold on_midi_button_pressed, len_channel_strips.
  rewrite bind_gets.
  destruct ((0 <=? channel) && (channel <? _)) eqn:G;
    [| exists tt; reflexivity].
  apply guard_true in G.
  destruct (strip_at_run w channel G) as (strip & Hl & Hr).
  rewrite (bind_run _ _ _ _ _ Hr).
  destruct (ChannelStrip.get_selected_session strip) as [idx |];
    [| exists tt; reflexivity].
  destruct (returns_run (toggle_mute idx) w (toggle_mute_returns idx))
    as [new Hnew].
  rewrite (bind_run _ _ _ _ _ Hnew).
  set (w1 := snd (toggle_mute idx w)).
  assert (Hl1 : channel_strips w1 !! Z.to_nat channel = Some strip).
  { unfold w1. now rewrite toggle_mute_keeps_strips. }
  rewrite (bind_run _ _ _ _ _
             (with_strip_run w1 channel
                (fun s => Ret (ChannelStrip.set_mute_state s new))
                strip _ (proj1 G) Hl1 eq_refl)).
  apply send_led_feedback_returns. lia.
Qed.

Lemma emit_returns_button (channel : Z) (state : bool) :
  channel <= 95 -> returns (emit (button_pressed channel state)).
Proof.
  intros H. unfold emit.
  apply returns_bind; [apply returns_log | intros _].
  now apply on_midi_button_pressed_returns.
Qed.

Lemma emit_keeps_handler s : keeps midi_handler (emit s).
Proof.
  unfold emit, on_raw_message_received. destruct s; frame;
    auto using on_midi_fader_moved_keeps_handler,
      on_midi_button_pressed_keeps_handler.
Qed.

(** A signal adds itself to the signals seen, and nothing else. *)
Lemma emit_signals s w :
  seen is_signal (snd (emit s w)) = seen is_signal w ++ [Emitted s].
Proof.
  unfold emit, bind.
  destruct (log (Emitted s) w) as [[[] | e] w1] eqn:E;
    [| discriminate E].
  assert (H1 : seen is_signal w1 = seen is_signal w ++ [Emitted s]).
  { pose proof (seen_log is_signal (Emitted s) w) as H.
    now rewrite E in H. }
  rewrite <- H1. destruct s.
  - apply on_midi_fader_moved_keeps_signals.
  - apply on_midi_button_pressed_keeps_signals.
  - reflexivity.
  - reflexivity.
Qed.

(** ** Decoded values

    Every data byte is checked by evaluation: the quotient is finite,
    its error against the rational [r/127] is at most [2^-52], and the
    quotients grow strictly with [r]. *)

Lemma data_bytes_forall (P : Z -> bool) :
  forallb P data_bytes = true -> forall r, 0 <= r <= 127 -> P r = true.
Proof.
  intros H r Hr. rewrite forallb_forall in H. apply H.
  unfold data_bytes. apply list_elem_of_In, list_elem_of_fmap.
  exists (Z.to_nat r). split; [lia |].
  apply elem_of_seq. lia.
Qed.

Lemma decoded_percent (r : Z) :
  0 <= r <= 127 ->
  exists z, py_int (PrimFloat.mul (py_truediv r 127) 100) = Ret z.
Proof.
  intros Hr.
  assert (H : percent_defined (py_truediv r 127) = true).
  { revert r Hr. apply data_bytes_forall. vm_compute. reflexivity. }
  unfold percent_defined in H.
  destruct (py_int _) as [z | e]; [now exists z | discriminate].
Qed.

Lemma decoded_near (r : Z) :
  0 <= r <= 127 -> near_quotient r (py_truediv r 127) = true.
Proof.
  revert r. apply data_bytes_forall. vm_compute. reflexivity.
Qed.

Lemma decoded_increasing (r r' : Z) :
  0 <= r <= 127 -> 0 <= r' <= 127 -> r < r' ->
  PrimFloat.ltb (py_truediv r 127) (py_truediv r' 127) = true.
Proof.
  intros Hr Hr' Hlt.
  assert (H : forallb
                (fun b => implb (r <? b)
                            (PrimFloat.ltb (py_truediv r 127)
                               (py_truediv b 127)))
                data_bytes = true).
  { revert r Hr Hlt. intros r Hr _. revert r Hr.
    apply data_bytes_forall. vm_compute. reflexivity. }
  pose proof (data_bytes_forall _ H r' Hr') as H'. simpl in H'.
  destruct (Z.ltb_spec r r'); [exact H' | lia].
Qed.

Lemma decoded_unit_interval (r : Z) :
  0 <= r <= 127 -> valid_level (py_truediv r 127) = true.
Proof.
  revert r. apply data_bytes_forall. vm_compute. reflexivity.
Qed.

(** ** Decoding *)

Lemma in_range_true (lo hi n : Z) :
  lo <= n <= hi -> (lo <=? n) && (n <=? hi) = true.
Proof. intros H. apply andb_true_iff. lia. Qed.

Lemma in_range_false (lo hi n : Z) :
  n < lo \/ hi < n -> (lo <=? n) && (n <=? hi) = false.
Proof. intros H. apply andb_false_iff. lia. Qed.

Lemma bind_lift_ret {A C} (a : A) (k : A -> M C) (w : World) :
  bind (lift (Ret a)) k w = k a w.
Proof. reflexivity. Qed.

Lemma bind_modify {C} (g : World -> World) (k : unit -> M C) (w : World) :
  bind (modify g) k w = k tt (g w).
Proof. reflexivity. Qed.

Lemma emit_fader_returns (channel r : Z) :
  0 <= r <= 127 -> returns (emit (fader_moved channel (py_truediv r 127))).
Proof.
  intros Hr. destruct (decoded_percent r Hr) as [z Hz]. unfold emit.
  apply returns_bind; [apply returns_log | intros _].
  exact (on_midi_fader_moved_returns channel _ z Hz).
Qed.

Lemma emit_knob_returns (channel : Z) (value : float) :
  returns (emit (knob_turned channel value)).
Proof.
  unfold emit. apply returns_bind; [apply returns_log | intros _].
  apply returns_ret.
Qed.

Lemma fader_message_run (w : World) (n r : Z) :
  length (MIDIHandler.fader_values (midi_handler w)) = 8%nat ->
  0 <= n <= 7 -> 0 <= r <= 127 ->
  exists w',
    process_control_change n r w = (Ret tt, w') /\
    seen is_signal w' =
      seen is_signal w ++ [Emitted (fader_moved n (py_truediv r 127))] /\
    midi_handler w' =
      set_fader_values
        (<[Z.to_nat n := py_truediv r 127]>
           (MIDIHandler.fader_values (midi_handler w)))
        (midi_handler w).
Proof.
  intros Hlen Hn Hr. unfold process_control_change.
  rewrite in_range_true by lia. cbv zeta. unfold handler.
  rewrite bind_gets, py_setitem_valid by lia.
  rewrite bind_lift_ret. unfold modify_handler. rewrite bind_modify.
  set (w1 := with_midi_handler _ w).
  destruct (returns_run _ w1 (emit_fader_returns n r Hr)) as [[] Hrun].
  eexists. split; [exact Hrun |]. split.
  - now rewrite emit_signals.
  - now rewrite emit_keeps_handler.
Qed.

Lemma knob_message_run (w : World) (n r : Z) :
  length (MIDIHandler.knob_values (midi_handler w)) = 8%nat ->
  16 <= n <= 23 ->
  exists w',
    process_control_change n r w = (Ret tt, w') /\
    seen is_signal w' =
      seen is_signal w ++ [Emitted (knob_turned (n - 16) (py_truediv r 127))] /\
    midi_handler w' =
      set_knob_values
        (<[Z.to_nat (n - 16) := py_truediv r 127]>
           (MIDIHandler.knob_values (midi_handler w)))
        (midi_handler w).
Proof.
  intros Hlen Hn. unfold process_control_change.
  rewrite (in_range_false 0 7) by lia.
  rewrite in_range_true by lia. cbv zeta. unfold handler.
  rewrite bind_gets, py_setitem_valid by lia.
  rewrite bind_lift_ret. unfold modify_handler. rewrite bind_modify.
  set (w1 := with_midi_handler _ w).
  destruct (returns_run _ w1
              (emit_knob_returns (n - 16) (py_truediv r 127))) as [[] Hrun].
  eexists. split; [exact Hrun |]. split.
  - now rewrite emit_signals.
  - now rewrite emit_keeps_handler.
Qed.

Lemma button_message_run (w : World) (n r : Z) (previous : bool) :
  32 <= n <= 39 ->
  MIDIHandler.button_states (midi_handler w) !! Z.to_nat (n - 32)
    = Some previous ->
  exists w',
    process_control_change n r w = (Ret tt, w') /\
    seen is_signal w' =
      seen is_signal w ++
        (if Bool.eqb previous (64 <=? r) then []
         else [Emitted (button_pressed (n - 32) (64 <=? r))]) /\
    midi_handler w' =
      set_button_states
        (<[Z.to_nat (n - 32) := (64 <=? r)]>
           (MIDIHandler.button_states (midi_handler w)))
        (midi_handler w) /\
    (Bool.eqb previous (64 <=? r) = true -> w' = w).
Proof.
  intros Hn Hprev. unfold process_control_change.
  rewrite (in_range_false 0 7) by lia.
  rewrite (in_range_false 16 23) by lia.
  rewrite in_range_true by lia. cbv zeta. unfold handler.
  rewrite bind_gets.
  assert (Hlen : 0 <= n - 32
                 < Z.of_nat (length (MIDIHandler.button_states (midi_handler w)))).
  { apply lookup_lt_Some in Hprev. lia. }
  destruct (py_getitem_valid _ _ Hlen) as (p & Hp & Hget).
  rewrite Hprev in Hp. injection Hp as <-.
  rewrite Hget, bind_lift_ret.
  destruct (Bool.eqb previous (64 <=? r)) eqn:E; simpl.
  - exists w. split; [reflexivity |]. split; [now rewrite app_nil_r |].
    split; [| reflexivity].
    apply Bool.eqb_prop in E. subst previous.
    rewrite list_insert_id by exact Hprev. now destruct (midi_handler w).
  - rewrite py_setitem_valid by lia.
    rewrite bind_lift_ret. unfold modify_handler. rewrite bind_modify.
    set (w1 := with_midi_handler _ w).
    assert (Hc : n - 32 <= 95) by lia.
    destruct (returns_run _ w1 (emit_returns_button (n - 32) (64 <=? r) Hc))
      as [[] Hrun].
    eexists. split; [exact Hrun |]. split; [now rewrite emit_signals |].
    split; [now rewrite emit_keeps_handler | discriminate].
Qed.

(** C6. With data byte [r] in 0..127: control number [n] in 0..7 emits
    exactly [fader_moved(n, r/127.0)] and remembers the value; [n] in
    16..23 emits exactly [knob_turned(n-16, r/127.0)]; [n] in 32..39
    remembers for channel [n-32] a boolean that is pressed iff [r >= 64]
    and emits nothing but [button_pressed(n-32, pressed)].  The float
    [r/127.0] lies within [2^-52] of the rational [r/127] and grows
    strictly with [r]. *)
Theorem process_control_change_decodes (w : World) (n r : Z) :
  handler_ok (midi_handler w) -> 0 <= r <= 127 ->
  (0 <= n <= 7 ->
   exists w',
     process_control_change n r w = (Ret tt, w') /\
     seen is_signal w' =
       seen is_signal w ++ [Emitted (fader_moved n (py_truediv r 127))] /\
     MIDIHandler.fader_values (midi_handler w') !! Z.to_nat n
       = Some (py_truediv r 127)) /\
  (16 <= n <= 23 ->
   exists w',
     process_control_change n r w = (Ret tt, w') /\
     seen is_signal w' =
       seen is_signal w ++
         [Emitted (knob_turned (n - 16) (py_truediv r 127))] /\
     MIDIHandler.knob_values (midi_handler w') !! Z.to_nat (n - 16)
       = Some (py_truediv r 127)) /\
  (32 <= n <= 39 ->
   exists w' pressed edges,
     (pressed = true <-> r >= 64) /\
     process_control_change n r w = (Ret tt, w') /\
     seen is_signal w' = seen is_signal w ++ edges /\
     (edges = [] \/ edges = [Emitted (button_pressed (n - 32) pressed)]) /\
     MIDIHandler.button_states (midi_handler w') !! Z.to_nat (n - 32)
       = Some pressed) /\
  near_quotient r (py_truediv r 127) = true /\
  (forall r', 0 <= r' <= 127 -> r < r' ->
     PrimFloat.ltb (py_truediv r 127) (py_truediv r' 127) = true).
Proof.
  intros (Hf & Hb & Hk) Hr. repeat split.
  - intros Hn.
    destruct (fader_message_run w n r Hf Hn Hr) as (w' & Hrun & Hs & Hh).
    exists w'. split; [exact Hrun |]. split; [exact Hs |].
    rewrite Hh. simpl. apply list_lookup_insert_eq. lia.
  - intros Hn.
    destruct (knob_message_run w n r Hk Hn) as (w' & Hrun & Hs & Hh).
    exists w'. split; [exact Hrun |]. split; [exact Hs |].
    rewrite Hh. simpl. apply list_lookup_insert_eq. lia.
  - intros Hn.
    destruct (lookup_lt_is_Some_2 (MIDIHandler.button_states (midi_handler w))
                (Z.to_nat (n - 32))) as [previous Hprev]; [lia |].
    destruct (button_message_run w n r previous Hn Hprev)
      as (w' & Hrun & Hs & Hh & _).
    exists w', (64 <=? r).
    exists (if Bool.eqb previous (64 <=? r) then []
            else [Emitted (button_pressed (n - 32) (64 <=? r))]).
    split; [rewrite Z.leb_le; lia |].
    split; [exact Hrun |]. split; [exact Hs |]. split.
    + destruct (Bool.eqb previous (64 <=? r)); [now left | now right].
    + rewrite Hh. simpl. apply list_lookup_insert_eq.
      apply lookup_lt_Some in Hprev. exact Hprev.
  - now apply decoded_near.
  - intros r' Hr' Hlt. now apply decoded_increasing.
Qed.

Lemma studio_handler_ok : handler_ok (midi_handler studio).
Proof. repeat split. Defined.

Lemma process_control_change_decodes_witness :
  exists w',
    process_control_change 3 100 studio = (Ret tt, w') /\
    seen is_signal w' = [Emitted (fader_moved 3 (py_truediv 100 127))].
Proof.
  assert (Hr : 0 <= 100 <= 127) by lia.
  assert (Hn : 0 <= 3 <= 7) by lia.
  destruct (process_control_change_decodes studio 3 100 studio_handler_ok Hr)
    as (Hfader & _).
  destruct (Hfader Hn) as (w' & Hrun & Hs & _).
  exists w'. split; [exact Hrun | exact Hs].
Defined.

(** C7. A control-change of a button channel emits an edge exactly when
    the decoded boolean differs from the one remembered for the channel,
    and remembers the decoded boolean; the same message processed again
    emits nothing and changes nothing, so two consecutive messages with
    the same raw value yield at most one edge. *)
Theorem button_debounce (w : World) (control value : Z) (previous : bool) :
  32 <= control <= 39 ->
  MIDIHandler.button_states (midi_handler w) !! Z.to_nat (control - 32)
    = Some previous ->
  exists w1,
    process_control_change control value w = (Ret tt, w1) /\
    seen is_signal w1 =
      seen is_signal w ++
        (if Bool.eqb previous (64 <=? value) then []
         else [Emitted (button_pressed (control - 32) (64 <=? value))]) /\
    MIDIHandler.button_states (midi_handler w1) !! Z.to_nat (control - 32)
      = Some (64 <=? value) /\
    process_control_change control value w1 = (Ret tt, w1).
Proof.
  intros Hn Hprev.
  destruct (button_message_run w control value previous Hn Hprev)
    as (w1 & Hrun & Hs & Hh & _).
  assert (H1 : MIDIHandler.button_states (midi_handler w1)
                 !! Z.to_nat (control - 32) = Some (64 <=? value)).
  { rewrite Hh. simpl. apply list_lookup_insert_eq.
    apply lookup_lt_Some in Hprev. exact Hprev. }
  exists w1. split; [exact Hrun |]. split; [exact Hs |].
  split; [exact H1 |].
  destruct (button_message_run w1 control value _ Hn H1)
    as (w2 & Hrun2 & _ & _ & Hsame).
  rewrite Hrun2. f_equal. apply Hsame. apply Bool.eqb_reflx.
Qed.

Lemma button_debounce_witness :
  exists w1,
    process_control_change 35 127 studio = (Ret tt, w1) /\
    seen is_signal w1 = [Emitted (button_pressed 3 true)] /\
    process_control_change 35 127 w1 = (Ret tt, w1).
Proof.
  assert (Hn : 32 <= 35 <= 39) by lia.
  assert (Hp : MIDIHandler.button_states (midi_handler studio)
                 !! Z.to_nat (35 - 32) = Some false) by reflexivity.
  destruct (button_debounce studio 35 127 false Hn Hp)
    as (w1 & Hrun & Hs & _ & Hagain).
  exists w1. split; [exact Hrun |]. split; [exact Hs | exact Hagain].
Defined.

(** C10. A control-change whose control number is in 8..15, in 24..31 or
    at least 40 returns at once: no signal is emitted and the whole
    state, the remembered fader values, knob values and button booleans
    included, is left as it was. *)
Theorem process_control_change_unmapped (w : World) (control value : Z) :
  8 <= control <= 15 \/ 24 <= control <= 31 \/ 40 <= control ->
  process_control_change control value w = (Ret tt, w).
Proof.
  intros H. unfold process_control_change.
  rewrite (in_range_false 0 7) by lia.
  rewrite (in_range_false 16 23) by lia.
  rewrite (in_range_false 32 39) by lia.
  reflexivity.
Qed.

Lemma process_control_change_unmapped_witness :
  process_control_change 12 99 studio = (Ret tt, studio).
Proof.
  apply (process_control_change_unmapped studio 12 99). lia.
Defined.

(** ** Connecting *)

Lemma close_keeps_remembered : keeps remembered close.
Proof. unfold close, handler, modify_handler. frame. Qed.

Lemma connect_device_keeps_remembered input output :
  keeps remembered (connect_device input output).
Proof.
  unfold connect_device, open_port, modify_handler, print.
  pose proof close_keeps_remembered. frame.
Qed.

(** C8, as the code has it. [connect_device] changes nothing of what the
    adapter remembers: the button booleans are what they were before the
    connect (only [__init__] sets them to not-pressed).  So the first
    press on a button channel after a connect -- any data byte of at
    least 64 -- produces an edge exactly when the boolean remembered for
    it from before is not-pressed. *)
Theorem connect_device_keeps_buttons (w : World) (input output : string)
  (channel value : Z) (previous : bool) :
  0 <= channel <= 7 ->
  64 <= value ->
  MIDIHandler.button_states (midi_handler w) !! Z.to_nat channel
    = Some previous ->
  let w1 := snd (connect_device input output w) in
  MIDIHandler.button_states (midi_handler w1)
    = MIDIHandler.button_states (midi_handler w) /\
  exists w2,
    process_control_change (32 + channel) value w1 = (Ret tt, w2) /\
    seen is_signal w2 =
      seen is_signal w1 ++
        (if previous then [] else [Emitted (button_pressed channel true)]).
Proof.
  intros Hc Hv Hprev w1.
  assert (Hk : MIDIHandler.button_states (midi_handler w1)
               = MIDIHandler.button_states (midi_handler w)).
  { pose proof (connect_device_keeps_remembered input output w) as H.
    unfold remembered in H. fold w1 in H. now injection H. }
  split; [exact Hk |].
  assert (Hn : 32 <= 32 + channel <= 39) by lia.
  assert (Hp : MIDIHandler.button_states (midi_handler w1)
                 !! Z.to_nat (32 + channel - 32) = Some previous).
  { rewrite Hk. now replace (32 + channel - 32) with channel by lia. }
  destruct (button_message_run w1 (32 + channel) value previous Hn Hp)
    as (w2 & Hrun & Hs & _).
  exists w2. split; [exact Hrun |]. rewrite Hs.
  replace (32 + channel - 32) with channel by lia.
  assert (Hst : (64 <=? value) = true) by now apply Z.leb_le.
  rewrite Hst. now destruct previous.
Qed.

Lemma connect_device_keeps_buttons_witness :
  exists w2,
    process_control_change 32 64
      (snd (connect_device nano nano studio_button_held)) = (Ret tt, w2) /\
    seen is_signal w2 =
      seen is_signal (snd (connect_device nano nano studio_button_held)).
Proof.
  assert (Hc : 0 <= 0 <= 7) by lia.
  assert (Hv : 64 <= 64) by lia.
  assert (Hp : MIDIHandler.button_states (midi_handler studio_button_held)
                 !! Z.to_nat 0 = Some true) by reflexivity.
  destruct (connect_device_keeps_buttons studio_button_held nano nano 0 64
              true Hc Hv Hp) as (_ & w2 & Hrun & Hs).
  exists w2. split; [exact Hrun |]. rewrite Hs. apply app_nil_r.
Defined.

(** C8, as the specification has it, fails: the surface was unplugged
    with the button of channel 0 held; after a successful connect the
    boolean is still pressed and the first press emits no edge. *)
Lemma connect_device_stale_button :
  fst (connect_device nano nano studio_button_held) = Ret true /\
  MIDIHandler.button_states
    (midi_handler (snd (connect_device nano nano studio_button_held)))
    !! 0%nat = Some true /\
  seen is_signal
    (snd (process_control_change 32 127
            (snd (connect_device nano nano studio_button_held)))) = [].
Proof. vm_compute. repeat split. Qed.

(** ** A release is handled like a press *)

(** C1, evaluated: a press and a release of the button of channel 0
    reach the loop as two edges; the slot toggles the mute of the bound
    stream on both and sends LED feedback on both, the second for the
    edge with [state = False]. *)
Theorem release_edge_toggles_mute :
  seen is_signal (snd (poll_messages studio_press_release)) =
    [Emitted (button_pressed 0 true);
     Emitted (raw_message_received (control_change 0 32 127));
     Emitted (button_pressed 0 false);
     Emitted (raw_message_received (control_change 0 32 0))] /\
  seen is_toggle_call (snd (poll_messages studio_press_release)) =
    [MixerCall m_toggle_mute 0; MixerCall m_toggle_mute 0] /\
  seen is_led (snd (poll_messages studio_press_release)) =
    [MidiOut 32 127; MidiOut 32 0] /\
  seen is_toggle_call (snd (on_midi_button_pressed 0 false studio)) =
    [MixerCall m_toggle_mute 0] /\
  seen is_led (snd (on_midi_button_pressed 0 false studio)) =
    [MidiOut 32 127].
Proof. vm_compute. repeat split. Qed.

(** The slot never reads [state]. *)
Lemma on_midi_button_pressed_ignores_state (channel : Z) (state : bool) :
  on_midi_button_pressed channel state = on_midi_button_pressed channel true.
Proof. reflexivity. Qed.

(** ** Bindings survive backend errors *)

Lemma emit_keeps_bindings s : keeps bindings (emit s).
Proof.
  unfold emit, on_raw_message_received. destruct s; frame;
    auto using on_midi_fader_moved_keeps_bindings,
      on_midi_button_pressed_keeps_bindings.
Qed.

Lemma process_control_change_keeps_bindings control value :
  keeps bindings (process_control_change control value).
Proof.
  pose proof emit_keeps_bindings.
  unfold process_control_change, handler, modify_handler. frame.
Qed.

Lemma poll_messages_keeps_bindings : keeps bindings poll_messages.
Proof.
  pose proof emit_keeps_bindings.
  pose proof process_control_change_keeps_bindings.
  unfold poll_messages, poll_one, handler. frame.
Qed.

Lemma reflect_audio_state_keeps_bindings : keeps bindings reflect_audio_state.
Proof.
  unfold reflect_audio_state, reflect_strip, strip_at. frame.
  apply with_strip_keeps_bindings. intros strip strip'.
  apply set_mute_state_selector.
Qed.

Lemma update_loop_keeps_bindings : keeps bindings update_loop.
Proof.
  unfold update_loop. apply keeps_bind.
  - apply poll_messages_keeps_bindings.
  - intros _. apply reflect_audio_state_keeps_bindings.
Qed.

(** A call on a session that has ended is caught and printed. *)
Lemma ended_session_is_printed (w : World) (idx : Z) (session : nat)
  (v : float) :
  0 <= idx ->
  WindowsAudioMixer.sessions (audio_mixer w) !! Z.to_nat idx = Some session ->
  os_store w !! session = None ->
  set_volume idx v w =
    (Ret tt,
     with_trace (trace w ++ [MixerCall m_set_volume idx;
                             Printed "Error setting volume"]) w) /\
  toggle_mute idx w =
    (Ret false,
     with_trace (trace w ++ [MixerCall m_toggle_mute idx;
                             Printed "Error toggling mute"]) w).
Proof.
  intros H0 Hl Hs.
  assert (Hr : 0 <= idx
               < Z.of_nat (length (WindowsAudioMixer.sessions (audio_mixer w)))).
  { apply lookup_lt_Some in Hl. lia. }
  destruct (py_getitem_valid _ _ Hr) as (x & Hx & Hg).
  rewrite Hl in Hx. injection Hx as <-.
  assert (Hm : (idx =? -1) = false) by (apply Z.eqb_neq; lia).
  assert (Hv : valid_session_idx
                 (WindowsAudioMixer.sessions (audio_mixer w)) idx = true).
  { unfold valid_session_idx. apply andb_true_iff.
    rewrite Z.leb_le, Z.ltb_lt. lia. }
  unfold set_volume, toggle_mute, mixer_sessions, QueryInterface,
    session_read, print, bind, try_except, log, modify, gets, lift, ret,
    with_trace.
  simpl. rewrite Hm. simpl. rewrite Hv, Hg. simpl. rewrite Hs. simpl.
  rewrite <- !app_assoc. split; reflexivity.
Qed.

(** C2, as the code has it. A backend error in [set_volume] or
    [toggle_mute] is caught inside the mixer and printed: on a control
    that cannot be reached the call records itself, prints its error
    message, returns ([toggle_mute] returns [False]) and changes nothing
    else.  Neither call ever raises or emits a signal, and neither the
    calls nor a whole tick -- any number of fader moves and button
    edges -- changes the binding of any slot.  There is no failure
    counter and nothing is unbound. *)
Theorem backend_errors_keep_bindings (w : World) (idx : Z) (v : float) :
  (exists w',
     set_volume idx v w = (Ret tt, w') /\ bindings w' = bindings w /\
     seen is_signal w' = seen is_signal w) /\
  (exists new w',
     toggle_mute idx w = (Ret new, w') /\ bindings w' = bindings w /\
     seen is_signal w' = seen is_signal w) /\
  (unreachable w idx = true ->
   set_volume idx v w =
     (Ret tt,
      with_trace (trace w ++ [MixerCall m_set_volume idx;
                              Printed "Error setting volume"]) w) /\
   toggle_mute idx w =
     (Ret false,
      with_trace (trace w ++ [MixerCall m_toggle_mute idx;
                              Printed "Error toggling mute"]) w)) /\
  bindings (snd (poll_messages w)) = bindings w /\
  bindings (snd (update_loop w)) = bindings w.
Proof.
  split; [| split; [| split; [| split]]].
  - destruct (returns_run _ w (set_volume_returns idx v)) as [[] Hrun].
    eexists. split; [exact Hrun |].
    split; [apply set_volume_keeps_bindings | apply set_volume_keeps_signals].
  - destruct (returns_run _ w (toggle_mute_returns idx)) as [new Hrun].
    eexists _, _. split; [exact Hrun |].
    split; [apply toggle_mute_keeps_bindings | apply toggle_mute_keeps_signals].
  - unfold unreachable, addressed.
    unfold set_volume, toggle_mute, mixer_sessions,
      SetMasterVolumeLevelScalar, master_GetMute, master_SetMute,
      QueryInterface, master_read, master_write, session_read, print, bind,
      try_except, log, modify, gets, lift, ret, raise, with_trace.
    simpl. destruct (idx =? -1); simpl.
    + destruct (os_master w); [discriminate |]. intros _.
      destruct (valid_level (c_float v)); simpl;
        rewrite <- !app_assoc; split; reflexivity.
    + destruct (valid_session_idx _ idx); simpl; [| discriminate].
      destruct (py_getitem _ idx) as [session | e]; simpl.
      * destruct (os_store w !! session); [discriminate |]. intros _.
        simpl. rewrite <- !app_assoc. split; reflexivity.
      * intros _. simpl. rewrite <- !app_assoc. split; reflexivity.
  - apply poll_messages_keeps_bindings.
  - apply update_loop_keeps_bindings.
Qed.

Lemma backend_errors_keep_bindings_witness :
  set_volume 0 0.5%float studio_browser_closed =
    (Ret tt,
     with_trace
       (trace studio_browser_closed ++
          [MixerCall m_set_volume 0; Printed "Error setting volume"])
       studio_browser_closed) /\
  toggle_mute 0 studio_browser_closed =
    (Ret false,
     with_trace
       (trace studio_browser_closed ++
          [MixerCall m_toggle_mute 0; Printed "Error toggling mute"])
       studio_browser_closed).
Proof.
  assert (H : unreachable studio_browser_closed 0 = true) by reflexivity.
  exact (proj1 (proj2 (proj2
           (backend_errors_keep_bindings studio_browser_closed 0 0.5%float)))
           H).
Defined.

(** C2, as the specification has it, fails: three fader moves in a row
    fail on the session bound to slot 0, and the slot is still bound. *)
Lemma three_failures_stay_bound :
  seen is_error (snd (poll_messages studio_three_moves)) =
    [Printed "Error setting volume"; Printed "Error setting volume";
     Printed "Error setting volume"] /\
  bindings studio_three_moves !! 0%nat = Some (Some 0) /\
  bindings (snd (poll_messages studio_three_moves)) !! 0%nat = Some (Some 0).
Proof. vm_compute. repeat split. Qed.

(** ** The reconciliation pass *)

(** [is_muted] returns the flag the registry holds. *)
Lemma is_muted_value (w : World) (idx : Z) :
  fst (is_muted idx w) = Ret (registry_mute w idx).
Proof.
  unfold is_muted, registry_mute, mixer_sessions, master_GetMute,
    QueryInterface, GetMute, master_read, session_read, print, bind,
    try_except, log, modify, gets, lift, ret, with_trace.
  simpl. destruct (idx =? -1); simpl.
  - now destruct (os_master w).
  - destruct (valid_session_idx _ idx); simpl; [| reflexivity].
    destruct (py_getitem _ idx) as [session | e]; simpl; [| reflexivity].
    destruct (os_store w !! session) eqn:E; simpl; [| reflexivity].
    now rewrite E.
Qed.

Lemma registry_mute_ext (w1 w2 : World) (idx : Z) :
  audio_state w1 = audio_state w2 -> audio_mixer w1 = audio_mixer w2 ->
  registry_mute w1 idx = registry_mute w2 idx.
Proof.
  unfold audio_state, registry_mute. intros [= Hs Hm] Ha.
  now rewrite Hs, Hm, Ha.
Qed.

Lemma reflected_ext (w1 w2 : World) (strip : ChannelStrip.t) :
  audio_state w1 = audio_state w2 -> audio_mixer w1 = audio_mixer w2 ->
  reflected w1 strip = reflected w2 strip.
Proof.
  intros Hs Ha. unfold reflected.
  destruct (ChannelStrip.get_selected_session strip); [| reflexivity].
  now rewrite (registry_mute_ext w1 w2).
Qed.

Lemma set_mute_state_same (strip : ChannelStrip.t) :
  ChannelStrip.set_mute_state strip (ChannelStrip.is_muted strip) = strip.
Proof. now destruct strip. Qed.

Lemma reflect_strip_run (w : World) (i : nat) (strip : ChannelStrip.t) :
  channel_strips w !! i = Some strip ->
  exists w',
    reflect_strip i w = (Ret tt, w') /\
    channel_strips w' = <[i := reflected w strip]> (channel_strips w) /\
    audio_state w' = audio_state w /\
    audio_mixer w' = audio_mixer w.
Proof.
  intros Hl.
  assert (Hr : 0 <= Z.of_nat i < Z.of_nat (length (channel_strips w))).
  { apply lookup_lt_Some in Hl. lia. }
  destruct (strip_at_run w _ Hr) as (s & Hs & Hrun).
  rewrite Nat2Z.id in Hs. rewrite Hl in Hs. injection Hs as <-.
  unfold reflect_strip, reflected. rewrite (bind_run _ _ _ _ _ Hrun).
  destruct (ChannelStrip.get_selected_session strip) as [idx |].
  - destruct (returns_run _ w (is_muted_returns idx)) as [muted Hm].
    assert (Hv : muted = registry_mute w idx).
    { pose proof (is_muted_value w idx) as H. rewrite Hm in H.
      now injection H. }
    subst muted. rewrite (bind_run _ _ _ _ _ Hm).
    set (w1 := snd (is_muted idx w)).
    assert (H1 : channel_strips w1 = channel_strips w)
      by apply is_muted_keeps_strips.
    assert (H2 : audio_state w1 = audio_state w)
      by apply is_muted_keeps_audio.
    assert (H3 : audio_mixer w1 = audio_mixer w)
      by apply is_muted_keeps_mixer.
    destruct (Bool.eqb (registry_mute w idx) (ChannelStrip.is_muted strip))
      eqn:E; simpl.
    + exists w1. split; [reflexivity |]. split; [| now split].
      apply Bool.eqb_prop in E. rewrite E, set_mute_state_same, H1.
      symmetry. now apply list_insert_id.
    + assert (Hl1 : channel_strips w1 !! Z.to_nat (Z.of_nat i) = Some strip).
      { now rewrite Nat2Z.id, H1. }
      rewrite (with_strip_run w1 (Z.of_nat i)
                 (fun s => Ret (ChannelStrip.set_mute_state s
                                  (registry_mute w idx)))
                 strip _ (proj1 Hr) Hl1 eq_refl).
      eexists. split; [reflexivity |]. simpl.
      rewrite Nat2Z.id, H1. now split.
  - exists w. split; [reflexivity |]. split; [| now split].
    symmetry. now apply list_insert_id.
Qed.

Lemma reflect_loop (w0 : World) (m : nat) :
  forall (k : nat) (w : World),
    (k + m)%nat = length (channel_strips w) ->
    audio_state w = audio_state w0 -> audio_mixer w = audio_mixer w0 ->
    exists w',
      for_each (seq k m) reflect_strip w = (Ret tt, w') /\
      (forall i strip,
         channel_strips w !! i = Some strip ->
         channel_strips w' !! i =
           Some (if decide (k <= i)%nat then reflected w0 strip else strip)).
Proof.
  induction m as [| m IH]; intros k w Hlen Hs Ha; simpl.
  - exists w. split; [reflexivity |]. intros i strip Hl.
    apply lookup_lt_Some in Hl as Hlt.
    destruct (decide (k <= i)%nat); [lia | exact Hl].
  - destruct (lookup_lt_is_Some_2 (channel_strips w) k) as [s Hk]; [lia |].
    destruct (reflect_strip_run w k s Hk) as (w1 & Hrun & H1 & H2 & H3).
    rewrite (bind_run _ _ _ _ _ Hrun).
    rewrite (reflected_ext w w0 s Hs Ha) in H1.
    destruct (IH (S k) w1) as (w' & Hrun' & Hall).
    + rewrite H1, length_insert. lia.
    + now rewrite H2.
    + now rewrite H3.
    + exists w'. split; [exact Hrun' |]. intros i strip Hl.
      destruct (decide (i = k)) as [-> | Hne].
      * rewrite Hl in Hk. injection Hk as <-.
        rewrite (Hall k (reflected w0 strip)).
        -- destruct (decide (S k <= k)%nat); [lia |].
           destruct (decide (k <= k)%nat); [reflexivity | lia].
        -- rewrite H1. apply list_lookup_insert_eq.
           now apply lookup_lt_Some in Hl.
      * rewrite (Hall i strip).
        -- destruct (decide (S k <= i)%nat), (decide (k <= i)%nat);
             try reflexivity; lia.
        -- rewrite H1. rewrite list_lookup_insert_ne by congruence.
           exact Hl.
Qed.

Lemma reflect_audio_state_keeps_leds : keeps (seen is_led) reflect_audio_state.
Proof. unfold reflect_audio_state, reflect_strip, strip_at. frame. Qed.

Lemma reflect_audio_state_keeps_toggle_calls :
  keeps (seen is_toggle_call) reflect_audio_state.
Proof. unfold reflect_audio_state, reflect_strip, strip_at. frame. Qed.

Lemma reflect_audio_state_keeps_audio : keeps audio_state reflect_audio_state.
Proof. unfold reflect_audio_state, reflect_strip, strip_at. frame. Qed.

(** C5, as the code has it. The reconciliation pass of a tick sets the
    cached mute of every bound slot to the flag the registry holds for
    its stream; it sends no LED message, never calls [toggle_mute] and
    leaves the audio state as it is. *)
Theorem reflect_audio_state_updates_cache (w : World) (i : nat)
  (strip : ChannelStrip.t) (session_idx : Z) :
  channel_strips w !! i = Some strip ->
  ChannelStrip.get_selected_session strip = Some session_idx ->
  exists w',
    reflect_audio_state w = (Ret tt, w') /\
    channel_strips w' !! i =
      Some (ChannelStrip.set_mute_state strip (registry_mute w session_idx)) /\
    seen is_led w' = seen is_led w /\
    seen is_toggle_call w' = seen is_toggle_call w /\
    audio_state w' = audio_state w.
Proof.
  intros Hl Hsel.
  destruct (reflect_loop w (length (channel_strips w)) 0%nat w)
    as (w' & Hrun & Hall); [reflexivity | reflexivity | reflexivity |].
  assert (Hrun' : reflect_audio_state w = (Ret tt, w')).
  { unfold reflect_audio_state. now rewrite bind_gets. }
  exists w'. split; [exact Hrun' |]. split.
  - rewrite (Hall i strip Hl).
    destruct (decide (0 <= i)%nat); [| lia].
    unfold reflected. now rewrite Hsel.
  - replace w' with (snd (reflect_audio_state w)) by now rewrite Hrun'.
    split; [apply reflect_audio_state_keeps_leds |].
    split; [apply reflect_audio_state_keeps_toggle_calls |].
    apply reflect_audio_state_keeps_audio.
Qed.

Lemma reflect_audio_state_updates_cache_witness :
  exists w',
    reflect_audio_state studio_player_muted = (Ret tt, w') /\
    ChannelStrip.is_muted <$> channel_strips w' !! 3%nat = Some true /\
    seen is_led w' = [].
Proof.
  assert (Hl : channel_strips studio_player_muted !! 3%nat
               = Some (ChannelStrip.mk 3 (Some 2) false 0)) by reflexivity.
  destruct (reflect_audio_state_updates_cache studio_player_muted 3
              (ChannelStrip.mk 3 (Some 2) false 0) 2 Hl eq_refl)
    as (w' & Hrun & Hc & Hled & _).
  exists w'. split; [exact Hrun |]. split; [| exact Hled].
  rewrite Hc. reflexivity.
Defined.

(** C5, as the specification has it, fails: the player muted itself;
    the next tick updates the cache of slot 3 and sends no LED message,
    although the output port is open. *)
Lemma external_mute_sends_no_led :
  MIDIHandler.midi_out (midi_handler studio_player_muted) = Some nano /\
  ChannelStrip.is_muted <$> channel_strips studio_player_muted !! 3%nat
    = Some false /\
  registry_mute studio_player_muted 2 = true /\
  fst (update_loop studio_player_muted) = Ret tt /\
  ChannelStrip.is_muted <$>
    channel_strips (snd (update_loop studio_player_muted)) !! 3%nat
    = Some true /\
  seen is_led (snd (update_loop studio_player_muted)) = [].
Proof. vm_compute. repeat split. Qed.

(** ** LED feedback *)

Lemma send_led_feedback_run (w : World) (button_idx : Z) (state : bool)
  (port : string) :
  0 <= button_idx <= 7 ->
  MIDIHandler.midi_out (midi_handler w) = Some port ->
  send_led_feedback button_idx state w =
    (Ret tt,
     with_trace
       (trace w ++ [MidiOut (32 + button_idx) (if state then 127 else 0)]) w).
Proof.
  intros Hb Hp. unfold send_led_feedback, handler.
  rewrite bind_gets, Hp. rewrite in_range_true by lia. reflexivity.
Qed.

(** C4, as the code has it. Every button edge handled for a bound slot
    while the output port is open sends exactly one LED message: control
    [32 + channel], value 127 when [toggle_mute] returned [True] and 0
    otherwise; the cached mute becomes the returned value.  What was
    sent before plays no part.  The fader slot and the reconciliation
    pass send no LED message. *)
Theorem button_edge_sends_led (w : World) (channel : Z) (state : bool)
  (strip : ChannelStrip.t) (session_idx : Z) (port : string) :
  0 <= channel <= 7 ->
  channel_strips w !! Z.to_nat channel = Some strip ->
  ChannelStrip.get_selected_session strip = Some session_idx ->
  MIDIHandler.midi_out (midi_handler w) = Some port ->
  (exists new w1 w',
     toggle_mute session_idx w = (Ret new, w1) /\
     on_midi_button_pressed channel state w = (Ret tt, w') /\
     seen is_led w' =
       seen is_led w ++ [MidiOut (32 + channel) (if new then 127 else 0)] /\
     channel_strips w' !! Z.to_nat channel
       = Some (ChannelStrip.set_mute_state strip new)) /\
  (forall value,
     seen is_led (snd (on_midi_fader_moved channel value w)) = seen is_led w) /\
  seen is_led (snd (reflect_audio_state w)) = seen is_led w.
Proof.
  intros Hc Hl Hsel Hp. split.
  - assert (G : 0 <= channel < Z.of_nat (length (channel_strips w))).
    { apply lookup_lt_Some in Hl. lia. }
    destruct (strip_at_run w channel G) as (s & Hs & Hr).
    rewrite Hl in Hs. injection Hs as <-.
    destruct (returns_run _ w (toggle_mute_returns session_idx))
      as [new Hnew].
    set (w1 := snd (toggle_mute session_idx w)) in *.
    assert (Hl1 : channel_strips w1 !! Z.to_nat channel = Some strip).
    { unfold w1. now rewrite toggle_mute_keeps_strips. }
    assert (Hp1 : MIDIHandler.midi_out (midi_handler w1) = Some port).
    { unfold w1. now rewrite toggle_mute_keeps_handler. }
    assert (Hled1 : seen is_led w1 = seen is_led w)
      by apply toggle_mute_keeps_leds.
    exists new, w1. eexists. split; [exact Hnew |].
    unfold on_midi_button_pressed, len_channel_strips.
    rewrite bind_gets.
    destruct (Z.leb_spec 0 channel); [| lia].
    destruct (Z.ltb_spec channel (Z.of_nat (length (channel_strips w))));
      [| lia].
    simpl. rewrite (bind_run _ _ _ _ _ Hr), Hsel.
    rewrite (bind_run _ _ _ _ _ Hnew).
    rewrite (bind_run _ _ _ _ _
               (with_strip_run w1 channel
                  (fun s => Ret (ChannelStrip.set_mute_state s new))
                  strip _ (proj1 G) Hl1 eq_refl)).
    set (w2 := with_channel_strips _ w1).
    rewrite (send_led_feedback_run w2 channel new port Hc Hp1).
    split; [reflexivity |]. split.
    + unfold seen; simpl. rewrite List.filter_app. simpl.
      fold (seen is_led w1). now rewrite Hled1.
    + simpl. apply list_lookup_insert_eq.
      now apply lookup_lt_Some in Hl1.
  - split.
    + intros value. apply on_midi_fader_moved_keeps_leds.
    + apply reflect_audio_state_keeps_leds.
Qed.

Lemma button_edge_sends_led_witness :
  exists w',
    on_midi_button_pressed 3 true studio = (Ret tt, w') /\
    exists new : bool,
      seen is_led w' = [MidiOut 35 (if new then 127 else 0)].
Proof.
  assert (Hc : 0 <= 3 <= 7) by lia.
  assert (Hl : channel_strips studio !! Z.to_nat 3
               = Some (ChannelStrip.mk 3 (Some 2) false 0)) by reflexivity.
  assert (Hp : MIDIHandler.midi_out (midi_handler studio) = Some nano)
    by reflexivity.
  destruct (button_edge_sends_led studio 3 true
              (ChannelStrip.mk 3 (Some 2) false 0) 2 nano Hc Hl
              (eq_refl (Some 2)) Hp)
    as ((new & w1 & w' & _ & Hrun & Hled & _) & _).
  exists w'. split; [exact Hrun |]. exists new. exact Hled.
Defined.

(** C4, as the specification has it, fails.  The button of channel 3
    mutes the player and lights the LED; the player unmutes itself and
    the next tick brings the cache back to unmuted without a word to the
    surface; the next press mutes again and sends "lit" a second time,
    to an LED whose last state sent was "lit". *)
Lemma led_sent_twice :
  let w1 := snd (on_midi_button_pressed 3 true studio) in
  let w2 := snd (update_loop (player_unmutes w1)) in
  let w3 := snd (on_midi_button_pressed 3 true w2) in
  seen is_led w1 = [MidiOut 35 127] /\
  seen is_led w2 = [MidiOut 35 127] /\
  ChannelStrip.is_muted <$> channel_strips w2 !! 3%nat = Some false /\
  ChannelStrip.is_muted <$> channel_strips w3 !! 3%nat = Some true /\
  seen is_led w3 = [MidiOut 35 127; MidiOut 35 127].
Proof. vm_compute. repeat split. Qed.

(** * Further properties *)

(** ** The mixer on a control that can be reached *)

Lemma addressed_cases (w : World) (idx : Z) (c : AudioCtl) :
  addressed w idx = Some c ->
  ((idx =? -1) = true /\ os_master w = Some c) \/
  ((idx =? -1) = false /\
   exists session s,
     valid_session_idx (WindowsAudioMixer.sessions (audio_mixer w)) idx = true /\
     py_getitem (WindowsAudioMixer.sessions (audio_mixer w)) idx = Ret session /\
     os_store w !! session = Some s /\ session_ctl s = c).
Proof.
  unfold addressed. destruct (idx =? -1); [now left |].
  destruct (valid_session_idx _ idx) eqn:Hv; [| discriminate].
  destruct (py_getitem _ idx) as [session | e] eqn:Hg; [| discriminate].
  destruct (os_store w !! session) as [s |] eqn:Hs; [| discriminate].
  intros [= <-]. right. split; [reflexivity |]. now exists session, s.
Qed.

Ltac unfold_mixer :=
  unfold set_volume, get_volume, toggle_mute, is_muted, mixer_sessions,
    SetMasterVolumeLevelScalar, GetMasterVolumeLevelScalar, master_GetMute,
    master_SetMute, QueryInterface, SetMasterVolume, GetMasterVolume,
    GetMute, SetMute, master_read, master_write, session_read,
    session_write, print, bind, try_except, log, modify, gets, lift, ret,
    raise, called, with_trace, with_os_store, with_os_master, write_ctl,
    audio_state, program_state.

Lemma toggle_mute_run (w : World) (idx : Z) (c : AudioCtl) :
  addressed w idx = Some c ->
  exists w',
    toggle_mute idx w = (Ret (negb (ctl_mute c)), w') /\
    audio_state w' = write_ctl w idx (set_ctl_mute (negb (ctl_mute c)) c) /\
    program_state w' = program_state w /\
    trace w' = trace w ++ [MixerCall m_toggle_mute idx].
Proof.
  intros H.
  destruct (addressed_cases w idx c H)
    as [[Hm Hc] | (Hm & session & s & Hv & Hg & Hs & <-)].
  - unfold_mixer. simpl. rewrite Hm. simpl. rewrite Hc. simpl.
    eexists. repeat split.
  - unfold_mixer. simpl. rewrite Hm. simpl. rewrite Hv, Hg. simpl.
    rewrite Hs. simpl. rewrite Hs. simpl. rewrite Hs. simpl.
    eexists. repeat split.
Qed.

Lemma set_volume_run (w : World) (idx : Z) (c : AudioCtl) (v : float) :
  addressed w idx = Some c -> valid_level (c_float v) = true ->
  exists w',
    set_volume idx v w = (Ret tt, w') /\
    audio_state w' = write_ctl w idx (set_ctl_volume (c_float v) c) /\
    program_state w' = program_state w /\
    trace w' = trace w ++ [MixerCall m_set_volume idx].
Proof.
  intros H Hl.
  destruct (addressed_cases w idx c H)
    as [[Hm Hc] | (Hm & session & s & Hv & Hg & Hs & <-)].
  - unfold_mixer. simpl. rewrite Hm, Hl. simpl. rewrite Hc. simpl.
    eexists. repeat split.
  - unfold_mixer. simpl. rewrite Hm. simpl. rewrite Hv, Hg. simpl.
    rewrite Hs, Hl. simpl. rewrite Hs. simpl.
    eexists. repeat split.
Qed.

Lemma get_volume_run (w : World) (idx : Z) (c : AudioCtl) :
  addressed w idx = Some c ->
  get_volume idx w = (Ret (ctl_volume c), called m_get_volume idx w).
Proof.
  intros H.
  destruct (addressed_cases w idx c H)
    as [[Hm Hc] | (Hm & session & s & Hv & Hg & Hs & <-)].
  - unfold_mixer. simpl. rewrite Hm. simpl. now rewrite Hc.
  - unfold_mixer. simpl. rewrite Hm. simpl. rewrite Hv, Hg. simpl.
    rewrite Hs. simpl. now rewrite Hs.
Qed.

Lemma is_muted_run (w : World) (idx : Z) (c : AudioCtl) :
  addressed w idx = Some c ->
  is_muted idx w = (Ret (ctl_mute c), called m_is_muted idx w).
Proof.
  intros H.
  destruct (addressed_cases w idx c H)
    as [[Hm Hc] | (Hm & session & s & Hv & Hg & Hs & <-)].
  - unfold_mixer. simpl. rewrite Hm. simpl. now rewrite Hc.
  - unfold_mixer. simpl. rewrite Hm. simpl. rewrite Hv, Hg. simpl.
    rewrite Hs. simpl. now rewrite Hs.
Qed.

(** After a write the identifier addresses what was written. *)
Lemma addressed_write (w w' : World) (idx : Z) (c0 c : AudioCtl) :
  addressed w idx = Some c0 ->
  audio_state w' = write_ctl w idx c ->
  audio_mixer w' = audio_mixer w ->
  addressed w' idx = Some c.
Proof.
  intros H Hw Ha.
  destruct (addressed_cases w idx c0 H)
    as [[Hm Hc] | (Hm & session & s & Hv & Hg & Hs & <-)];
    unfold addressed, write_ctl, audio_state in *; rewrite Ha, Hm in *.
  - now injection Hw as _ ->.
  - rewrite Hv, Hg, Hs in *. injection Hw as -> _.
    now rewrite lookup_insert_eq.
Qed.

(** Writing back the old control restores the audio state. *)
Lemma write_ctl_restore (w w1 : World) (idx : Z) (c c1 : AudioCtl) :
  addressed w idx = Some c ->
  audio_state w1 = write_ctl w idx c1 ->
  audio_mixer w1 = audio_mixer w ->
  write_ctl w1 idx c = audio_state w.
Proof.
  intros H Hw Ha.
  destruct (addressed_cases w idx c H)
    as [[Hm Hc] | (Hm & session & s & Hv & Hg & Hs & <-)];
    unfold write_ctl, audio_state in *; rewrite Ha, Hm in *.
  - injection Hw as -> _. now rewrite Hc.
  - rewrite Hg, Hs in *. injection Hw as -> ->.
    rewrite lookup_insert_eq. simpl. rewrite insert_insert_eq.
    f_equal. apply insert_id. rewrite Hs. now destruct s.
Qed.

Lemma program_state_mixer (w w' : World) :
  program_state w' = program_state w -> audio_mixer w' = audio_mixer w.
Proof. unfold program_state. now intros [= _ -> _ _]. Qed.

Lemma set_ctl_mute_back (c : AudioCtl) (b : bool) :
  set_ctl_mute (ctl_mute c) (set_ctl_mute b c) = c.
Proof. now destruct c. Qed.

(** X1. On a control that can be reached, [toggle_mute] returns the
    negation of the current mute flag and [is_muted] then returns that
    value; a second [toggle_mute] returns the original flag and leaves
    the audio state exactly as it was before the first. *)
Theorem toggle_mute_involution (w : World) (idx : Z) (c : AudioCtl) :
  addressed w idx = Some c ->
  exists w1 w2,
    toggle_mute idx w = (Ret (negb (ctl_mute c)), w1) /\
    fst (is_muted idx w1) = Ret (negb (ctl_mute c)) /\
    toggle_mute idx w1 = (Ret (ctl_mute c), w2) /\
    audio_state w2 = audio_state w.
Proof.
  intros H.
  destruct (toggle_mute_run w idx c H) as (w1 & Hrun1 & Hw1 & Hp1 & _).
  pose proof (program_state_mixer _ _ Hp1) as Ha1.
  pose proof (addressed_write w w1 idx c _ H Hw1 Ha1) as H1.
  destruct (toggle_mute_run w1 idx _ H1) as (w2 & Hrun2 & Hw2 & _ & _).
  simpl in Hrun2, Hw2. rewrite Bool.negb_involutive in Hrun2, Hw2.
  exists w1, w2. split; [exact Hrun1 |]. split.
  - now rewrite (is_muted_run w1 idx _ H1).
  - split; [exact Hrun2 |].
    rewrite Hw2, set_ctl_mute_back.
    exact (write_ctl_restore w w1 idx c _ H Hw1 Ha1).
Qed.

Lemma studio_addresses_player :
  addressed studio 2 = Some (mkCtl 1%float false).
Proof. reflexivity. Defined.

Lemma toggle_mute_involution_witness :
  exists w1 w2,
    toggle_mute 2 studio = (Ret true, w1) /\
    toggle_mute 2 w1 = (Ret false, w2) /\
    audio_state w2 = audio_state studio.
Proof.
  destruct (toggle_mute_involution studio 2 _ studio_addresses_player)
    as (w1 & w2 & H1 & _ & H2 & H3).
  exists w1, w2. split; [exact H1 |]. split; [exact H2 | exact H3].
Defined.

(** X2. On a control that can be reached, [set_volume] with a volume
    whose single-precision rounding is in [0,1] makes [get_volume] read
    back that rounding -- the volume itself when it is a single-precision
    number -- and leaves the mute flag of the control untouched. *)
Theorem set_volume_get_volume (w : World) (idx : Z) (c : AudioCtl)
  (v : float) :
  addressed w idx = Some c -> valid_level (c_float v) = true ->
  exists w1,
    set_volume idx v w = (Ret tt, w1) /\
    fst (get_volume idx w1) = Ret (c_float v) /\
    fst (is_muted idx w1) = Ret (ctl_mute c) /\
    (c_float v = v -> fst (get_volume idx w1) = Ret v).
Proof.
  intros H Hl.
  destruct (set_volume_run w idx c v H Hl) as (w1 & Hrun & Hw & Hp & _).
  pose proof (addressed_write w w1 idx c _ H Hw (program_state_mixer _ _ Hp))
    as H1.
  exists w1. split; [exact Hrun |].
  rewrite (get_volume_run w1 idx _ H1), (is_muted_run w1 idx _ H1).
  simpl. repeat split. intros Hv. now rewrite Hv.
Qed.

Lemma set_volume_get_volume_witness :
  exists w1,
    set_volume 2 (py_truediv 100 127) studio = (Ret tt, w1) /\
    fst (get_volume 2 w1) = Ret (c_float (py_truediv 100 127)) /\
    c_float (py_truediv 100 127) <> py_truediv 100 127.
Proof.
  assert (Hl : valid_level (c_float (py_truediv 100 127)) = true)
    by (vm_compute; reflexivity).
  destruct (set_volume_get_volume studio 2 _ (py_truediv 100 127)
              studio_addresses_player Hl)
    as (w1 & H1 & H2 & _).
  exists w1. split; [exact H1 |]. split; [exact H2 |].
  intros E.
  assert (Hb : PrimFloat.eqb (c_float (py_truediv 100 127))
                 (py_truediv 100 127) = true)
    by (rewrite E; vm_compute; reflexivity).
  vm_compute in Hb. discriminate Hb.
Defined.

Lemma valid_getitem (l : list nat) (idx : Z) (session : nat) :
  valid_session_idx l idx = true -> py_getitem l idx = Ret session ->
  0 <= idx /\ l !! Z.to_nat idx = Some session.
Proof.
  unfold valid_session_idx. intros Hv Hg. apply guard_true in Hv.
  destruct (py_getitem_valid l idx Hv) as (x & Hx & Hg').
  rewrite Hg in Hg'. injection Hg' as ->. split; [lia | exact Hx].
Qed.

Lemma set_volume_one_write (w : World) (idx : Z) (v : float) :
  one_write w (snd (set_volume idx v w)) idx.
Proof.
  unfold one_write. unfold_mixer. simpl.
  destruct (idx =? -1) eqn:Hm; simpl.
  - apply Z.eqb_eq in Hm.
    destruct (valid_level (c_float v)); simpl; [| now left].
    destruct (os_master w); simpl; [| now left].
    right. left. now split.
  - destruct (valid_session_idx _ idx) eqn:Hv; simpl; [| now left].
    destruct (py_getitem _ idx) as [session | e] eqn:Hg; simpl; [| now left].
    destruct (os_store w !! session) as [s |] eqn:Hs; simpl; [| now left].
    destruct (valid_level (c_float v)); simpl; [| now left].
    rewrite ?Hs. simpl.
    destruct (valid_getitem _ _ _ Hv Hg) as [H0 Hl].
    right. right. split; [exact H0 |]. split; [reflexivity |].
    eexists _, _. split; [exact Hl | reflexivity].
Qed.

Lemma toggle_mute_one_write (w : World) (idx : Z) :
  one_write w (snd (toggle_mute idx w)) idx.
Proof.
  unfold one_write. unfold_mixer. simpl.
  destruct (idx =? -1) eqn:Hm; simpl.
  - apply Z.eqb_eq in Hm.
    destruct (os_master w) eqn:Hc; simpl; [| now left].
    rewrite ?Hc. simpl.
    right. left. now split.
  - destruct (valid_session_idx _ idx) eqn:Hv; simpl; [| now left].
    destruct (py_getitem _ idx) as [session | e] eqn:Hg; simpl; [| now left].
    destruct (os_store w !! session) as [s |] eqn:Hs; simpl; [| now left].
    rewrite ?Hs. simpl. rewrite ?Hs. simpl.
    destruct (valid_getitem _ _ _ Hv Hg) as [H0 Hl].
    right. right. split; [exact H0 |]. split; [reflexivity |].
    eexists _, _. split; [exact Hl | reflexivity].
Qed.

Lemma one_write_other (w w' : World) (idx : Z) (other : nat) :
  one_write w w' idx ->
  (0 <= idx ->
   WindowsAudioMixer.sessions (audio_mixer w) !! Z.to_nat idx <> Some other) ->
  os_store w' !! other = os_store w !! other.
Proof.
  intros [H | [[_ H] | (H0 & _ & session & s & Hl & H)]] Hne.
  - unfold audio_state in H. now injection H as -> _.
  - now rewrite H.
  - rewrite H. apply lookup_insert_ne. intros ->. now apply Hne.
Qed.

Lemma one_write_master (w w' : World) (idx : Z) :
  one_write w w' idx -> idx <> -1 -> os_master w' = os_master w.
Proof.
  intros [H | [[Hm _] | (_ & H & _)]] Hne.
  - unfold audio_state in H. now injection H as _ ->.
  - contradiction.
  - exact H.
Qed.

(** X3. [set_volume] and [toggle_mute] on an identifier change at most
    the control it names: the volume and mute of every other session
    are what they were, and so are the master's unless the identifier is
    the master's own. *)
Theorem mixer_touches_one_control (w : World) (idx : Z) (v : float)
  (other : nat) :
  (0 <= idx ->
   WindowsAudioMixer.sessions (audio_mixer w) !! Z.to_nat idx <> Some other) ->
  os_store (snd (set_volume idx v w)) !! other = os_store w !! other /\
  os_store (snd (toggle_mute idx w)) !! other = os_store w !! other /\
  (idx <> -1 ->
   os_master (snd (set_volume idx v w)) = os_master w /\
   os_master (snd (toggle_mute idx w)) = os_master w).
Proof.
  intros Hne.
  pose proof (set_volume_one_write w idx v) as Hs.
  pose proof (toggle_mute_one_write w idx) as Ht.
  split; [exact (one_write_other _ _ _ _ Hs Hne) |].
  split; [exact (one_write_other _ _ _ _ Ht Hne) |].
  intros Hm. split.
  - exact (one_write_master _ _ _ Hs Hm).
  - exact (one_write_master _ _ _ Ht Hm).
Qed.

Lemma mixer_touches_one_control_witness :
  os_store (snd (toggle_mute 0 studio)) !! 12%nat
    = os_store studio !! 12%nat.
Proof.
  assert (H : 0 <= 0 ->
              WindowsAudioMixer.sessions (audio_mixer studio) !! Z.to_nat 0
                <> Some 12%nat) by (intros _; discriminate).
  exact (proj1 (proj2 (mixer_touches_one_control studio 0 0%float 12 H))).
Defined.

Lemma get_volume_keeps_audio idx : keeps audio_state (get_volume idx).
Proof. unfold get_volume. unfold_com. frame. Qed.

(** X4. [is_muted] and [get_volume] are reads: for every identifier and
    every state of the backend they return a value, and they change
    neither the audio state nor the program's own state. *)
Theorem mixer_reads_change_nothing (w : World) (idx : Z) :
  (exists muted w',
     is_muted idx w = (Ret muted, w') /\
     audio_state w' = audio_state w /\ program_state w' = program_state w) /\
  (exists volume w',
     get_volume idx w = (Ret volume, w') /\
     audio_state w' = audio_state w /\ program_state w' = program_state w).
Proof.
  split.
  - destruct (returns_run _ w (is_muted_returns idx)) as [muted Hrun].
    exists muted, (snd (is_muted idx w)). split; [exact Hrun |].
    split; [apply is_muted_keeps_audio | apply is_muted_keeps_program].
  - destruct (returns_run _ w (get_volume_returns idx)) as [volume Hrun].
    exists volume, (snd (get_volume idx w)). split; [exact Hrun |].
    split; [apply get_volume_keeps_audio | apply get_volume_keeps_program].
Qed.

(** X5. When the session behind a valid index has ended, each of the
    four methods catches the backend error, prints its message and gives
    its default: nothing, 0.0, [False], [False].  The audio state is
    not changed. *)
Theorem ended_session_defaults (w : World) (idx : Z) (session : nat)
  (v : float) :
  0 <= idx ->
  WindowsAudioMixer.sessions (audio_mixer w) !! Z.to_nat idx = Some session ->
  os_store w !! session = None ->
  set_volume idx v w =
    (Ret tt,
     with_trace (trace w ++ [MixerCall m_set_volume idx;
                             Printed "Error setting volume"]) w) /\
  get_volume idx w =
    (Ret 0%float,
     with_trace (trace w ++ [MixerCall m_get_volume idx;
                             Printed "Error getting volume"]) w) /\
  is_muted idx w =
    (Ret false,
     with_trace (trace w ++ [MixerCall m_is_muted idx;
                             Printed "Error checking mute status"]) w) /\
  toggle_mute idx w =
    (Ret false,
     with_trace (trace w ++ [MixerCall m_toggle_mute idx;
                             Printed "Error toggling mute"]) w).
Proof.
  intros H0 Hl Hs.
  assert (Hr : 0 <= idx
               < Z.of_nat (length (WindowsAudioMixer.sessions (audio_mixer w)))).
  { apply lookup_lt_Some in Hl. lia. }
  destruct (py_getitem_valid _ _ Hr) as (x & Hx & Hg).
  rewrite Hl in Hx. injection Hx as <-.
  assert (Hm : (idx =? -1) = false) by (apply Z.eqb_neq; lia).
  assert (Hv : valid_session_idx
                 (WindowsAudioMixer.sessions (audio_mixer w)) idx = true).
  { unfold valid_session_idx. apply andb_true_iff.
    rewrite Z.leb_le, Z.ltb_lt. lia. }
  unfold set_volume, get_volume, is_muted, toggle_mute, mixer_sessions,
    QueryInterface, session_read, print, bind, try_except, log, modify,
    gets, lift, ret, with_trace.
  simpl. rewrite Hm. simpl. rewrite Hv, Hg. simpl. rewrite Hs. simpl.
  rewrite <- !app_assoc. repeat split.
Qed.

Lemma ended_session_defaults_witness :
  fst (toggle_mute 0 studio_browser_closed) = Ret false /\
  fst (get_volume 0 studio_browser_closed) = Ret 0%float.
Proof.
  assert (H0 : 0 <= 0) by lia.
  assert (Hl : WindowsAudioMixer.sessions (audio_mixer studio_browser_closed)
                 !! Z.to_nat 0 = Some 10%nat) by reflexivity.
  assert (Hs : os_store studio_browser_closed !! 10%nat = None)
    by reflexivity.
  destruct (ended_session_defaults studio_browser_closed 0 10 0%float
              H0 Hl Hs) as (_ & Hg & _ & Ht).
  rewrite Hg, Ht. split; reflexivity.
Defined.

(** ** Enumeration and refresh *)

Lemma listed_name_spec (store : gmap nat AudioSession) (session : nat)
  (name : string) :
  listed_name store session = Some name <->
  exists s,
    store !! session = Some s /\ process_name s = Some name /\
    name <> EmptyString.
Proof.
  unfold listed_name. split.
  - destruct (store !! session) as [s |]; [| discriminate].
    destruct (process_name s) as [n |] eqn:Hp; [| discriminate].
    destruct (String.eqb_spec n EmptyString); [discriminate |].
    intros [= <-]. now exists s.
  - intros (s & -> & -> & Hne).
    now destruct (String.eqb_spec name EmptyString).
Qed.

Lemma app_list_from_In store (sessions : list nat) :
  forall (k i : Z) (name : string),
    In (i, name) (app_list_from store k sessions) <->
    exists (j : nat) session,
      i = k + Z.of_nat j /\ sessions !! j = Some session /\
      listed_name store session = Some name.
Proof.
  induction sessions as [| session rest IH]; intros k i name; simpl.
  - split; [intros [] | intros (j & s & _ & H & _); discriminate].
  - assert (Hrest : In (i, name) (app_list_from store (k + 1) rest) <->
                    exists (j : nat) s,
                      i = k + Z.of_nat (S j) /\ rest !! j = Some s /\
                      listed_name store s = Some name).
    { rewrite IH. split; intros (j & s & -> & H); exists j, s;
        (split; [lia | exact H]). }
    destruct (listed_name store session) as [n |] eqn:Hn; simpl.
    + rewrite Hrest. split.
      * intros [[= <- <-] | (j & s & Hi & Hl & Hs)].
        -- exists 0%nat, session. repeat split; [lia | exact Hn].
        -- exists (S j), s. now repeat split.
      * intros ([| j] & s & Hi & Hl & Hs).
        -- left. injection Hl as <-. rewrite Hn in Hs. injection Hs as <-.
           f_equal. lia.
        -- right. now exists j, s.
    + rewrite Hrest. split.
      * intros (j & s & Hi & Hl & Hs). exists (S j), s. now repeat split.
      * intros ([| j] & s & Hi & Hl & Hs).
        -- injection Hl as <-. rewrite Hn in Hs. discriminate.
        -- now exists j, s.
Qed.

Lemma app_list_from_sorted store (sessions : list nat) :
  forall k, StronglySorted Z.lt (fst <$> app_list_from store k sessions).
Proof.
  induction sessions as [| session rest IH]; intros k; simpl.
  - constructor.
  - destruct (listed_name store session); [| apply IH].
    simpl. constructor; [apply IH |].
    apply List.Forall_forall. intros i Hi.
    apply list_elem_of_In, list_elem_of_fmap in Hi as ([i' name] & -> & Hin).
    apply list_elem_of_In, app_list_from_index in Hin. simpl in *. lia.
Qed.

(** X6. Every entry after the master's in the result of
    [update_sessions] names a session of the new session list by its
    position there: [(i, name)] is listed exactly when the session at
    index [i] has a process whose name is [name] and is not empty.  The
    indices come in strictly increasing order, so none is listed
    twice. *)
Theorem update_sessions_lists_named (w : World) :
  exists rest w',
    update_sessions w = (Ret ((-1, "Master Volume"%string) :: rest), w') /\
    (forall i name,
       In (i, name) rest <->
       0 <= i /\
       exists session s,
         WindowsAudioMixer.sessions (audio_mixer w') !! Z.to_nat i
           = Some session /\
         os_store w' !! session = Some s /\
         process_name s = Some name /\ name <> EmptyString) /\
    StronglySorted Z.lt (fst <$> rest).
Proof.
  eexists _, _. split; [reflexivity |]. simpl. split.
  - intros i name. rewrite app_list_from_In. split.
    + intros (j & session & -> & Hl & Hn).
      apply listed_name_spec in Hn as (s & Hs & Hp & Hne).
      split; [lia |]. exists session, s.
      replace (Z.to_nat (0 + Z.of_nat j)) with j by lia. now repeat split.
    + intros (H0 & session & s & Hl & Hs & Hp & Hne).
      exists (Z.to_nat i), session. split; [lia |]. split; [exact Hl |].
      apply listed_name_spec. now exists s.
  - apply app_list_from_sorted.
Qed.

Lemma findData_apps (apps : list (Z * string)) (data : Z) :
  forall i, 0 <= i ->
    let items := (fun entry : Z * string => (snd entry, Some (fst entry)))
                   <$> apps in
    let r := findData_from i items data in
    if existsb (fun entry => fst entry =? data) apps
    then i <= r /\
         exists text, items !! Z.to_nat (r - i) = Some (text, Some data)
    else r = -1.
Proof.
  induction apps as [| [idx name] rest IH]; intros i Hi; cbv zeta.
  - reflexivity.
  - rewrite fmap_cons. cbn [findData_from existsb fst snd orb].
    destruct (Z.eqb_spec idx data) as [-> | Hne]; cbn [orb].
    + split; [lia |]. exists name. now rewrite Z.sub_diag.
    + assert (Hi' : 0 <= i + 1) by lia.
      specialize (IH (i + 1) Hi'). cbv zeta in IH.
      set (r := findData_from (i + 1) _ data) in *.
      destruct (existsb _ rest); [| exact IH].
      destruct IH as (Hle & text & Hl). split; [lia |]. exists text.
      replace (Z.to_nat (r - i)) with (S (Z.to_nat (r - (i + 1)))) by lia.
      exact Hl.
Qed.

Lemma set_selector_twice strip a b :
  set_selector (set_selector strip a) b = set_selector strip b.
Proof. reflexivity. Qed.

Lemma restore_selection_spec (apps : list (Z * string))
  (strip : ChannelStrip.t) :
  restore_selection apps strip =
    set_selector strip
      (kept_binding apps (ChannelStrip.get_selected_session strip)).
Proof.
  unfold restore_selection, kept_binding.
  destruct (ChannelStrip.get_selected_session strip) as [data |];
    [| reflexivity].
  unfold findData, set_app_options. cbn [findData_from].
  change (0 + 1) with 1.
  assert (H1 : 0 <= 1) by lia.
  pose proof (findData_apps apps data 1 H1) as H. cbv zeta in H.
  set (r := findData_from 1 _ data) in *.
  destruct (existsb _ apps).
  - destruct H as (Hle & text & Hl).
    destruct (Z.leb_spec 0 r); [| lia].
    replace (Z.to_nat r) with (S (Z.to_nat (r - 1))) by lia.
    change ((?x :: ?l) !! S ?i) with (l !! i).
    now rewrite Hl.
  - now rewrite H.
Qed.

Lemma with_channel_strips_same (w : World) :
  with_channel_strips (channel_strips w) w = w.
Proof. now destruct w. Qed.

(** A loop that applies one method to every strip. *)
Lemma map_strips_loop (g : ChannelStrip.t -> ChannelStrip.t) (m : nat) :
  forall (k : nat) (w : World),
    (k + m)%nat = length (channel_strips w) ->
    for_each (seq k m)
      (fun i => with_strip (Z.of_nat i) (fun strip => Ret (g strip))) w =
    (Ret tt,
     with_channel_strips
       (take k (channel_strips w) ++ (g <$> drop k (channel_strips w))) w).
Proof.
  induction m as [| m IH]; intros k w Hlen; simpl.
  - rewrite drop_ge, take_ge by lia. simpl. rewrite app_nil_r.
    now rewrite with_channel_strips_same.
  - destruct (lookup_lt_is_Some_2 (channel_strips w) k) as [s Hk]; [lia |].
    assert (H0 : 0 <= Z.of_nat k) by lia.
    assert (Hk' : channel_strips w !! Z.to_nat (Z.of_nat k) = Some s)
      by now rewrite Nat2Z.id.
    rewrite (bind_run _ _ _ _ _
               (with_strip_run w (Z.of_nat k) (fun strip => Ret (g strip))
                  s _ H0 Hk' eq_refl)).
    rewrite Nat2Z.id. rewrite IH.
    + unfold with_channel_strips. simpl. f_equal. f_equal.
      rewrite (take_S_r _ _ (g s))
        by (apply list_lookup_insert_eq; now apply lookup_lt_Some in Hk).
      rewrite take_insert_ge by lia. rewrite drop_insert_lt by lia.
      rewrite (drop_S _ _ _ Hk). simpl. now rewrite <- app_assoc.
    + simpl. rewrite length_insert. lia.
Qed.

Lemma update_app_list_run (w : World) :
  exists apps,
    fst (update_sessions w) = Ret apps /\
    update_app_list w =
      (Ret tt,
       with_channel_strips
         ((fun strip =>
             set_selector strip
               (kept_binding apps (ChannelStrip.get_selected_session strip)))
            <$> channel_strips w)
         (snd (update_sessions w))).
Proof.
  eexists. split; [reflexivity |].
  unfold update_app_list.
  rewrite (bind_run _ _ w (snd (update_sessions w)) _ eq_refl).
  rewrite bind_gets.
  rewrite (map_strips_loop _ _ 0%nat) by reflexivity.
  simpl. f_equal. f_equal.
  apply list_fmap_ext. intros i strip _. apply restore_selection_spec.
Qed.

(** X7. [update_app_list] keeps the binding of a slot when the new
    enumeration lists the bound index -- the master's -1 always is --
    and unbinds the slot otherwise; the cached mute and fader of every
    slot, and the audio state, are left alone.  The test is on the
    index, not on the application's name. *)
Theorem update_app_list_bindings (w : World) :
  exists apps w',
    fst (update_sessions w) = Ret apps /\
    update_app_list w = (Ret tt, w') /\
    channel_strips w' =
      (fun strip =>
         ChannelStrip.mk (ChannelStrip.channel_idx strip)
           (kept_binding apps (ChannelStrip.get_selected_session strip))
           (ChannelStrip.is_muted strip) (ChannelStrip.fader strip))
        <$> channel_strips w /\
    kept_binding apps (Some (-1)) = Some (-1) /\
    audio_state w' = audio_state w.
Proof.
  destruct (update_app_list_run w) as (apps & Happs & Hrun).
  exists apps. eexists. split; [exact Happs |]. split; [exact Hrun |].
  split; [reflexivity |]. split; [| reflexivity].
  simpl in Happs. injection Happs as <-. reflexivity.
Qed.

Lemma kept_binding_Some (apps : list (Z * string)) (binding : option Z)
  (idx : Z) :
  kept_binding apps binding = Some idx ->
  binding = Some idx /\ exists name, In (idx, name) apps.
Proof.
  unfold kept_binding. destruct binding as [b |]; [| discriminate].
  destruct (existsb _ apps) eqn:E; [| discriminate].
  intros [= ->]. split; [reflexivity |].
  apply existsb_exists in E as ([idx' name] & Hin & Heq).
  simpl in Heq. apply Z.eqb_eq in Heq. subst idx'. now exists name.
Qed.

(** X8. Right after [update_app_list] no slot is bound to a stale
    identifier: a bound slot holds the master's -1 or an index at which
    the new session list has a session with a named process. *)
Theorem update_app_list_no_stale_binding (w : World) (i : nat)
  (strip : ChannelStrip.t) (session_idx : Z) :
  channel_strips (snd (update_app_list w)) !! i = Some strip ->
  ChannelStrip.get_selected_session strip = Some session_idx ->
  session_idx = -1 \/
  (0 <= session_idx /\
   exists session s name,
     WindowsAudioMixer.sessions (audio_mixer (snd (update_app_list w)))
       !! Z.to_nat session_idx = Some session /\
     os_store (snd (update_app_list w)) !! session = Some s /\
     process_name s = Some name /\ name <> EmptyString).
Proof.
  destruct (update_app_list_run w) as (apps & Happs & Hrun).
  rewrite Hrun. cbn [snd channel_strips with_channel_strips].
  assert (Ha : apps = (-1, "Master Volume"%string)
                 :: app_list_from (os_store w) 0 (os_sessions w)).
  { cbn in Happs. now injection Happs as <-. }
  rewrite list_lookup_fmap. intros Hl Hsel.
  destruct (channel_strips w !! i) as [old |]; [| discriminate].
  cbn in Hl. injection Hl as <-.
  apply kept_binding_Some in Hsel as (_ & name & Hin).
  rewrite Ha in Hin. destruct Hin as [[= <- _] | Hin]; [now left |].
  right.
  apply app_list_from_In in Hin as (j & session & -> & Hj & Hn).
  apply listed_name_spec in Hn as (s & Hs & Hp & Hne').
  split; [lia |]. exists session, s, name.
  replace (Z.to_nat (0 + Z.of_nat j)) with j by lia. now repeat split.
Qed.

Lemma update_app_list_no_stale_binding_witness :
  exists session s name,
    WindowsAudioMixer.sessions (audio_mixer (snd (update_app_list studio)))
      !! Z.to_nat 2 = Some session /\
    os_store (snd (update_app_list studio)) !! session = Some s /\
    process_name s = Some name /\ name <> EmptyString.
Proof.
  assert (Hl : channel_strips (snd (update_app_list studio)) !! 3%nat
               = Some (ChannelStrip.mk 3 (Some 2) false 0))
    by (vm_compute; reflexivity).
  destruct (update_app_list_no_stale_binding studio 3 _ 2 Hl eq_refl)
    as [E | (_ & H)]; [discriminate E | exact H].
Defined.

(** ** The adapter's lists keep their lengths *)

Lemma py_setitem_length {A} (l l' : list A) (i : Z) (x : A) :
  py_setitem l i x = Ret l' -> length l' = length l.
Proof.
  unfold py_setitem. destruct (py_index l i); [| discriminate].
  intros [= <-]. apply length_insert.
Qed.

Lemma emit_keeps_lengths s : keeps lengths (emit s).
Proof.
  exact (keeps_component midi_handler
           (fun h => (length (MIDIHandler.fader_values h),
                      length (MIDIHandler.button_states h),
                      length (MIDIHandler.knob_values h)))
           _ (emit_keeps_handler s)).
Qed.

Lemma bind_lift_raise {A C} (e : exn) (k : A -> M C) (w : World) :
  bind (lift (Raise e)) k w = (Raise e, w).
Proof. reflexivity. Qed.

Lemma process_control_change_keeps_lengths control value :
  keeps lengths (process_control_change control value).
Proof.
  intros w. unfold process_control_change, handler, modify_handler.
  destruct ((0 <=? control) && (control <=? 7)); cbv zeta.
  { rewrite bind_gets.
    destruct (py_setitem _ control _) as [l | e] eqn:E;
      [| now rewrite bind_lift_raise].
    rewrite bind_lift_ret, bind_modify, emit_keeps_lengths.
    unfold lengths; simpl. now rewrite (py_setitem_length _ _ _ _ E). }
  destruct ((16 <=? control) && (control <=? 23)); cbv zeta.
  { rewrite bind_gets.
    destruct (py_setitem _ (control - 16) _) as [l | e] eqn:E;
      [| now rewrite bind_lift_raise].
    rewrite bind_lift_ret, bind_modify, emit_keeps_lengths.
    unfold lengths; simpl. now rewrite (py_setitem_length _ _ _ _ E). }
  destruct ((32 <=? control) && (control <=? 39)); cbv zeta;
    [| reflexivity].
  rewrite bind_gets.
  destruct (py_getitem _ (control - 32)) as [previous | e];
    [| now rewrite bind_lift_raise].
  rewrite bind_lift_ret.
  destruct (negb (Bool.eqb previous (64 <=? value))); [| reflexivity].
  destruct (py_setitem _ (control - 32) _) as [l | e] eqn:E;
    [| now rewrite bind_lift_raise].
  rewrite bind_lift_ret, bind_modify, emit_keeps_lengths.
  unfold lengths; simpl. now rewrite (py_setitem_length _ _ _ _ E).
Qed.

Lemma poll_messages_keeps_lengths : keeps lengths poll_messages.
Proof.
  pose proof emit_keeps_lengths.
  pose proof process_control_change_keeps_lengths.
  unfold poll_messages, poll_one, handler. frame.
Qed.

Lemma is_muted_keeps_handler idx : keeps midi_handler (is_muted idx).
Proof.
  exact (keeps_component program_state (fun s => fst (fst (fst s))) _
           (is_muted_keeps_program idx)).
Qed.

Lemma reflect_audio_state_keeps_handler :
  keeps midi_handler reflect_audio_state.
Proof.
  pose proof is_muted_keeps_handler.
  unfold reflect_audio_state, reflect_strip, strip_at. frame.
Qed.

Lemma update_loop_keeps_lengths : keeps lengths update_loop.
Proof.
  unfold update_loop. apply keeps_bind.
  - apply poll_messages_keeps_lengths.
  - intros _.
    exact (keeps_component midi_handler
             (fun h => (length (MIDIHandler.fader_values h),
                        length (MIDIHandler.button_states h),
                        length (MIDIHandler.knob_values h)))
             _ reflect_audio_state_keeps_handler).
Qed.

Lemma handler_ok_lengths (w : World) :
  handler_ok (midi_handler w) <-> lengths w = (8%nat, 24%nat, 8%nat).
Proof.
  unfold handler_ok, lengths. split.
  - now intros (-> & -> & ->).
  - now intros [= -> -> ->].
Qed.

Lemma remembered_lengths (w w' : World) :
  remembered w' = remembered w -> lengths w' = lengths w.
Proof. unfold remembered, lengths. now intros [= -> -> ->]. Qed.

(** X9. The invariant of [MIDIHandler] -- 8 fader values, 24 button
    booleans, 8 knob values, as [__init__] builds them -- is kept by
    every method: decoding a message, polling, a whole tick, connecting
    and closing. *)
Theorem handler_ok_preserved (w : World) (control value : Z)
  (input output : string) :
  handler_ok (midi_handler w) ->
  handler_ok MIDIHandler.init /\
  handler_ok (midi_handler (snd (process_control_change control value w))) /\
  handler_ok (midi_handler (snd (poll_messages w))) /\
  handler_ok (midi_handler (snd (update_loop w))) /\
  handler_ok (midi_handler (snd (connect_device input output w))) /\
  handler_ok (midi_handler (snd (close w))).
Proof.
  intros H. apply handler_ok_lengths in H.
  split; [repeat split |].
  split; [| split; [| split; [| split]]];
    apply handler_ok_lengths; rewrite <- H.
  - apply process_control_change_keeps_lengths.
  - apply poll_messages_keeps_lengths.
  - apply update_loop_keeps_lengths.
  - apply remembered_lengths, connect_device_keeps_remembered.
  - apply remembered_lengths, close_keeps_remembered.
Qed.

Lemma handler_ok_preserved_witness :
  handler_ok (midi_handler (snd (update_loop studio_press_release))).
Proof.
  assert (H : handler_ok (midi_handler studio_press_release))
    by (repeat split).
  exact (proj1 (proj2 (proj2 (proj2
           (handler_ok_preserved studio_press_release 0 0 nano nano H))))).
Defined.

(** ** Polling *)

Lemma with_strip_keeps_pending channel method :
  keeps pending (with_strip channel method).
Proof. unfold with_strip, strip_at. frame. Qed.

Lemma set_volume_keeps_pending idx v : keeps pending (set_volume idx v).
Proof.
  exact (keeps_component program_state snd _ (set_volume_keeps_program idx v)).
Qed.

Lemma toggle_mute_keeps_pending idx : keeps pending (toggle_mute idx).
Proof.
  exact (keeps_component program_state snd _ (toggle_mute_keeps_program idx)).
Qed.

Lemma set_volume_keeps_raw idx v : keeps (seen is_raw) (set_volume idx v).
Proof. unfold set_volume. unfold_com. frame. Qed.

Lemma toggle_mute_keeps_raw idx : keeps (seen is_raw) (toggle_mute idx).
Proof. unfold toggle_mute. unfold_com. frame. Qed.

Lemma send_led_feedback_keeps_raw idx state :
  keeps (seen is_raw) (send_led_feedback idx state).
Proof. unfold send_led_feedback, handler. frame. Qed.

Lemma send_led_feedback_keeps_pending idx state :
  keeps pending (send_led_feedback idx state).
Proof. unfold send_led_feedback, handler. frame. Qed.

Lemma slots_keep_pending_and_raw channel value state :
  keeps pending (on_midi_fader_moved channel value) /\
  keeps (seen is_raw) (on_midi_fader_moved channel value) /\
  keeps pending (on_midi_button_pressed channel state) /\
  keeps (seen is_raw) (on_midi_button_pressed channel state).
Proof.
  pose proof with_strip_keeps_pending.
  pose proof set_volume_keeps_pending.
  pose proof toggle_mute_keeps_pending.
  pose proof set_volume_keeps_raw.
  pose proof toggle_mute_keeps_raw.
  pose proof send_led_feedback_keeps_raw.
  pose proof send_led_feedback_keeps_pending.
  repeat split;
    unfold on_midi_fader_moved, on_midi_button_pressed, len_channel_strips,
      strip_at; frame.
Qed.

Lemma process_control_change_keeps_pending_and_raw control value :
  keeps pending (process_control_change control value) /\
  keeps (seen is_raw) (process_control_change control value).
Proof.
  assert (Hf : forall c v, keeps pending (on_midi_fader_moved c v))
    by (intros c v; apply (slots_keep_pending_and_raw c v false)).
  assert (Hf' : forall c v, keeps (seen is_raw) (on_midi_fader_moved c v))
    by (intros c v; apply (slots_keep_pending_and_raw c v false)).
  assert (Hb : forall c s, keeps pending (on_midi_button_pressed c s))
    by (intros c s; apply (slots_keep_pending_and_raw c 0%float s)).
  assert (Hb' : forall c s, keeps (seen is_raw) (on_midi_button_pressed c s))
    by (intros c s; apply (slots_keep_pending_and_raw c 0%float s)).
  split; unfold process_control_change, emit, handler, modify_handler; frame.
Qed.

(** A message as [mido] builds it is decoded without an exception. *)
Lemma process_control_change_returns (w : World) (control value : Z) :
  handler_ok (midi_handler w) ->
  0 <= value <= 127 ->
  exists w', process_control_change control value w = (Ret tt, w').
Proof.
  intros (Hf & Hb & Hk) Hv.
  destruct (Z_le_gt_dec 0 control) as [H0 |];
    [destruct (Z_le_gt_dec control 7) as [H7 |] |].
  - destruct (fader_message_run w control value Hf (conj H0 H7) Hv)
      as (w' & Hrun & _). now exists w'.
  - destruct (Z_le_gt_dec 16 control) as [H16 |];
      [destruct (Z_le_gt_dec control 23) as [H23 |] |].
    + destruct (knob_message_run w control value Hk (conj H16 H23))
        as (w' & Hrun & _). now exists w'.
    + destruct (Z_le_gt_dec 32 control) as [H32 |];
        [destruct (Z_le_gt_dec control 39) as [H39 |] |].
      * destruct (lookup_lt_is_Some_2
                    (MIDIHandler.button_states (midi_handler w))
                    (Z.to_nat (control - 32))) as [previous Hp]; [lia |].
        destruct (button_message_run w control value previous
                    (conj H32 H39) Hp) as (w' & Hrun & _).
        now exists w'.
      * exists w. unfold process_control_change.
        rewrite (in_range_false 0 7), (in_range_false 16 23),
          (in_range_false 32 39) by lia. reflexivity.
      * exists w. unfold process_control_change.
        rewrite (in_range_false 0 7), (in_range_false 16 23),
          (in_range_false 32 39) by lia. reflexivity.
    + exists w. unfold process_control_change.
      rewrite (in_range_false 0 7), (in_range_false 16 23),
        (in_range_false 32 39) by lia. reflexivity.
  - exists w. unfold process_control_change.
    rewrite (in_range_false 0 7), (in_range_false 16 23),
      (in_range_false 32 39) by lia. reflexivity.
Qed.

Lemma poll_one_run (w : World) (msg : midi_msg) :
  handler_ok (midi_handler w) -> well_formed msg ->
  exists w',
    poll_one msg w = (Ret tt, w') /\
    pending w' = tail (pending w) /\
    seen is_raw w' = seen is_raw w ++ [reported msg] /\
    handler_ok (midi_handler w').
Proof.
  intros Hok Hwf. unfold poll_one. rewrite bind_modify.
  set (w0 := with_pending (tail (pending w)) w).
  assert (Hok0 : handler_ok (midi_handler w0)) by exact Hok.
  assert (Hstep : exists w1,
             match msg with
             | control_change _ control value =>
                 process_control_change control value
             | other_message _ => ret tt
             end w0 = (Ret tt, w1) /\
             pending w1 = pending w0 /\ seen is_raw w1 = seen is_raw w0 /\
             lengths w1 = lengths w0).
  { destruct msg as [ch control value | type].
    - destruct Hwf as [_ Hv].
      destruct (process_control_change_returns w0 control value Hok0 Hv)
        as (w1 & Hrun).
      exists w1. split; [exact Hrun |].
      replace w1 with (snd (process_control_change control value w0))
        by now rewrite Hrun.
      split; [apply process_control_change_keeps_pending_and_raw |].
      split; [apply process_control_change_keeps_pending_and_raw |].
      apply process_control_change_keeps_lengths.
    - exists w0. now repeat split. }
  destruct Hstep as (w1 & Hrun & Hp & Hr & Hl).
  rewrite (bind_run _ _ _ _ _ Hrun).
  eexists. split; [reflexivity |]. split; [exact Hp |]. split.
  - unfold seen; simpl. rewrite List.filter_app. simpl.
    fold (seen is_raw w1). now rewrite Hr.
  - apply (handler_ok_lengths w1). rewrite Hl.
    now apply (handler_ok_lengths w0).
Qed.

Lemma poll_loop (queued : list midi_msg) :
  forall w,
    pending w = queued -> handler_ok (midi_handler w) ->
    Forall well_formed queued ->
    exists w',
      for_each queued poll_one w = (Ret tt, w') /\
      pending w' = [] /\
      seen is_raw w' = seen is_raw w ++ (reported <$> queued).
Proof.
  induction queued as [| msg rest IH]; intros w Hp Hok Hwf; simpl.
  - exists w. split; [reflexivity |]. split; [exact Hp |].
    now rewrite app_nil_r.
  - apply Forall_cons in Hwf as [Hmsg Hrest].
    destruct (poll_one_run w msg Hok Hmsg) as (w1 & Hrun & Hp1 & Hr1 & Hok1).
    rewrite Hp in Hp1. simpl in Hp1.
    destruct (IH w1 Hp1 Hok1 Hrest) as (w' & Hrun' & Hp' & Hr').
    exists w'. rewrite (bind_run _ _ _ _ _ Hrun).
    split; [exact Hrun' |]. split; [exact Hp' |].
    rewrite Hr', Hr1. now rewrite <- app_assoc.
Qed.

(** X10. With the input port open, [poll_messages] empties the queue and
    reports every queued message once through [raw_message_received],
    in arrival order, whatever the backend answers; no exception leaves
    it. *)
Theorem poll_messages_drains (w : World) (port : string) :
  MIDIHandler.midi_in (midi_handler w) = Some port ->
  handler_ok (midi_handler w) ->
  Forall well_formed (pending w) ->
  exists w',
    poll_messages w = (Ret tt, w') /\
    pending w' = [] /\
    seen is_raw w' = seen is_raw w ++ (reported <$> pending w).
Proof.
  intros Hport Hok Hwf. unfold poll_messages, handler.
  rewrite bind_gets, Hport, bind_gets.
  now apply poll_loop.
Qed.

Lemma poll_messages_drains_witness :
  exists w',
    poll_messages studio_three_moves = (Ret tt, w') /\ pending w' = [].
Proof.
  assert (Hp : MIDIHandler.midi_in (midi_handler studio_three_moves)
               = Some nano) by reflexivity.
  assert (Hok : handler_ok (midi_handler studio_three_moves))
    by (repeat split).
  assert (Hwf : Forall well_formed (pending studio_three_moves)).
  { repeat constructor; simpl; lia. }
  destruct (poll_messages_drains studio_three_moves nano Hp Hok Hwf)
    as (w' & Hrun & Hempty & _).
  exists w'. split; [exact Hrun | exact Hempty].
Defined.

Lemma reflect_audio_state_returns (w : World) :
  exists w', reflect_audio_state w = (Ret tt, w').
Proof.
  destruct (reflect_loop w (length (channel_strips w)) 0%nat w)
    as (w' & Hrun & _); [reflexivity | reflexivity | reflexivity |].
  exists w'. unfold reflect_audio_state. now rewrite bind_gets.
Qed.

(** X11. A tick never fails: for well-formed messages, an intact
    adapter and any state of the audio backend -- sessions ended,
    endpoint out of reach, stale bindings -- [update_loop] returns
    normally. *)
Theorem update_loop_never_raises (w : World) :
  handler_ok (midi_handler w) ->
  Forall well_formed (pending w) ->
  exists w', update_loop w = (Ret tt, w').
Proof.
  intros Hok Hwf. unfold update_loop.
  assert (Hpoll : exists w1, poll_messages w = (Ret tt, w1)).
  { destruct (MIDIHandler.midi_in (midi_handler w)) as [port |] eqn:Hport.
    - destruct (poll_loop (pending w) w eq_refl Hok Hwf) as (w1 & H & _).
      exists w1. unfold poll_messages, handler.
      now rewrite bind_gets, Hport, bind_gets.
    - exists w. unfold poll_messages, handler. now rewrite bind_gets, Hport. }
  destruct Hpoll as (w1 & Hrun1).
  rewrite (bind_run _ _ _ _ _ Hrun1).
  apply reflect_audio_state_returns.
Qed.

Lemma update_loop_never_raises_witness :
  exists w', update_loop studio_three_moves = (Ret tt, w').
Proof.
  assert (Hok : handler_ok (midi_handler studio_three_moves))
    by (repeat split).
  assert (Hwf : Forall well_formed (pending studio_three_moves)).
  { repeat constructor; simpl; lia. }
  exact (update_loop_never_raises studio_three_moves Hok Hwf).
Defined.

(** ** Closing and connecting *)

(** X12. [close] leaves both ports closed and what the adapter
    remembers untouched; closing again changes nothing, and on a closed
    adapter [poll_messages] reads nothing and [send_led_feedback] sends
    nothing. *)
Theorem close_disconnects (w : World) :
  exists w',
    close w = (Ret tt, w') /\
    MIDIHandler.midi_in (midi_handler w') = None /\
    MIDIHandler.midi_out (midi_handler w') = None /\
    remembered w' = remembered w /\
    close w' = (Ret tt, w') /\
    poll_messages w' = (Ret tt, w') /\
    forall button_idx state,
      send_led_feedback button_idx state w' = (Ret tt, w').
Proof.
  destruct w as [[[p_in |] [p_out |] name faders buttons knobs]
                   mixer strips ins outs queue sessions store master tr];
    (eexists; split; [reflexivity |]; repeat split).
Qed.

(** X13. [connect_device] returns [True] exactly when the transport
    lists both names; both ports are then open under them and
    [device_name] is the input's.  It closes the previous connection
    first, so after a failure the output port is closed, and the input
    port is left open when only the output could not be opened. *)
Theorem connect_device_outcome (w : World) (input output : string) :
  let both := listed (input_names w) input && listed (output_names w) output in
  exists w',
    connect_device input output w = (Ret both, w') /\
    MIDIHandler.midi_in (midi_handler w') =
      (if listed (input_names w) input then Some input else None) /\
    MIDIHandler.midi_out (midi_handler w') =
      (if both then Some output else None) /\
    MIDIHandler.device_name (midi_handler w') =
      (if both then input else MIDIHandler.device_name (midi_handler w)) /\
    remembered w' = remembered w.
Proof.
  unfold listed.
  destruct w as [[[p_in |] [p_out |] name faders buttons knobs]
                   mixer strips ins outs queue sessions store master tr];
    unfold connect_device, close, open_port, handler, modify_handler, print,
      try_except, bind, gets, modify, log, ret, raise; simpl;
    destruct (existsb (String.eqb input) ins); simpl;
    destruct (existsb (String.eqb output) outs); simpl;
    (eexists; split; [reflexivity |]; repeat split).
Qed.

(** ** LED feedback and the button decoder *)

(** X14. The LED message for button [idx] is a control-change in the
    button range whose decoding is the same channel and state: fed to
    [process_control_change] of an adapter that remembers the opposite
    state, it yields [button_pressed(idx, state)]. *)
Theorem led_feedback_decodes_back (w w2 : World) (idx : Z) (state : bool)
  (port : string) :
  0 <= idx <= 7 ->
  MIDIHandler.midi_out (midi_handler w) = Some port ->
  MIDIHandler.button_states (midi_handler w2) !! Z.to_nat idx
    = Some (negb state) ->
  exists cc value w2',
    seen is_led (snd (send_led_feedback idx state w)) =
      seen is_led w ++ [MidiOut cc value] /\
    32 <= cc <= 39 /\ 0 <= value <= 127 /\
    process_control_change cc value w2 = (Ret tt, w2') /\
    seen is_signal w2' =
      seen is_signal w2 ++ [Emitted (button_pressed idx state)].
Proof.
  intros Hi Hport Hprev.
  exists (32 + idx), (if state then 127 else 0).
  assert (Hn : 32 <= 32 + idx <= 39) by lia.
  assert (Hp : MIDIHandler.button_states (midi_handler w2)
                 !! Z.to_nat (32 + idx - 32) = Some (negb state)).
  { now replace (32 + idx - 32) with idx by lia. }
  destruct (button_message_run w2 (32 + idx) (if state then 127 else 0)
              (negb state) Hn Hp) as (w2' & Hrun & Hs & _).
  exists w2'. split.
  - rewrite (send_led_feedback_run w idx state port Hi Hport).
    unfold seen; simpl. now rewrite List.filter_app.
  - split; [exact Hn |]. split; [destruct state; lia |].
    split; [exact Hrun |]. rewrite Hs.
    replace (32 + idx - 32) with idx by lia.
    now destruct state.
Qed.

Lemma led_feedback_decodes_back_witness :
  exists cc value w2',
    seen is_led (snd (send_led_feedback 3 true studio)) = [MidiOut cc value] /\
    process_control_change cc value studio = (Ret tt, w2') /\
    seen is_signal w2' = [Emitted (button_pressed 3 true)].
Proof.
  assert (Hi : 0 <= 3 <= 7) by lia.
  assert (Hport : MIDIHandler.midi_out (midi_handler studio) = Some nano)
    by reflexivity.
  assert (Hprev : MIDIHandler.button_states (midi_handler studio)
                    !! Z.to_nat 3 = Some (negb true)) by reflexivity.
  destruct (led_feedback_decodes_back studio studio 3 true nano
              Hi Hport Hprev)
    as (cc & value & w2' & Hled & _ & _ & Hrun & Hs).
  exists cc, value, w2'. split; [exact Hled |].
  split; [exact Hrun | exact Hs].
Defined.

(** ** The fader on screen *)

(** X15. For a data byte [r], [set_fader_value(r/127.0)] puts the
    slider at [floor(100*r/127)] percent -- no rounding error of the
    float arithmetic shows -- and touches nothing else of the strip. *)
Theorem set_fader_value_percent (strip : ChannelStrip.t) (r : Z) :
  0 <= r <= 127 ->
  ChannelStrip.set_fader_value strip (py_truediv r 127) =
    Ret (ChannelStrip.mk (ChannelStrip.channel_idx strip)
           (ChannelStrip.app_selector strip) (ChannelStrip.is_muted strip)
           (100 * r / 127)).
Proof.
  intros Hr.
  assert (H : percent_is_floor r = true).
  { revert r Hr. apply data_bytes_forall. vm_compute. reflexivity. }
  unfold percent_is_floor in H. unfold ChannelStrip.set_fader_value.
  destruct (py_int _) as [z | e]; [| discriminate].
  apply Z.eqb_eq in H. now rewrite H.
Qed.

Lemma set_fader_value_percent_witness :
  ChannelStrip.set_fader_value (ChannelStrip.mk 0 None false 0)
    (py_truediv 64 127) =
  Ret (ChannelStrip.mk 0 None false 50).
Proof.
  assert (Hr : 0 <= 64 <= 127) by lia.
  exact (set_fader_value_percent (ChannelStrip.mk 0 None false 0) 64 Hr).
Defined.

(** ** From the surface to the stream *)

Lemma fader_message_unfold (w : World) (n r : Z) :
  length (MIDIHandler.fader_values (midi_handler w)) = 8%nat ->
  0 <= n <= 7 ->
  process_control_change n r w =
    emit (fader_moved n (py_truediv r 127))
      (with_midi_handler
         (set_fader_values
            (<[Z.to_nat n := py_truediv r 127]>
               (MIDIHandler.fader_values (midi_handler w)))
            (midi_handler w)) w).
Proof.
  intros Hlen Hn. unfold process_control_change.
  rewrite in_range_true by lia. cbv zeta. unfold handler.
  rewrite bind_gets, py_setitem_valid by lia.
  rewrite bind_lift_ret. unfold modify_handler. now rewrite bind_modify.
Qed.

Lemma button_message_unfold (w : World) (n r : Z) (previous : bool) :
  32 <= n <= 39 ->
  MIDIHandler.button_states (midi_handler w) !! Z.to_nat (n - 32)
    = Some previous ->
  previous <> (64 <=? r) ->
  process_control_change n r w =
    emit (button_pressed (n - 32) (64 <=? r))
      (with_midi_handler
         (set_button_states
            (<[Z.to_nat (n - 32) := (64 <=? r)]>
               (MIDIHandler.button_states (midi_handler w)))
            (midi_handler w)) w).
Proof.
  intros Hn Hprev Hne. unfold process_control_change.
  rewrite (in_range_false 0 7) by lia.
  rewrite (in_range_false 16 23) by lia.
  rewrite in_range_true by lia. cbv zeta. unfold handler.
  rewrite bind_gets.
  assert (Hlen : 0 <= n - 32
                 < Z.of_nat (length (MIDIHandler.button_states (midi_handler w)))).
  { apply lookup_lt_Some in Hprev. lia. }
  destruct (py_getitem_valid _ _ Hlen) as (p & Hp & Hget).
  rewrite Hprev in Hp. injection Hp as <-.
  rewrite Hget, bind_lift_ret.
  destruct (Bool.eqb_spec previous (64 <=? r)) as [-> | _];
    [contradiction |]. simpl.
  rewrite py_setitem_valid by lia.
  rewrite bind_lift_ret. unfold modify_handler. now rewrite bind_modify.
Qed.

Lemma on_midi_fader_moved_run (w : World) (channel : Z) (value : float)
  (strip : ChannelStrip.t) (idx z : Z) (c : AudioCtl) :
  0 <= channel ->
  channel_strips w !! Z.to_nat channel = Some strip ->
  ChannelStrip.get_selected_session strip = Some idx ->
  addressed w idx = Some c ->
  py_int (PrimFloat.mul value 100) = Ret z ->
  valid_level (c_float value) = true ->
  exists w',
    on_midi_fader_moved channel value w = (Ret tt, w') /\
    channel_strips w' =
      <[Z.to_nat channel :=
          ChannelStrip.mk (ChannelStrip.channel_idx strip)
            (ChannelStrip.app_selector strip) (ChannelStrip.is_muted strip)
            (Z.max 0 (Z.min 100 z))]> (channel_strips w) /\
    audio_state w' = write_ctl w idx (set_ctl_volume (c_float value) c) /\
    audio_mixer w' = audio_mixer w /\
    trace w' = trace w ++ [MixerCall m_set_volume idx].
Proof.
  intros H0 Hl Hsel Ha Hz Hv.
  assert (G : 0 <= channel < Z.of_nat (length (channel_strips w))).
  { apply lookup_lt_Some in Hl. lia. }
  unfold on_midi_fader_moved, len_channel_strips. rewrite bind_gets.
  destruct (Z.leb_spec 0 channel); [| lia].
  destruct (Z.ltb_spec channel (Z.of_nat (length (channel_strips w))));
    [| lia].
  cbn [andb].
  assert (Hs : ChannelStrip.set_fader_value strip value
               = Ret (ChannelStrip.mk (ChannelStrip.channel_idx strip)
                        (ChannelStrip.app_selector strip)
                        (ChannelStrip.is_muted strip)
                        (Z.max 0 (Z.min 100 z)))).
  { unfold ChannelStrip.set_fader_value. now rewrite Hz. }
  rewrite (bind_run _ _ _ _ _ (with_strip_run w channel _ strip _ H0 Hl Hs)).
  set (strip' := ChannelStrip.mk _ _ _ _) in *.
  set (w1 := with_channel_strips _ w).
  assert (G1 : 0 <= channel < Z.of_nat (length (channel_strips w1))).
  { unfold w1; simpl. rewrite length_insert. exact G. }
  destruct (strip_at_run w1 channel G1) as (s1 & Hl1 & Hr1).
  assert (Hs1 : s1 = strip').
  { unfold w1 in Hl1; simpl in Hl1.
    rewrite list_lookup_insert_eq in Hl1 by (now apply lookup_lt_Some in Hl).
    now injection Hl1. }
  subst s1. rewrite (bind_run _ _ _ _ _ Hr1).
  change (ChannelStrip.get_selected_session strip')
    with (ChannelStrip.get_selected_session strip).
  rewrite Hsel.
  assert (Ha1 : addressed w1 idx = Some c) by exact Ha.
  destruct (set_volume_run w1 idx c value Ha1 Hv)
    as (w' & Hrun & Hw & Hp & Ht).
  exists w'. split; [exact Hrun |].
  unfold program_state in Hp. injection Hp as _ Hm Hst _.
  split; [exact Hst |]. split; [exact Hw |]. split; [exact Hm | exact Ht].
Qed.

Lemma on_midi_button_pressed_run (w : World) (channel : Z) (state : bool)
  (strip : ChannelStrip.t) (idx : Z) (c : AudioCtl) (port : string) :
  0 <= channel <= 7 ->
  channel_strips w !! Z.to_nat channel = Some strip ->
  ChannelStrip.get_selected_session strip = Some idx ->
  addressed w idx = Some c ->
  MIDIHandler.midi_out (midi_handler w) = Some port ->
  exists w',
    on_midi_button_pressed channel state w = (Ret tt, w') /\
    channel_strips w' =
      <[Z.to_nat channel :=
          ChannelStrip.set_mute_state strip (negb (ctl_mute c))]>
        (channel_strips w) /\
    audio_state w' = write_ctl w idx (set_ctl_mute (negb (ctl_mute c)) c) /\
    audio_mixer w' = audio_mixer w /\
    trace w' =
      trace w ++ [MixerCall m_toggle_mute idx;
                  MidiOut (32 + channel)
                    (if negb (ctl_mute c) then 127 else 0)].
Proof.
  intros Hc Hl Hsel Ha Hport.
  assert (G : 0 <= channel < Z.of_nat (length (channel_strips w))).
  { apply lookup_lt_Some in Hl. lia. }
  destruct (strip_at_run w channel G) as (s & Hs & Hr).
  rewrite Hl in Hs. injection Hs as <-.
  destruct (toggle_mute_run w idx c Ha) as (w1 & Hnew & Hw & Hp & Ht).
  unfold program_state in Hp. injection Hp as Hh Hm Hst _.
  assert (Hl1 : channel_strips w1 !! Z.to_nat channel = Some strip)
    by now rewrite Hst.
  assert (Hport1 : MIDIHandler.midi_out (midi_handler w1) = Some port)
    by now rewrite Hh.
  unfold on_midi_button_pressed, len_channel_strips. rewrite bind_gets.
  destruct (Z.leb_spec 0 channel); [| lia].
  destruct (Z.ltb_spec channel (Z.of_nat (length (channel_strips w))));
    [| lia].
  cbn [andb]. rewrite (bind_run _ _ _ _ _ Hr), Hsel.
  rewrite (bind_run _ _ _ _ _ Hnew).
  rewrite (bind_run _ _ _ _ _
             (with_strip_run w1 channel
                (fun s => Ret (ChannelStrip.set_mute_state s (negb (ctl_mute c))))
                strip _ (proj1 G) Hl1 eq_refl)).
  set (w2 := with_channel_strips _ w1).
  rewrite (send_led_feedback_run w2 channel _ port Hc Hport1).
  eexists. split; [reflexivity |]. simpl.
  split; [now rewrite Hst |]. split; [exact Hw |]. split; [exact Hm |].
  rewrite Ht. now rewrite <- app_assoc.
Qed.

Lemma level_of_byte_checked (r : Z) :
  0 <= r <= 127 ->
  valid_level (level_of_byte r) = true /\
  near_single r (level_of_byte r) = true.
Proof.
  intros Hr. apply andb_true_iff. fold (level_of_byte_ok r).
  revert r Hr. apply data_bytes_forall. vm_compute. reflexivity.
Qed.

(** X16. A fader message for a slot bound to a control that can be
    reached sets that control's volume to the single-precision rounding
    of [r/127.0], a level in [0,1] within [2^-24] of [r/127]; it leaves
    the mute flag alone, puts the slot's slider at [floor(100*r/127)]
    percent and calls the mixer once. *)
Theorem fader_message_sets_volume (w : World) (n r : Z)
  (strip : ChannelStrip.t) (idx : Z) (c : AudioCtl) :
  handler_ok (midi_handler w) ->
  0 <= n <= 7 -> 0 <= r <= 127 ->
  channel_strips w !! Z.to_nat n = Some strip ->
  ChannelStrip.get_selected_session strip = Some idx ->
  addressed w idx = Some c ->
  exists w',
    process_control_change n r w = (Ret tt, w') /\
    addressed w' idx =
      Some (mkCtl (c_float (py_truediv r 127)) (ctl_mute c)) /\
    valid_level (c_float (py_truediv r 127)) = true /\
    near_single r (c_float (py_truediv r 127)) = true /\
    channel_strips w' !! Z.to_nat n =
      Some (ChannelStrip.mk (ChannelStrip.channel_idx strip) (Some idx)
              (ChannelStrip.is_muted strip) (100 * r / 127)) /\
    seen is_mixer_call w' = seen is_mixer_call w ++ [MixerCall m_set_volume idx].
Proof.
  intros (Hf & _ & _) Hn Hr Hl Hsel Ha.
  assert (Hpc : percent_is_floor r = true).
  { clear - Hr. revert r Hr. apply data_bytes_forall. vm_compute.
    reflexivity. }
  destruct (level_of_byte_checked r Hr) as [Hvalid Hnear].
  unfold level_of_byte in Hvalid, Hnear.
  rewrite (fader_message_unfold w n r Hf Hn).
  unfold emit, log. rewrite bind_modify.
  set (w2 := with_trace _ _).
  unfold percent_is_floor in Hpc.
  destruct (py_int (PrimFloat.mul (py_truediv r 127) 100)) as [z | e] eqn:Hz;
    [| discriminate].
  apply Z.eqb_eq in Hpc.
  destruct (on_midi_fader_moved_run w2 n (py_truediv r 127) strip idx z c
              (proj1 Hn) Hl Hsel Ha Hz Hvalid)
    as (w' & Hrun & Hst & Hw & Hm & Ht).
  exists w'. split; [exact Hrun |].
  split; [exact (addressed_write w2 w' idx c _ Ha Hw Hm) |].
  split; [exact Hvalid |]. split; [exact Hnear |]. split.
  - rewrite Hst, Hpc. unfold ChannelStrip.get_selected_session in Hsel.
    rewrite Hsel. apply list_lookup_insert_eq.
    now apply lookup_lt_Some in Hl.
  - unfold seen. rewrite Ht. unfold w2; simpl.
    rewrite !List.filter_app. simpl. now rewrite app_nil_r.
Qed.

Lemma fader_message_sets_volume_witness :
  exists w',
    process_control_change 3 100 studio = (Ret tt, w') /\
    addressed w' 2 = Some (mkCtl (c_float (py_truediv 100 127)) false).
Proof.
  assert (Hn : 0 <= 3 <= 7) by lia.
  assert (Hr : 0 <= 100 <= 127) by lia.
  assert (Hl : channel_strips studio !! Z.to_nat 3
               = Some (ChannelStrip.mk 3 (Some 2) false 0)) by reflexivity.
  destruct (fader_message_sets_volume studio 3 100 _ 2 _ studio_handler_ok
              Hn Hr Hl (eq_refl (Some 2)) studio_addresses_player)
    as (w' & Hrun & Ha & _).
  exists w'. split; [exact Hrun | exact Ha].
Defined.

(** X17. A press on the button of a slot bound to a control that can be
    reached -- data byte at least 64 while the adapter remembers
    "released" -- flips that control's mute flag, sets the slot's cached
    mute to the new flag, calls [toggle_mute] once and sends one LED
    message with the new flag. *)
Theorem button_press_mutes_stream (w : World) (channel value : Z)
  (strip : ChannelStrip.t) (idx : Z) (c : AudioCtl) (port : string) :
  0 <= channel <= 7 -> 64 <= value ->
  MIDIHandler.button_states (midi_handler w) !! Z.to_nat channel
    = Some false ->
  channel_strips w !! Z.to_nat channel = Some strip ->
  ChannelStrip.get_selected_session strip = Some idx ->
  addressed w idx = Some c ->
  MIDIHandler.midi_out (midi_handler w) = Some port ->
  exists w',
    process_control_change (32 + channel) value w = (Ret tt, w') /\
    addressed w' idx = Some (mkCtl (ctl_volume c) (negb (ctl_mute c))) /\
    channel_strips w' !! Z.to_nat channel =
      Some (ChannelStrip.set_mute_state strip (negb (ctl_mute c))) /\
    seen is_toggle_call w' =
      seen is_toggle_call w ++ [MixerCall m_toggle_mute idx] /\
    seen is_led w' =
      seen is_led w ++
        [MidiOut (32 + channel) (if negb (ctl_mute c) then 127 else 0)].
Proof.
  intros Hc Hv Hprev Hl Hsel Ha Hport.
  assert (Hn : 32 <= 32 + channel <= 39) by lia.
  assert (Hp : MIDIHandler.button_states (midi_handler w)
                 !! Z.to_nat (32 + channel - 32) = Some false).
  { now replace (32 + channel - 32) with channel by lia. }
  assert (Hst : (64 <=? value) = true) by now apply Z.leb_le.
  assert (Hne : false <> (64 <=? value)) by now rewrite Hst.
  rewrite (button_message_unfold w (32 + channel) value false Hn Hp Hne).
  replace (32 + channel - 32) with channel by lia.
  unfold emit, log. rewrite bind_modify.
  set (w2 := with_trace _ _).
  destruct (on_midi_button_pressed_run w2 channel (64 <=? value) strip idx c
              port Hc Hl Hsel Ha Hport)
    as (w' & Hrun & Hstr & Hw & Hm & Ht).
  exists w'. split; [exact Hrun |]. split; [| split; [| split]].
  - exact (addressed_write w2 w' idx c _ Ha Hw Hm).
  - rewrite Hstr. apply list_lookup_insert_eq.
    now apply lookup_lt_Some in Hl.
  - unfold seen. rewrite Ht. unfold w2; simpl.
    rewrite !List.filter_app. simpl. now rewrite app_nil_r.
  - unfold seen. rewrite Ht. unfold w2; simpl.
    rewrite !List.filter_app. simpl. now rewrite app_nil_r.
Qed.

Lemma button_press_mutes_stream_witness :
  exists w',
    process_control_change 35 127 studio = (Ret tt, w') /\
    addressed w' 2 = Some (mkCtl 1%float true) /\
    seen is_led w' = [MidiOut 35 127].
Proof.
  assert (Hc : 0 <= 3 <= 7) by lia.
  assert (Hv : 64 <= 127) by lia.
  assert (Hprev : MIDIHandler.button_states (midi_handler studio)
                    !! Z.to_nat 3 = Some false) by reflexivity.
  assert (Hl : channel_strips studio !! Z.to_nat 3
               = Some (ChannelStrip.mk 3 (Some 2) false 0)) by reflexivity.
  assert (Hport : MIDIHandler.midi_out (midi_handler studio) = Some nano)
    by reflexivity.
  destruct (button_press_mutes_stream studio 3 127 _ 2 _ nano Hc Hv Hprev Hl
              (eq_refl (Some 2)) studio_addresses_player Hport)
    as (w' & Hrun & Ha & _ & _ & Hled).
  exists w'. split; [exact Hrun |]. split; [exact Ha | exact Hled].
Defined.

(** ** Slots that are not bound *)

Lemma strip_at_lookup (w : World) (channel : Z) (strip : ChannelStrip.t)
  (w' : World) :
  0 <= channel ->
  strip_at channel w = (Ret strip, w') ->
  w' = w /\ channel_strips w !! Z.to_nat channel = Some strip.
Proof.
  intros H0. unfold strip_at. rewrite bind_gets. unfold lift.
  intros [= Hg <-]. split; [reflexivity |].
  apply py_getitem_lookup in Hg as (j & Hj & Hl).
  unfold py_index in Hj. destruct (Z.ltb_spec channel 0); [lia |].
  destruct ((0 <=? channel) && _); [| discriminate].
  now injection Hj as <-.
Qed.

Lemma strip_at_state (w : World) (channel : Z) :
  snd (strip_at channel w) = w.
Proof. unfold strip_at. rewrite bind_gets. reflexivity. Qed.

(** X18. A slot that is not bound -- an unassigned strip, or a channel
    outside the strips -- never reaches the mixer.  A button edge changes
    nothing at all.  A fader move changes nothing, or nothing but the
    slider position of that one strip: the strip's cached mute and
    binding, the other strips, the adapter, the audio state and the
    trace (no mixer call, no LED message) are as before. *)
Theorem unbound_slot_is_inert (w : World) (channel : Z) (state : bool)
  (value : float) :
  (forall strip,
     0 <= channel ->
     channel_strips w !! Z.to_nat channel = Some strip ->
     ChannelStrip.get_selected_session strip = None) ->
  on_midi_button_pressed channel state w = (Ret tt, w) /\
  (snd (on_midi_fader_moved channel value w) = w \/
   exists strip percent,
     0 <= channel /\
     channel_strips w !! Z.to_nat channel = Some strip /\
     snd (on_midi_fader_moved channel value w) =
       with_channel_strips
         (<[Z.to_nat channel :=
             ChannelStrip.mk (ChannelStrip.channel_idx strip)
               (ChannelStrip.app_selector strip)
               (ChannelStrip.is_muted strip) percent]> (channel_strips w))
         w) /\
  audio_state (snd (on_midi_fader_moved channel value w)) = audio_state w /\
  seen is_mixer_call (snd (on_midi_fader_moved channel value w))
    = seen is_mixer_call w /\
  seen is_led (snd (on_midi_fader_moved channel value w)) = seen is_led w /\
  bindings (snd (on_midi_fader_moved channel value w)) = bindings w.
Proof.
  intros H. split.
  - unfold on_midi_button_pressed, len_channel_strips. rewrite bind_gets.
    destruct ((0 <=? channel) && (channel <? _)) eqn:G; [| reflexivity].
    apply guard_true in G.
    destruct (strip_at_run w channel G) as (strip & Hl & Hr).
    rewrite (bind_run _ _ _ _ _ Hr).
    now rewrite (H strip (proj1 G) Hl).
  - assert (Hw : snd (on_midi_fader_moved channel value w) = w \/
                 exists strip percent,
                   0 <= channel /\
                   channel_strips w !! Z.to_nat channel = Some strip /\
                   snd (on_midi_fader_moved channel value w) =
                     with_channel_strips
                       (<[Z.to_nat channel :=
                           ChannelStrip.mk (ChannelStrip.channel_idx strip)
                             (ChannelStrip.app_selector strip)
                             (ChannelStrip.is_muted strip) percent]>
                          (channel_strips w)) w).
    { unfold on_midi_fader_moved, len_channel_strips. rewrite bind_gets.
      destruct ((0 <=? channel) && (channel <? _)) eqn:G; [| now left].
      apply guard_true in G.
      destruct (strip_at_run w channel G) as (strip & Hl & Hr).
      pose proof (H strip (proj1 G) Hl) as Hsel.
      unfold ChannelStrip.get_selected_session in Hsel.
      destruct (ChannelStrip.set_fader_value strip value) as [strip' | e]
        eqn:Hs.
      - right.
        assert (Hshape : exists percent,
                   strip' = ChannelStrip.mk (ChannelStrip.channel_idx strip)
                              (ChannelStrip.app_selector strip)
                              (ChannelStrip.is_muted strip) percent).
        { unfold ChannelStrip.set_fader_value in Hs.
          destruct (py_int _) as [z | e]; [| discriminate].
          injection Hs as <-. now eexists. }
        destruct Hshape as (percent & ->).
        exists strip, percent. split; [exact (proj1 G) |].
        split; [exact Hl |].
        rewrite (bind_run _ _ _ _ _
                   (with_strip_run w channel
                      (fun strip => ChannelStrip.set_fader_value strip value)
                      strip _ (proj1 G) Hl Hs)).
        set (w1 := with_channel_strips _ w).
        assert (G1 : 0 <= channel < Z.of_nat (length (channel_strips w1))).
        { unfold w1; simpl. rewrite length_insert. exact G. }
        destruct (strip_at_run w1 channel G1) as (s1 & Hl1 & Hr1).
        unfold w1 in Hl1; simpl in Hl1.
        rewrite list_lookup_insert_eq in Hl1
          by (now apply lookup_lt_Some in Hl).
        injection Hl1 as <-.
        rewrite (bind_run _ _ _ _ _ Hr1).
        unfold ChannelStrip.get_selected_session. simpl.
        now rewrite Hsel.
      - left.
        assert (Hws : with_strip channel
                        (fun strip => ChannelStrip.set_fader_value strip value)
                        w = (Raise e, w)).
        { unfold with_strip. rewrite (bind_run _ _ _ _ _ Hr).
          unfold bind, lift. now rewrite Hs. }
        unfold bind at 1. now rewrite Hws. }
    split; [exact Hw |].
    destruct Hw as [-> | (strip & percent & H0 & Hl & ->)];
      [now repeat split |].
    split; [reflexivity |]. split; [reflexivity |]. split; [reflexivity |].
    unfold bindings; simpl. rewrite list_fmap_insert.
    apply list_insert_id. now rewrite list_lookup_fmap, Hl.
Qed.

Lemma unbound_slot_is_inert_witness :
  on_midi_button_pressed 1 true studio = (Ret tt, studio) /\
  bindings (snd (on_midi_fader_moved 1 (py_truediv 64 127) studio))
    = bindings studio.
Proof.
  assert (H : forall strip,
             0 <= 1 ->
             channel_strips studio !! Z.to_nat 1 = Some strip ->
             ChannelStrip.get_selected_session strip = None).
  { intros strip _ Hl. simpl in Hl.  now injection Hl as <-. }
  destruct (unbound_slot_is_inert studio 1 true (py_truediv 64 127) H)
    as (Hb & _ & _ & _ & _ & Hf).
  split; [exact Hb | exact Hf].
Defined.

(** ** The reconciliation pass as a whole *)

Lemma with_strip_keeps_length channel method :
  keeps (fun w => length (channel_strips w)) (with_strip channel method).
Proof.
  intros w. unfold with_strip, strip_at, bind, gets, lift, modify.
  destruct (py_getitem (channel_strips w) channel) as [strip | e];
    [| reflexivity].
  destruct (method strip) as [strip' | e]; [| reflexivity].
  destruct (py_setitem (channel_strips w) channel strip') as [l | e] eqn:E;
    [| reflexivity].
  simpl. exact (py_setitem_length _ _ _ _ E).
Qed.

Lemma is_muted_keeps_length idx :
  keeps (fun w => length (channel_strips w)) (is_muted idx).
Proof.
  exact (keeps_component channel_strips (@length _) _
           (is_muted_keeps_strips idx)).
Qed.

Lemma reflect_audio_state_keeps_length :
  keeps (fun w => length (channel_strips w)) reflect_audio_state.
Proof.
  pose proof with_strip_keeps_length.
  pose proof is_muted_keeps_length.
  unfold reflect_audio_state, reflect_strip, strip_at. frame.
Qed.

Lemma reflect_audio_state_keeps_mixer : keeps audio_mixer reflect_audio_state.
Proof. unfold reflect_audio_state, reflect_strip, strip_at. frame. Qed.

Lemma reflect_audio_state_run (w : World) :
  exists w',
    reflect_audio_state w = (Ret tt, w') /\
    channel_strips w' = reflected w <$> channel_strips w /\
    audio_state w' = audio_state w /\
    audio_mixer w' = audio_mixer w.
Proof.
  destruct (reflect_loop w (length (channel_strips w)) 0%nat w)
    as (w' & Hrun & Hall); [reflexivity | reflexivity | reflexivity |].
  assert (Hrun' : reflect_audio_state w = (Ret tt, w')).
  { unfold reflect_audio_state. now rewrite bind_gets. }
  assert (Hw' : w' = snd (reflect_audio_state w)) by now rewrite Hrun'.
  exists w'. split; [exact Hrun' |]. split.
  - apply list_eq. intros i. rewrite list_lookup_fmap.
    destruct (channel_strips w !! i) as [strip |] eqn:Hl; simpl.
    + rewrite (Hall i strip Hl).
      destruct (decide (0 <= i)%nat); [reflexivity | lia].
    + apply lookup_ge_None. apply lookup_ge_None in Hl.
      rewrite Hw'.
      now rewrite (reflect_audio_state_keeps_length w).
  - rewrite Hw'. split.
    + apply reflect_audio_state_keeps_audio.
    + apply reflect_audio_state_keeps_mixer.
Qed.

Lemma reflected_twice (w : World) (strip : ChannelStrip.t) :
  reflected w (reflected w strip) = reflected w strip.
Proof.
  unfold reflected.
  destruct (ChannelStrip.get_selected_session strip) as [idx |] eqn:E.
  - change (ChannelStrip.get_selected_session
              (ChannelStrip.set_mute_state strip (registry_mute w idx)))
      with (ChannelStrip.get_selected_session strip).
    now rewrite E.
  - now rewrite E.
Qed.

(** X19. The reconciliation pass maps every strip to itself with the
    cached mute replaced by the registry's flag when the strip is bound;
    unbound strips are not touched.  Run a second time with the audio
    state unchanged, it changes no strip. *)
Theorem reflect_audio_state_idempotent (w : World) :
  exists w1 w2,
    reflect_audio_state w = (Ret tt, w1) /\
    channel_strips w1 = reflected w <$> channel_strips w /\
    reflect_audio_state w1 = (Ret tt, w2) /\
    channel_strips w2 = channel_strips w1.
Proof.
  destruct (reflect_audio_state_run w) as (w1 & Hrun1 & Hs1 & Ha1 & Hm1).
  destruct (reflect_audio_state_run w1) as (w2 & Hrun2 & Hs2 & _ & _).
  exists w1, w2. split; [exact Hrun1 |]. split; [exact Hs1 |].
  split; [exact Hrun2 |].
  rewrite Hs2, Hs1. rewrite <- list_fmap_compose.
  apply list_fmap_ext. intros i strip _. simpl.
  rewrite (reflected_ext w1 w _ Ha1 Hm1). apply reflected_twice.
Qed.

(** X20. A tick with nothing to read -- the input port closed or the
    queue empty -- is the reconciliation pass alone: it writes nothing
    to the audio backend, sends nothing to the surface, emits no signal
    and leaves the adapter and the bindings as they are. *)
Theorem idle_tick_is_silent (w : World) :
  MIDIHandler.midi_in (midi_handler w) = None \/ pending w = [] ->
  update_loop w = reflect_audio_state w /\
  audio_state (snd (update_loop w)) = audio_state w /\
  seen is_led (snd (update_loop w)) = seen is_led w /\
  seen is_toggle_call (snd (update_loop w)) = seen is_toggle_call w /\
  midi_handler (snd (update_loop w)) = midi_handler w /\
  bindings (snd (update_loop w)) = bindings w.
Proof.
  intros H.
  assert (Hpoll : poll_messages w = (Ret tt, w)).
  { unfold poll_messages, handler. rewrite bind_gets.
    destruct (MIDIHandler.midi_in (midi_handler w)) as [port |];
      [| reflexivity].
    destruct H as [H | H]; [discriminate |].
    rewrite bind_gets, H. reflexivity. }
  assert (Heq : update_loop w = reflect_audio_state w).
  { unfold update_loop. now rewrite (bind_run _ _ _ _ _ Hpoll). }
  rewrite Heq. split; [reflexivity |].
  split; [apply reflect_audio_state_keeps_audio |].
  split; [apply reflect_audio_state_keeps_leds |].
  split; [apply reflect_audio_state_keeps_toggle_calls |].
  split; [apply reflect_audio_state_keeps_handler |].
  apply reflect_audio_state_keeps_bindings.
Qed.

Lemma idle_tick_is_silent_witness :
  update_loop studio_player_muted = reflect_audio_state studio_player_muted.
Proof.
  assert (H : MIDIHandler.midi_in (midi_handler studio_player_muted) = None
              \/ pending studio_player_muted = []) by (right; reflexivity).
  exact (proj1 (idle_tick_is_silent studio_player_muted H)).
Defined.

(** ** The device-selection dialog *)

Lemma itemText_lookup (combo : QComboBox.t) (i : nat) (text : string) :
  QComboBox.items combo !! i = Some text ->
  QComboBox.itemText combo (Z.of_nat i) = text.
Proof.
  intros H. unfold QComboBox.itemText.
  destruct (Z.leb_spec 0 (Z.of_nat i)); [| lia].
  now rewrite Nat2Z.id, H.
Qed.

Lemma select_first_nano_seq (combo : QComboBox.t) (m : nat) :
  forall k : nat,
    (k + m <= QComboBox.count combo)%nat ->
    let after := select_first_nano combo (seq k m) in
    QComboBox.items after = QComboBox.items combo /\
    ((forall i, (k <= i < k + m)%nat ->
        py_in nano_name (QComboBox.itemText combo (Z.of_nat i)) = false) ->
     after = combo) /\
    (forall i, (k <= i < k + m)%nat ->
       py_in nano_name (QComboBox.itemText combo (Z.of_nat i)) = true ->
       (forall j, (k <= j < i)%nat ->
          py_in nano_name (QComboBox.itemText combo (Z.of_nat j)) = false) ->
       QComboBox.currentIndex after = Z.of_nat i) /\
    (has_current combo -> has_current after).
Proof.
  induction m as [| m IH]; intros k Hk; cbn [seq select_first_nano].
  - split; [reflexivity |]. split; [reflexivity |].
    split; [intros i Hi; lia | trivial].
  - destruct (py_in nano_name (QComboBox.itemText combo (Z.of_nat k))) eqn:E.
    + split; [reflexivity |]. split; [| split].
      * intros Hnone. rewrite Hnone in E by lia. discriminate.
      * intros i Hi Hm Hfirst.
        destruct (decide (i = k)) as [-> | Hne].
        -- unfold QComboBox.setCurrentIndex; simpl.
           destruct (Z.leb_spec 0 (Z.of_nat k)); [| lia].
           destruct (Z.ltb_spec (Z.of_nat k)
                       (Z.of_nat (QComboBox.count combo))); [| lia].
           reflexivity.
        -- rewrite (Hfirst k) in E by lia. discriminate.
      * intros _. unfold has_current, QComboBox.setCurrentIndex; simpl.
        destruct (Z.leb_spec 0 (Z.of_nat k)); [| lia].
        destruct (Z.ltb_spec (Z.of_nat k)
                    (Z.of_nat (QComboBox.count combo))); [| lia].
        simpl. unfold QComboBox.count in *. simpl. lia.
    + assert (Hk' : (S k + m <= QComboBox.count combo)%nat) by lia.
      destruct (IH (S k) Hk') as (Hitems & Hnone & Hfirst & Hcur).
      split; [exact Hitems |]. split; [| split; [| exact Hcur]].
      * intros H. apply Hnone. intros i Hi. apply H. lia.
      * intros i Hi Hm Hbefore.
        destruct (decide (i = k)) as [-> | Hne];
          [rewrite Hm in E; discriminate |].
        apply Hfirst; [lia | exact Hm |].
        intros j Hj. apply Hbefore. lia.
Qed.

Lemma select_first_nano_spec (combo : QComboBox.t) :
  first_nano_selected combo
    (select_first_nano combo (seq 0 (QComboBox.count combo))).
Proof.
  destruct (select_first_nano_seq combo (QComboBox.count combo) 0%nat)
    as (Hitems & Hnone & Hfirst & _); [lia |].
  split; [exact Hitems |]. split.
  - intros H. apply Hnone. intros i Hi.
    destruct (lookup_lt_is_Some_2 (QComboBox.items combo) i) as [text Ht];
      [unfold QComboBox.count in Hi; lia |].
    rewrite (itemText_lookup combo i text Ht). exact (H i text Ht).
  - intros i text Ht Hm Hbefore. apply Hfirst.
    + apply lookup_lt_Some in Ht. unfold QComboBox.count. lia.
    + now rewrite (itemText_lookup combo i text Ht).
    + intros j Hj.
      destruct (lookup_lt_is_Some_2 (QComboBox.items combo) j)
        as [other Ho].
      { apply lookup_lt_Some in Ht. lia. }
      rewrite (itemText_lookup combo j other Ho).
      apply (Hbefore j other); [lia | exact Ho].
Qed.

(** X21. [auto_select_nanokontrol] makes current, in each of the two
    combo boxes, the first device whose name contains "nanoKONTROL2";
    a box without such a device keeps its selection, and no box loses
    or gains an item. *)
Theorem auto_select_first_match (self : DeviceSelectionDialog.t) :
  first_nano_selected (DeviceSelectionDialog.input_combo self)
    (DeviceSelectionDialog.input_combo (auto_select_nanokontrol self)) /\
  first_nano_selected (DeviceSelectionDialog.output_combo self)
    (DeviceSelectionDialog.output_combo (auto_select_nanokontrol self)).
Proof. split; apply select_first_nano_spec. Qed.

Lemma fill_combo (names : list string) :
  forall acc idx,
    fold_left QComboBox.addItem names (QComboBox.mk acc idx) =
    QComboBox.mk (acc ++ names)
      (match acc with
       | [] => match names with [] => idx | _ :: _ => 0 end
       | _ :: _ => idx
       end).
Proof.
  induction names as [| name rest IH]; intros acc idx; simpl.
  - now rewrite app_nil_r; destruct acc.
  - unfold QComboBox.addItem at 2. simpl. rewrite IH.
    rewrite <- app_assoc. simpl. f_equal. now destruct acc.
Qed.

Lemma has_current_text (combo : QComboBox.t) :
  has_current combo ->
  In (QComboBox.currentText combo) (QComboBox.items combo).
Proof.
  unfold has_current, QComboBox.currentText, QComboBox.itemText,
    QComboBox.count.
  intros H. destruct (Z.leb_spec 0 (QComboBox.currentIndex combo)); [| lia].
  destruct (lookup_lt_is_Some_2 (QComboBox.items combo)
              (Z.to_nat (QComboBox.currentIndex combo))) as [text Ht];
    [lia |].
  rewrite Ht. apply list_elem_of_In, list_elem_of_lookup. eauto.
Qed.

Lemma listed_In (names : list string) (name : string) :
  In name names -> listed names name = true.
Proof.
  intros H. unfold listed. apply existsb_exists.
  exists name. split; [exact H | apply String.eqb_refl].
Qed.

Lemma filled_selection (names : list string) :
  names <> [] ->
  let combo := fold_left QComboBox.addItem names
                 (QComboBox.clear (QComboBox.mk [] (-1))) in
  listed names
    (QComboBox.currentText
       (select_first_nano combo (seq 0 (QComboBox.count combo)))) = true.
Proof.
  intros Hne combo. unfold combo, QComboBox.clear. rewrite fill_combo.
  simpl. set (c := QComboBox.mk names _).
  destruct (select_first_nano_seq c (QComboBox.count c) 0%nat)
    as (Hitems & _ & _ & Hcur); [lia |].
  assert (Hc : has_current c).
  { unfold has_current, c, QComboBox.count; simpl.
    destruct names; [contradiction | simpl; lia]. }
  apply listed_In. specialize (Hcur Hc).
  apply has_current_text in Hcur. now rewrite Hitems in Hcur.
Qed.

Lemma connect_device_run (w : World) (input output : string) :
  let both := listed (input_names w) input && listed (output_names w) output in
  exists w',
    connect_device input output w = (Ret both, w') /\
    MIDIHandler.midi_in (midi_handler w') =
      (if listed (input_names w) input then Some input else None) /\
    MIDIHandler.midi_out (midi_handler w') =
      (if both then Some output else None) /\
    remembered w' = remembered w.
Proof.
  unfold listed.
  destruct w as [[[p_in |] [p_out |] name faders buttons knobs]
                   mixer strips ins outs queue sessions store master tr];
    unfold connect_device, close, open_port, handler, modify_handler, print,
      try_except, bind, gets, modify, log, ret, raise; simpl;
    destruct (existsb (String.eqb input) ins); simpl;
    destruct (existsb (String.eqb output) outs); simpl;
    (eexists; split; [reflexivity |]; repeat split).
Qed.

Lemma refresh_device_lists_run (self : DeviceSelectionDialog.t) (w : World) :
  refresh_device_lists self w =
    (Ret (auto_select_nanokontrol
            (DeviceSelectionDialog.mk
               (fold_left QComboBox.addItem (input_names w)
                  (QComboBox.clear (DeviceSelectionDialog.input_combo self)))
               (fold_left QComboBox.addItem (output_names w)
                  (QComboBox.clear (DeviceSelectionDialog.output_combo self))))),
     w).
Proof. reflexivity. Qed.

(** X22. When the transport lists at least one input and one output,
    the selection the dialog shows after [refresh_device_lists] names
    listed devices, and [connect_device] on it succeeds. *)
Theorem default_selection_connects (w : World) :
  input_names w <> [] -> output_names w <> [] ->
  exists dialog,
    refresh_device_lists
      (DeviceSelectionDialog.mk (QComboBox.mk [] (-1)) (QComboBox.mk [] (-1)))
      w = (Ret dialog, w) /\
    listed (input_names w) (fst (get_selected_devices dialog)) = true /\
    listed (output_names w) (snd (get_selected_devices dialog)) = true /\
    fst (connect_device (fst (get_selected_devices dialog))
           (snd (get_selected_devices dialog)) w) = Ret true.
Proof.
  intros Hi Ho. eexists. split; [apply refresh_device_lists_run |].
  pose proof (filled_selection (input_names w) Hi) as Hin.
  pose proof (filled_selection (output_names w) Ho) as Hout.
  cbv zeta in Hin, Hout.
  set (dialog := auto_select_nanokontrol _).
  assert (Hin' : listed (input_names w) (fst (get_selected_devices dialog))
                 = true) by exact Hin.
  assert (Hout' : listed (output_names w) (snd (get_selected_devices dialog))
                  = true) by exact Hout.
  split; [exact Hin' |]. split; [exact Hout' |].
  destruct (connect_device_run w (fst (get_selected_devices dialog))
              (snd (get_selected_devices dialog))) as (w' & Hrun & _).
  rewrite Hrun. cbv zeta. cbn [fst]. now rewrite Hin', Hout'.
Qed.

Lemma default_selection_connects_witness :
  exists dialog,
    refresh_device_lists
      (DeviceSelectionDialog.mk (QComboBox.mk [] (-1)) (QComboBox.mk [] (-1)))
      two_devices = (Ret dialog, two_devices) /\
    fst (connect_device (fst (get_selected_devices dialog))
           (snd (get_selected_devices dialog)) two_devices) = Ret true.
Proof.
  assert (Hi : input_names two_devices <> []) by discriminate.
  assert (Ho : output_names two_devices <> []) by discriminate.
  destruct (default_selection_connects two_devices Hi Ho)
    as (dialog & Hrun & _ & _ & Hconn).
  exists dialog. split; [exact Hrun | exact Hconn].
Defined.

(** ** The update timer *)

Lemma close_run (w : World) :
  exists w',
    close w = (Ret tt, w') /\
    MIDIHandler.midi_in (midi_handler w') = None /\
    MIDIHandler.midi_out (midi_handler w') = None /\
    input_names w' = input_names w /\ output_names w' = output_names w /\
    remembered w' = remembered w.
Proof.
  destruct w as [[[p_in |] [p_out |] name faders buttons knobs]
                   mixer strips ins outs queue sessions store master tr];
    (eexists; split; [reflexivity |]; repeat split).
Qed.

(** X23. After [show_device_selection], whatever the user does with the
    dialog, [update_timer] runs exactly when the output port is open,
    and then the input port is open too: the loop never ticks on a
    surface that is not connected.  What the adapter remembers of the
    controls is not touched. *)
Theorem show_device_selection_timer (w : World)
  (user : DeviceSelectionDialog.t -> DeviceSelectionDialog.t * bool)
  (self : MainWindow.t) :
  exists self' w',
    show_device_selection user self w = (Ret self', w') /\
    MainWindow.update_timer_active self' =
      match MIDIHandler.midi_out (midi_handler w') with
      | Some _ => true
      | None => false
      end /\
    (MainWindow.update_timer_active self' = true ->
     MIDIHandler.midi_in (midi_handler w') <> None) /\
    remembered w' = remembered w.
Proof.
  unfold show_device_selection.
  destruct (close_run w) as (w0 & Hclose & Hin0 & Hout0 & _ & _ & Hrem0).
  rewrite (bind_run _ _ _ _ _ Hclose).
  rewrite (bind_run _ _ _ _ _ (refresh_device_lists_run _ w0)).
  destruct (user _) as [dialog accepted].
  destruct accepted.
  - destruct (get_selected_devices dialog) as [input output].
    destruct (connect_device_run w0 input output)
      as (w1 & Hconn & Hin1 & Hout1 & Hrem1).
    cbv zeta in Hconn, Hout1.
    rewrite (bind_run _ _ _ _ _ Hconn).
    destruct (listed (input_names w0) input && listed (output_names w0) output)
      eqn:Hboth.
    + destruct (update_app_list_run w1) as (apps & _ & Hupd).
      rewrite (bind_run _ _ _ _ _ Hupd).
      eexists _, _. split; [reflexivity |]. simpl.
      apply andb_true_iff in Hboth as [Hli _]. rewrite Hli in Hin1.
      rewrite Hout1, Hin1. repeat split; [discriminate |].
      now rewrite <- Hrem0, <- Hrem1.
    + eexists _, _. split; [reflexivity |]. simpl.
      rewrite Hout1. repeat split; [discriminate |].
      now rewrite <- Hrem0, <- Hrem1.
  - eexists _, _. split; [reflexivity |]. simpl.
    rewrite Hout0. repeat split; [discriminate | exact Hrem0].
Qed.
